(** * The generation session controller of the code generator frontend

    A shallow embedding of the session logic of [frontend/app.js]
    (class [CodeGeneratorApp]): the fields of the controller object, the
    part of the page it reads back or reports status through, the
    [localStorage] slots, the WebSocket objects it creates, and its event
    handlers.  Asynchronous methods are split at their [await]s into
    continuations that a run-to-completion event loop resumes, so that
    other events can be delivered in between, as in the browser. *)

From Stdlib Require Import ZArith List String Ascii Bool Lia.
From stdpp Require Import base decidable option list numbers.
Import ListNotations.

Local Open Scope Z_scope.

(** ** JavaScript strings

    A string is its sequence of UTF-16 code units. *)

Definition JsString : Type := list N.

(** A string literal of the source (ASCII only). *)
Definition lit (s : string) : JsString :=
  map N_of_ascii (list_ascii_of_string s).
Arguments lit s%_string.

(** The line feed that the source writes ['\n']. *)
Definition LF : JsString := [10%N].

(** [Boolean(s)] for a string: only the empty string is falsy. *)
Definition truthy (s : JsString) : bool :=
  match s with
  | [] => false
  | _ :: _ => true
  end.

(** [Boolean(v)] for a value that is [null]/[undefined] ([None]) or a
    string. *)
Definition truthy_opt (v : option JsString) : bool :=
  match v with
  | None => false
  | Some s => truthy s
  end.

(** [a || b] on strings that may be missing. *)
Definition or_default (v : option JsString) (d : JsString) : JsString :=
  match v with
  | Some s => if truthy s then s else d
  | None => d
  end.

(** A value interpolated in a template literal. *)
Definition interpolate (v : option JsString) : JsString :=
  match v with
  | Some s => s
  | None => lit "undefined"
  end.

(** ECMAScript WhiteSpace and LineTerminator code points: what
    [String.prototype.trim] strips. *)
Definition isWhiteSpace (c : N) : bool :=
  ((9 <=? c) && (c <=? 13) || (c =? 32) || (c =? 160) || (c =? 5760)
   || (8192 <=? c) && (c <=? 8202) || (c =? 8232) || (c =? 8233)
   || (c =? 8239) || (c =? 8287) || (c =? 12288) || (c =? 65279))%N.

Fixpoint trimStart (s : JsString) : JsString :=
  match s with
  | [] => []
  | c :: r => if isWhiteSpace c then trimStart r else s
  end.

Definition trimEnd (s : JsString) : JsString :=
  rev (trimStart (rev s)).

Definition trim (s : JsString) : JsString := trimEnd (trimStart s).

(** [s.endsWith(search)]: the last [search.length] code units of [s] are
    [search]. *)
Definition endsWith (s search : JsString) : bool :=
  (length search <=? length s)%nat
  && bool_decide (drop (length s - length search) s = search).

(** [s.startsWith(search)]. *)
Definition startsWith (s search : JsString) : bool :=
  bool_decide (take (length search) s = search).

(** [a === b] on strings. *)
Definition str_eqb (a b : JsString) : bool := bool_decide (a = b).

(** [v === 'text'] where [v] may be missing. *)
Definition is_str (v : option JsString) (t : JsString) : bool :=
  bool_decide (v = Some t).

(** ** Numbers

    A count is a number, that is a double; the counts are integers, and a
    double that is an integer is written as that integer. *)

(** The double nearest to an integer, ties to even: an integer below
    [2 ^ 53] in absolute value is a double, a larger one is rounded to 53
    significant bits. *)
Definition nearestDouble (z : Z) : Z :=
  let a := Z.abs z in
  let e := Z.log2 a - 52 in
  if e <=? 0 then z
  else
    let q := a / 2 ^ e in
    let r := a mod 2 ^ e in
    let half := 2 ^ (e - 1) in
    let q' :=
      if r <? half then q
      else if half <? r then q + 1
      else if Z.even q then q else q + 1 in
    Z.sgn z * (q' * 2 ^ e).

(** [x++] leaves [x + 1] in [x]: the double nearest to the sum, which is
    the sum below [2 ^ 53] and is [x] again at [2 ^ 53]. *)
Definition increment (x : Z) : Z := nearestDouble (x + 1).
Global Arguments increment : simpl never.

(** ** Data model *)

(** [WebSocket.readyState]. *)
Inductive ReadyState : Type := CONNECTING | OPEN | CLOSING | CLOSED.

Global Instance ReadyState_eq_dec : EqDecision ReadyState.
Proof. solve_decision. Defined.

(** A [WebSocket] object: the generation id its URL was built from
    ([/ws/generate/<id>]) and its ready state.  Every socket that
    [connectWebSocket] creates carries the same four handlers, which act on
    the one controller. *)
Record Socket : Type := {
  socketId : option JsString;
  readyState : ReadyState
}.

(** A decoded WebSocket message, by its [type]. *)
Inductive Message : Type :=
  | Token (data : JsString)
  | Progress (tokens : Z)
  | Status (status : JsString)
  | MsgDone (language filename : option JsString)
  | MsgError (message : option JsString)
  | Unknown.

(** A generation object: what [/history/<id>] answers and what the
    controller builds locally.  A missing property is [None]. *)
Record Generation : Type := {
  g_id : option JsString;        (* _id *)
  g_status : option JsString;
  g_output : option JsString;
  g_error : option JsString;
  g_prompt : option JsString
}.

(** What [response.json()] decodes to, by the properties the callers
    read. *)
Inductive Json : Type :=
  | JCreated (id : option JsString)                       (* { id } *)
  | JGeneration (generation : Generation)
  | JModels (error : option JsString) (models : option (list JsString))
  | JOther.

(** The settlement of a [fetch]: a response with its [ok] flag and
    [status] code, or a rejection (network failure, timeout). *)
Inductive FetchOutcome : Type :=
  | Response (ok : bool) (status : Z)
  | FetchRejected.

(** The settlement of [response.json()]. *)
Inductive JsonOutcome : Type :=
  | Decoded (body : Json)
  | JsonRejected.

(** Requests the controller sends. *)
Inductive Request : Type :=
  | PostGenerate (prompt : JsString)
  | PostStop (id : JsString) (output : JsString)
  | PostFail (id : JsString) (error output : JsString)
  | PostModelSet (model : JsString)
  | GetHealth
  | GetHistory
  | GetHistoryItem (id : JsString)
  | GetHistoryItemOfNoId
  | GetModels.

(** The request for [`${this.apiBase}/history/${id}`].  An id that is
    [null] or [undefined] when the text is built is printed as such; the
    state does not tell the two apart, and either request is
    [GetHistoryItemOfNoId]. *)
Definition getHistoryItem (id : option JsString) : Request :=
  match id with
  | Some id => GetHistoryItem id
  | None => GetHistoryItemOfNoId
  end.

Inductive ToastType : Type :=
  ToastInfo | ToastSuccess | ToastWarning | ToastError.

(** The object [saveLastGeneration] serialises. *)
Record SavedState : Type := {
  st_generationId : option JsString;
  st_prompt : JsString;
  st_outputBuffer : JsString;
  st_tokenCount : Z;
  st_isGenerating : bool;
  st_timestamp : Z
}.

(** The text held under the key ['appState']: empty, text that
    [JSON.parse] rejects or decodes to something without the saved
    properties, or a serialised [SavedState]. *)
Inductive Item : Type :=
  | EmptyText
  | Undecodable
  | Saved (state : SavedState).

Inductive StorageKey : Type := KAppState | KSelectedModel | KLastGenerationId.

(** What the controller does to the outside, in the order it does it. *)
Inductive Effect : Type :=
  | Toast (message : JsString) (type : ToastType)
  | Fetch (request : Request)
  | SetItem (key : StorageKey)
  | RemoveItem (key : StorageKey).

(** The text of the generate button. *)
Inductive ButtonLabel : Type := GenerateCode | Generating | Regenerate.

(** [this.elements]: the properties of the page that the controller reads
    back ([promptInput.value]) or shows the session's status through.
    Rendering of the output, badges, disabled flags and the loading
    animation are written but never read by the controller and are left
    out. *)
Record Elements : Type := {
  promptInput : JsString;      (* promptInput.value *)
  statusText : JsString;       (* statusText.textContent *)
  promptSection : bool;        (* promptSection.style.display is 'block' *)
  generateBtn : ButtonLabel;   (* generateBtn.innerHTML *)
  modelName : JsString;        (* modelName.textContent *)
  modelModal : bool            (* modelModal has class 'visible' *)
}.

(** [localStorage], by the three keys the application uses. *)
Record Storage : Type := {
  appState : option Item;
  selectedModel : option JsString;
  lastGenerationId : option JsString
}.

(** The controller object ([this]) together with the browser state it
    works on.  [ws] refers to a socket by its position in [sockets];
    sockets it no longer refers to stay in [sockets] and keep their
    handlers.  [clock] is what [Date.now()] returns. *)
Record App : Type := {
  ws : option nat;
  currentGenerationId : option JsString;
  isGenerating : bool;
  outputBuffer : JsString;
  tokenCount : Z;
  elements : Elements;
  localStorage : Storage;
  sockets : list Socket;
  log : list Effect;
  clock : Z
}.

(** *** Field updates *)

Definition set_ws (v : option nat) (s : App) : App :=
  {| ws := v; currentGenerationId := currentGenerationId s;
     isGenerating := isGenerating s; outputBuffer := outputBuffer s;
     tokenCount := tokenCount s; elements := elements s;
     localStorage := localStorage s; sockets := sockets s; log := log s;
     clock := clock s |}.

Definition set_currentGenerationId (v : option JsString) (s : App) : App :=
  {| ws := ws s; currentGenerationId := v; isGenerating := isGenerating s;
     outputBuffer := outputBuffer s; tokenCount := tokenCount s;
     elements := elements s; localStorage := localStorage s;
     sockets := sockets s; log := log s; clock := clock s |}.

Definition set_isGenerating (v : bool) (s : App) : App :=
  {| ws := ws s; currentGenerationId := currentGenerationId s;
     isGenerating := v; outputBuffer := outputBuffer s;
     tokenCount := tokenCount s; elements := elements s;
     localStorage := localStorage s; sockets := sockets s; log := log s;
     clock := clock s |}.

Definition set_outputBuffer (v : JsString) (s : App) : App :=
  {| ws := ws s; currentGenerationId := currentGenerationId s;
     isGenerating := isGenerating s; outputBuffer := v;
     tokenCount := tokenCount s; elements := elements s;
     localStorage := localStorage s; sockets := sockets s; log := log s;
     clock := clock s |}.

Definition set_tokenCount (v : Z) (s : App) : App :=
  {| ws := ws s; currentGenerationId := currentGenerationId s;
     isGenerating := isGenerating s; outputBuffer := outputBuffer s;
     tokenCount := v; elements := elements s; localStorage := localStorage s;
     sockets := sockets s; log := log s; clock := clock s |}.

Definition set_elements (v : Elements) (s : App) : App :=
  {| ws := ws s; currentGenerationId := currentGenerationId s;
     isGenerating := isGenerating s; outputBuffer := outputBuffer s;
     tokenCount := tokenCount s; elements := v;
     localStorage := localStorage s; sockets := sockets s; log := log s;
     clock := clock s |}.

Definition set_localStorage (v : Storage) (s : App) : App :=
  {| ws := ws s; currentGenerationId := currentGenerationId s;
     isGenerating := isGenerating s; outputBuffer := outputBuffer s;
     tokenCount := tokenCount s; elements := elements s; localStorage := v;
     sockets := sockets s; log := log s; clock := clock s |}.

Definition set_sockets (v : list Socket) (s : App) : App :=
  {| ws := ws s; currentGenerationId := currentGenerationId s;
     isGenerating := isGenerating s; outputBuffer := outputBuffer s;
     tokenCount := tokenCount s; elements := elements s;
     localStorage := localStorage s; sockets := v; log := log s;
     clock := clock s |}.

Definition set_log (v : list Effect) (s : App) : App :=
  {| ws := ws s; currentGenerationId := currentGenerationId s;
     isGenerating := isGenerating s; outputBuffer := outputBuffer s;
     tokenCount := tokenCount s; elements := elements s;
     localStorage := localStorage s; sockets := sockets s; log := v;
     clock := clock s |}.

Definition set_clock (v : Z) (s : App) : App :=
  {| ws := ws s; currentGenerationId := currentGenerationId s;
     isGenerating := isGenerating s; outputBuffer := outputBuffer s;
     tokenCount := tokenCount s; elements := elements s;
     localStorage := localStorage s; sockets := sockets s; log := log s;
     clock := v |}.

Definition set_promptInput (v : JsString) (s : App) : App :=
  set_elements
    {| promptInput := v;
       statusText := statusText (elements s);
       promptSection := promptSection (elements s);
       generateBtn := generateBtn (elements s);
       modelName := modelName (elements s);
       modelModal := modelModal (elements s) |} s.

Definition set_statusText (v : JsString) (s : App) : App :=
  set_elements
    {| promptInput := promptInput (elements s);
       statusText := v;
       promptSection := promptSection (elements s);
       generateBtn := generateBtn (elements s);
       modelName := modelName (elements s);
       modelModal := modelModal (elements s) |} s.

Definition set_promptSection (v : bool) (s : App) : App :=
  set_elements
    {| promptInput := promptInput (elements s);
       statusText := statusText (elements s);
       promptSection := v;
       generateBtn := generateBtn (elements s);
       modelName := modelName (elements s);
       modelModal := modelModal (elements s) |} s.

Definition set_generateBtn (v : ButtonLabel) (s : App) : App :=
  set_elements
    {| promptInput := promptInput (elements s);
       statusText := statusText (elements s);
       promptSection := promptSection (elements s);
       generateBtn := v;
       modelName := modelName (elements s);
       modelModal := modelModal (elements s) |} s.

Definition set_modelName (v : JsString) (s : App) : App :=
  set_elements
    {| promptInput := promptInput (elements s);
       statusText := statusText (elements s);
       promptSection := promptSection (elements s);
       generateBtn := generateBtn (elements s);
       modelName := v;
       modelModal := modelModal (elements s) |} s.

Definition set_modelModal (v : bool) (s : App) : App :=
  set_elements
    {| promptInput := promptInput (elements s);
       statusText := statusText (elements s);
       promptSection := promptSection (elements s);
       generateBtn := generateBtn (elements s);
       modelName := modelName (elements s);
       modelModal := v |} s.

Definition set_appState (v : option Item) (s : App) : App :=
  set_localStorage
    {| appState := v;
       selectedModel := selectedModel (localStorage s);
       lastGenerationId := lastGenerationId (localStorage s) |} s.

Definition set_selectedModel (v : option JsString) (s : App) : App :=
  set_localStorage
    {| appState := appState (localStorage s);
       selectedModel := v;
       lastGenerationId := lastGenerationId (localStorage s) |} s.

Definition set_lastGenerationId (v : option JsString) (s : App) : App :=
  set_localStorage
    {| appState := appState (localStorage s);
       selectedModel := selectedModel (localStorage s);
       lastGenerationId := v |} s.

Definition add_log (e : Effect) (s : App) : App := set_log (log s ++ [e]) s.

(** ** Tasks

    An asynchronous method runs until its first [await] and leaves a
    continuation behind; the continuation runs, on the state of that later
    moment, when the awaited promise settles.  A method that is called
    without [await] ([this.loadHistory()]) leaves its continuation behind in
    the same way and the caller goes on at once. *)

Unset Elimination Schemes.
Inductive Task : Type :=
  | AwaitFetch (request : Request)
      (k : FetchOutcome -> App -> App * list Task)
  | AwaitJson (k : JsonOutcome -> App -> App * list Task)
  | AwaitTimer (ms : Z) (k : App -> App * list Task).
Set Elimination Schemes.

(** A piece of handler code: it transforms the state and leaves tasks
    behind. *)
Definition Proc : Type := App -> App * list Task.

Definition ret : Proc := fun s => (s, []).

Definition act (f : App -> App) : Proc := fun s => (f s, []).

Definition seq (p q : Proc) : Proc := fun s =>
  let '(s1, t1) := p s in
  let '(s2, t2) := q s1 in
  (s2, t1 ++ t2).

Notation "p >> q" := (seq p q) (at level 90, right associativity).

(** [await fetch(request)] followed by [k]. *)
Definition fetch (request : Request) (k : FetchOutcome -> Proc) : Proc :=
  fun s => (add_log (Fetch request) s, [AwaitFetch request k]).

(** [await response.json()] followed by [k]. *)
Definition json (k : JsonOutcome -> Proc) : Proc :=
  fun s => (s, [AwaitJson k]).

(** [setTimeout(k, ms)]. *)
Definition setTimeout (k : Proc) (ms : Z) : Proc :=
  fun s => (s, [AwaitTimer ms k]).

(** ** Synchronous methods *)

(** [updateStatus], app.js 1352. *)
Definition updateStatus (status : JsString) (s : App) : App :=
  set_statusText status s.

(** [showToast], app.js 1360: the notification is recorded. *)
Definition showToast (message : JsString) (type : ToastType) (s : App) : App :=
  add_log (Toast message type) s.

(** [setGeneratingState], app.js 763. *)
Definition setGeneratingState (generating : bool) (s : App) : App :=
  let s := set_isGenerating generating s in
  if generating then set_generateBtn Generating s else s.

(** [getCurrentModel], app.js 1656. *)
Definition getCurrentModel (s : App) : JsString :=
  or_default (selectedModel (localStorage s)) (lit "qwen2.5:14b").

(** [setCurrentModel], app.js 1660. *)
Definition setCurrentModel (name : JsString) (s : App) : App :=
  add_log (SetItem KSelectedModel) (set_selectedModel (Some name) s).

(** [saveLastGeneration], app.js 1440. *)
Definition saveLastGeneration (s : App) : App :=
  let state :=
    {| st_generationId := currentGenerationId s;
       st_prompt := promptInput (elements s);
       st_outputBuffer := outputBuffer s;
       st_tokenCount := tokenCount s;
       st_isGenerating := isGenerating s;
       st_timestamp := clock s |} in
  add_log (SetItem KAppState) (set_appState (Some (Saved state)) s).

(** [clearSavedState], app.js 1507. *)
Definition clearSavedState (s : App) : App :=
  let s := add_log (RemoveItem KAppState) (set_appState None s) in
  add_log (RemoveItem KLastGenerationId) (set_lastGenerationId None s).

(** [generation.status] is one of the given texts. *)
Definition status_in (g : Generation) (l : list JsString) : bool :=
  existsb (is_str (g_status g)) l.

(** [updateUIState], app.js 833; [None] is the default argument [null]. *)
Definition updateUIState (generation : option Generation) (s : App) : App :=
  let shouldShowPrompt :=
    match generation with
    | None => true
    | Some g => status_in g [lit "processing"; lit "stopped"; lit "failed"]
    end in
  let s := set_promptSection shouldShowPrompt s in
  let s :=
    match generation with
    | Some g =>
        if status_in g [lit "completed"; lit "stopped"; lit "failed"]
        then set_generateBtn Regenerate s
        else set_generateBtn GenerateCode s
    | None => set_generateBtn GenerateCode s
    end in
  match generation with
  | Some g =>
      match g_prompt g with
      | Some p => if truthy p then set_promptInput p s else s
      | None => s
      end
  | None => set_promptInput [] s
  end.

(** A generation object with only its [status]. *)
Definition only_status (status : JsString) : Generation :=
  {| g_id := None; g_status := Some status; g_output := None;
     g_error := None; g_prompt := None |}.

(** [displayGeneration], app.js 475. *)
Definition displayGeneration (generation : Generation) (s : App) : App :=
  let s := set_currentGenerationId (g_id generation) s in
  let s := updateUIState (Some generation) s in
  let s :=
    match g_output generation with
    | Some o =>
        if truthy o && truthy (trim o) then set_outputBuffer o s else s
    | None => s
    end in
  let s :=
    updateStatus (lit "Loaded: " ++ interpolate (g_status generation)) s in
  saveLastGeneration s.

(** [startNewGeneration], app.js 859. *)
Definition startNewGeneration (s : App) : App :=
  let s := set_currentGenerationId None s in
  let s := set_outputBuffer [] s in
  let s := set_tokenCount 0 s in
  let s := set_promptInput [] s in
  let s := updateStatus (lit "Ready") s in
  let s := updateUIState None s in
  let s := set_promptSection true s in
  let s := clearSavedState s in
  showToast (lit "Ready for new generation") ToastInfo s.

(** [connectWebSocket], app.js 606: a new socket replaces [this.ws]; the
    socket [this.ws] referred to before is neither closed nor detached. *)
Definition connectWebSocket (generationId : option JsString) (s : App) : App :=
  let s' :=
    set_sockets
      (sockets s ++ [{| socketId := generationId; readyState := CONNECTING |}])
      s in
  set_ws (Some (length (sockets s))) s'.

(** [ws.close()]: an open or connecting socket starts closing. *)
Definition close (sock : Socket) : Socket :=
  match readyState sock with
  | CONNECTING | OPEN => {| socketId := socketId sock; readyState := CLOSING |}
  | CLOSING | CLOSED => sock
  end.

(** [this.ws.readyState], when [this.ws] is set and refers to a socket. *)
Definition ws_readyState (s : App) : option ReadyState :=
  match ws s with
  | Some n => readyState <$> sockets s !! n
  | None => None
  end.

(** [restoreNewGenerationState], app.js 1481. *)
Definition restoreNewGenerationState (state : SavedState) (s : App) : App :=
  let s := set_promptInput (st_prompt state) s in
  let s := set_outputBuffer (st_outputBuffer state) s in
  let s := set_tokenCount (st_tokenCount state) s in
  let s := updateUIState None s in
  updateStatus (lit "Ready") s.

(** [restorePromptOnly], app.js 1498. *)
Definition restorePromptOnly (state : SavedState) (s : App) : App :=
  let s := set_promptInput (st_prompt state) s in
  let s := updateUIState None s in
  updateStatus (lit "Ready") s.

(** The text sent on stop, app.js 717-722: the buffer, or its trimmed text
    with a closing fence when the buffer is not empty and its trimmed text
    does not end with one. *)
Definition stopOutput (buffer : JsString) : JsString :=
  if truthy buffer && negb (endsWith (trim buffer) (lit "```"))
  then trim buffer ++ LF ++ lit "```"
  else buffer.

(** The object [stoppedGeneration], app.js 743-747. *)
Definition stoppedGeneration (currentOutput : JsString) (s : App) : Generation :=
  {| g_id := None; g_status := Some (lit "stopped");
     g_output := Some currentOutput; g_error := None;
     g_prompt := Some (promptInput (elements s)) |}.

(** ** Asynchronous methods and handlers *)

(** Properties read from a decoded body. *)
Definition json_id (body : Json) : option JsString :=
  match body with
  | JCreated id => id
  | _ => None
  end.

Definition as_generation (body : Json) : Generation :=
  match body with
  | JGeneration g => g
  | _ => {| g_id := None; g_status := None; g_output := None;
            g_error := None; g_prompt := None |}
  end.

(** [loadHistory], app.js 318.  The history list is not modelled; the
    request and the notification on failure are. *)
Definition loadHistory_decoded (j : JsonOutcome) : Proc :=
  match j with
  | Decoded _ => ret
  | JsonRejected => act (showToast (lit "Failed to load history") ToastError)
  end.

Definition loadHistory_responded (o : FetchOutcome) : Proc :=
  match o with
  | Response _ _ => json loadHistory_decoded
  | FetchRejected => act (showToast (lit "Failed to load history") ToastError)
  end.

Definition loadHistory : Proc := fetch GetHistory loadHistory_responded.

(** [showModelModal] with [loadAvailableModels], app.js 1556 and 1576. *)
Definition showModelModal : Proc :=
  fetch GetModels (fun o =>
    match o with
    | Response _ _ =>
        json (fun j =>
          match j with
          | Decoded (JModels err (Some _)) =>
              if truthy_opt err
              then act (showToast (lit "Failed to load models") ToastError)
              else act (set_modelModal true)
          | _ => act (showToast (lit "Failed to load models") ToastError)
          end)
    | FetchRejected => act (showToast (lit "Failed to load models") ToastError)
    end).

(** [setModelInBackend], app.js 1714: failures are swallowed. *)
Definition setModelInBackend (name : JsString) : Proc :=
  fetch (PostModelSet name) (fun _ => ret).

(** [initializeModelSelection], app.js 1664. *)
Definition modelsFailed : Proc :=
  act (fun s =>
    showToast (lit "Failed to load models") ToastError
      (set_modelName (lit "Error loading models") s)).

Definition initializeModelSelection : Proc :=
  fetch GetModels (fun o =>
    match o with
    | Response _ _ =>
        json (fun j =>
          match j with
          | Decoded (JModels err (Some models)) =>
              if truthy_opt err then modelsFailed
              else
                match models with
                | [] =>
                    act (fun s =>
                      showToast
                        (lit "No models available. Please install models in Ollama.")
                        ToastWarning
                        (set_modelName (lit "No models available") s))
                | [only] =>
                    act (fun s =>
                      showToast (lit "Auto-selected model: " ++ only)
                        ToastSuccess
                        (set_modelName only (setCurrentModel only s)))
                    >> setModelInBackend only
                | _ =>
                    fun s =>
                      let currentModel := getCurrentModel s in
                      if bool_decide (currentModel ∈ models)
                      then (act (set_modelName currentModel)
                            >> setModelInBackend currentModel) s
                      else
                        act (fun s =>
                          showToast (lit "Please select a model to continue")
                            ToastWarning
                            (set_modelName (lit "Select a model") s)) s
                end
          | _ => modelsFailed
          end)
    | FetchRejected => modelsFailed
    end).

(** The test of app.js 552 on the current model. *)
Definition noModelSelected (currentModel : JsString) : bool :=
  negb (truthy currentModel)
  || str_eqb currentModel (lit "Select a model")
  || str_eqb currentModel (lit "No models available")
  || str_eqb currentModel (lit "Error loading models").

(** The [catch] block of [startGeneration], app.js 597-603. *)
Definition startFailed : Proc :=
  act (fun s =>
    let s := showToast (lit "Failed to start generation") ToastError s in
    let s := setGeneratingState false s in
    updateStatus (lit "Ready") s).

(** The statements after [connectWebSocket] in both branches of
    [startGeneration].  [connectWebSocket] has no [await] of its own, so
    awaiting it resumes before any other event is delivered. *)
Definition beginStreaming (id : option JsString) (s : App) : App :=
  let s := connectWebSocket id s in
  let s := set_outputBuffer [] s in
  let s := set_tokenCount 0 s in
  updateStatus (lit "Generating...") s.

(** [startGeneration] after [await response.json()], app.js 584-594. *)
Definition startGeneration_decoded (j : JsonOutcome) : Proc :=
  match j with
  | Decoded body =>
      act (fun s =>
        beginStreaming (json_id body)
          (set_currentGenerationId (json_id body) s))
  | JsonRejected => startFailed
  end.

(** [startGeneration] after [await fetch(.../generate)], app.js 578-584. *)
Definition startGeneration_responded (o : FetchOutcome) : Proc :=
  match o with
  | Response _ _ => json startGeneration_decoded
  | FetchRejected => startFailed
  end.

(** [startGeneration], app.js 543. *)
Definition startGeneration : Proc := fun s =>
  let prompt := trim (promptInput (elements s)) in
  if negb (truthy prompt)
  then act (showToast (lit "Please enter a prompt") ToastWarning) s
  else if noModelSelected (getCurrentModel s)
  then (act (showToast (lit "Please select a model before generating code")
               ToastError)
        >> showModelModal) s
  else
    let s := setGeneratingState true s in
    if truthy_opt (currentGenerationId s)
    then
      act (fun s =>
        beginStreaming (currentGenerationId s)
          (updateStatus (lit "Regenerating...") s)) s
    else
      (act (updateStatus (lit "Creating generation..."))
       >> fetch (PostGenerate prompt) startGeneration_responded) s.

(** [handleGenerationComplete], app.js 674. *)
Definition handleGenerationComplete : Proc :=
  act (setGeneratingState false)
  >> act (updateStatus (lit "Completed"))
  >> act (updateUIState (Some (only_status (lit "completed"))))
  >> loadHistory
  >> act saveLastGeneration
  >> act (showToast (lit "Generation completed") ToastSuccess).

(** [handleGenerationError], app.js 704. *)
Definition handleGenerationError (message : option JsString) (s : App) : App :=
  let s := setGeneratingState false s in
  let s := updateStatus (lit "Failed") s in
  let s := updateUIState (Some (only_status (lit "failed"))) s in
  showToast (lit "Generation failed: " ++ interpolate message) ToastError s.

(** [handleWebSocketMessage], app.js 637.  [tokenCount++] is the
    increment of a double, and [%] is the remainder of the truncated
    division. *)
Definition handleWebSocketMessage (message : Message) : Proc :=
  match message with
  | Token data =>
      act (fun s =>
        let s := set_outputBuffer (outputBuffer s ++ data) s in
        let s := set_tokenCount (increment (tokenCount s)) s in
        if Z.rem (tokenCount s) 10 =? 0 then saveLastGeneration s else s)
  | Progress tokens => act (set_tokenCount tokens)
  | Status status => act (updateStatus status)
  | MsgDone _ _ => handleGenerationComplete
  | MsgError message => act (handleGenerationError message)
  | Unknown => ret
  end.

(** [ws.onerror] and [ws.onclose], app.js 624 and 630. *)
Definition onerror (s : App) : App :=
  setGeneratingState false (showToast (lit "Connection error") ToastError s).

Definition onclose (s : App) : App :=
  updateStatus (lit "Ready") (setGeneratingState false s).

(** [if (this.ws) this.ws.close()]. *)
Definition closeWs (s : App) : App :=
  match ws s with
  | Some n => set_sockets (alter close n (sockets s)) s
  | None => s
  end.

(** [stopGeneration] after [await fetch(.../stop/<id>)], app.js 734-760. *)
Definition stopGeneration_responded (currentOutput : JsString)
    (o : FetchOutcome) : Proc :=
  match o with
  | Response _ _ =>
      act closeWs
      >> act (setGeneratingState false)
      >> act (updateStatus (lit "Stopped"))
      >> act (fun s =>
           updateUIState (Some (stoppedGeneration currentOutput s)) s)
      >> act (showToast (lit "Generation stopped") ToastInfo)
      >> loadHistory
      >> act saveLastGeneration
  | FetchRejected =>
      act (showToast (lit "Failed to stop generation") ToastError)
  end.

(** [stopGeneration], app.js 712. *)
Definition stopGeneration : Proc := fun s =>
  match currentGenerationId s with
  | Some id =>
      if truthy id then
        let currentOutput := stopOutput (outputBuffer s) in
        fetch (PostStop id currentOutput)
          (stopGeneration_responded currentOutput) s
      else ret s
  | None => ret s
  end.

(** The object [generation] of [markGenerationAsFailed],
    app.js 2022-2028. *)
Definition failedGeneration (errorMessage : JsString) (s : App) : Generation :=
  {| g_id := currentGenerationId s;
     g_status := Some (lit "failed");
     g_output := Some (outputBuffer s);
     g_error := Some errorMessage;
     g_prompt := Some (promptInput (elements s)) |}.

(** [markGenerationAsFailed] after [await fetch(.../fail)],
    app.js 2017-2043. *)
Definition markGenerationAsFailed_responded (errorMessage : JsString)
    (o : FetchOutcome) : Proc :=
  match o with
  | Response true _ =>
      act (fun s =>
        let s := setGeneratingState false s in
        let s := displayGeneration (failedGeneration errorMessage s) s in
        showToast (lit "Generation failed due to connection loss")
          ToastError s)
  | Response false _ => ret
  | FetchRejected =>
      act (fun s =>
        showToast (lit "Generation failed - please try again")
          ToastError (setGeneratingState false s))
  end.

(** [markGenerationAsFailed], app.js 2001. *)
Definition markGenerationAsFailed (errorMessage : JsString) : Proc := fun s =>
  match currentGenerationId s with
  | Some id =>
      if truthy id && isGenerating s then
        fetch (PostFail id errorMessage (outputBuffer s))
          (markGenerationAsFailed_responded errorMessage) s
      else ret s
  | None => ret s
  end.

(** [!this.ws || this.ws.readyState === WebSocket.CLOSED]. *)
Definition wsClosedOrMissing (s : App) : bool :=
  match ws s with
  | None => true
  | Some _ => bool_decide (ws_readyState s = Some CLOSED)
  end.

(** The [catch] block of [checkGenerationHealth], app.js 1990-1998. *)
Definition healthFailed : Proc := fun s =>
  if isGenerating s
  then markGenerationAsFailed
         (lit "Server connection lost - generation failed") s
  else ret s.

(** [checkGenerationHealth] after [await generationResponse.json()],
    app.js 1981-1988. *)
Definition checkGenerationHealth_decoded (j : JsonOutcome) : Proc :=
  match j with
  | Decoded body => fun s =>
      if is_str (g_status (as_generation body)) (lit "processing")
         && wsClosedOrMissing s
      then markGenerationAsFailed
             (lit "Connection lost - generation interrupted") s
      else ret s
  | JsonRejected => healthFailed
  end.

(** [checkGenerationHealth] after [await fetch(.../history/<id>)],
    app.js 1973-1981. *)
Definition checkGenerationHealth_fetched (o : FetchOutcome) : Proc :=
  match o with
  | Response true _ => json checkGenerationHealth_decoded
  | _ => healthFailed
  end.

(** [checkGenerationHealth] after [await fetch(.../health)],
    app.js 1964-1973. *)
Definition checkGenerationHealth_probed (o : FetchOutcome) : Proc :=
  match o with
  | Response true _ => fun s =>
      fetch (getHistoryItem (currentGenerationId s))
        checkGenerationHealth_fetched s
  | _ => healthFailed
  end.

(** [checkGenerationHealth], app.js 1957. *)
Definition checkGenerationHealth : Proc := fun s =>
  if negb (truthy_opt (currentGenerationId s)) || negb (isGenerating s)
  then ret s
  else fetch GetHealth checkGenerationHealth_probed s.

(** The interval callback of [startConnectionHealthChecker], app.js 1948. *)
Definition healthTick : Proc := fun s =>
  if isGenerating s then checkGenerationHealth s else ret s.

(** [reconnectWebSocket], app.js 1914. *)
Definition reconnectFailed : Proc :=
  act (fun s =>
    showToast (lit "Generation connection lost") ToastError
      (setGeneratingState false s)).

Definition reconnectWebSocket_decoded (j : JsonOutcome) : Proc :=
  match j with
  | Decoded body =>
      if is_str (g_status (as_generation body)) (lit "processing")
      then act (fun s => connectWebSocket (currentGenerationId s) s)
      else
        act (fun s =>
          displayGeneration (as_generation body)
            (setGeneratingState false s))
  | JsonRejected => reconnectFailed
  end.

Definition reconnectWebSocket_responded (o : FetchOutcome) : Proc :=
  match o with
  | Response true _ => json reconnectWebSocket_decoded
  | _ => reconnectFailed
  end.

Definition reconnectWebSocket : Proc := fun s =>
  if negb (truthy_opt (currentGenerationId s)) || negb (isGenerating s)
  then ret s
  else
    fetch (getHistoryItem (currentGenerationId s))
      reconnectWebSocket_responded s.

(** The [visibilitychange] listener when the page becomes visible,
    app.js 221. *)
Definition onVisible : Proc := fun s =>
  if isGenerating s then
    match ws_readyState s with
    | Some OPEN => ret s
    | Some CLOSED | Some CLOSING => reconnectWebSocket s
    | Some CONNECTING =>
        setTimeout
          (fun s =>
             if bool_decide (ws_readyState s = Some CLOSED)
             then reconnectWebSocket s else ret s)
          2000 s
    | None => ret s
    end
  else ret s.

(** [loadGeneration], app.js 441. *)
Definition loadGenerationFailed : Proc :=
  act (fun s =>
    startNewGeneration
      (clearSavedState
         (showToast (lit "Failed to load generation") ToastError s))).

Definition loadGeneration_decoded (id : JsString) (j : JsonOutcome) : Proc :=
  match j with
  | Decoded body =>
      act (fun s =>
        showToast (lit "Generation loaded") ToastSuccess
          (displayGeneration (as_generation body)
             (set_currentGenerationId (Some id) s)))
  | JsonRejected => loadGenerationFailed
  end.

Definition loadGeneration_responded (id : JsString) (o : FetchOutcome) : Proc :=
  match o with
  | Response true _ => json (loadGeneration_decoded id)
  | Response false status =>
      if status =? 404
      then act (fun s => startNewGeneration (clearSavedState s))
      else loadGenerationFailed
  | FetchRejected => loadGenerationFailed
  end.

Definition loadGeneration (id : JsString) : Proc :=
  fetch (GetHistoryItem id) (loadGeneration_responded id).

(** [loadLastGeneration], app.js 1452. *)
Definition loadLastGeneration : Proc := fun s =>
  match appState (localStorage s) with
  | None | Some EmptyText => ret s
  | Some Undecodable => act clearSavedState s
  | Some (Saved state) =>
      let isRecent := clock s - st_timestamp state <? 24 * 60 * 60 * 1000 in
      if isRecent && truthy_opt (st_generationId state)
      then loadGeneration (default [] (st_generationId state)) s
      else if isRecent && truthy (st_prompt state)
              && truthy (st_outputBuffer state)
      then act (restoreNewGenerationState state) s
      else if isRecent && truthy (st_prompt state)
      then act (restorePromptOnly state) s
      else act clearSavedState s
  end.

(** ** The event loop

    The page runs one handler at a time to completion.  [pending] holds
    the continuations that wait for a promise or a timer. *)

Record World : Type := {
  app : App;
  pending : list Task
}.

(** Run a handler. *)
Definition handle (p : Proc) (w : World) : World :=
  let '(s, new) := p (app w) in
  {| app := s; pending := pending w ++ new |}.

(** Resume the continuation at position [i] of [pending]. *)
Definition resume (i : nat) (p : Proc) (w : World) : World :=
  let '(s, new) := p (app w) in
  {| app := s; pending := delete i (pending w) ++ new |}.

Inductive Event : Type :=
  | ClickGenerate
  | ClickStop
  | ClickNewGeneration
  | TypePrompt (text : JsString)
  | ClickHistoryItem (id : JsString)
  | RestoreLast
  | InitModels
  | HealthTick
  | BecameVisible
  | ClockAt (now : Z)
  | FetchSettled (i : nat) (o : FetchOutcome)
  | JsonSettled (i : nat) (o : JsonOutcome)
  | TimerFired (i : nat)
  | SocketOpened (n : nat)
  | SocketMessage (n : nat) (message : Message)
  | SocketError (n : nat)
  | SocketClosed (n : nat).

Definition set_readyState (n : nat) (r : ReadyState) (s : App) : App :=
  set_sockets
    (alter (fun sock => {| socketId := socketId sock; readyState := r |}) n
       (sockets s)) s.

(** One event; [None] when the event cannot happen in this world (no such
    continuation or socket, or a socket in the wrong state). *)
Definition step (e : Event) (w : World) : option World :=
  match e with
  | ClickGenerate => Some (handle startGeneration w)
  | ClickStop => Some (handle stopGeneration w)
  | ClickNewGeneration => Some (handle (act startNewGeneration) w)
  | TypePrompt text =>
      Some (handle (act (fun s => saveLastGeneration (set_promptInput text s))) w)
  | ClickHistoryItem id => Some (handle (loadGeneration id) w)
  | RestoreLast => Some (handle loadLastGeneration w)
  | InitModels => Some (handle initializeModelSelection w)
  | HealthTick => Some (handle healthTick w)
  | BecameVisible => Some (handle onVisible w)
  | ClockAt now => Some (handle (act (set_clock now)) w)
  | FetchSettled i o =>
      match pending w !! i with
      | Some (AwaitFetch _ k) => Some (resume i (k o) w)
      | _ => None
      end
  | JsonSettled i o =>
      match pending w !! i with
      | Some (AwaitJson k) => Some (resume i (k o) w)
      | _ => None
      end
  | TimerFired i =>
      match pending w !! i with
      | Some (AwaitTimer _ k) => Some (resume i k w)
      | _ => None
      end
  | SocketOpened n =>
      match sockets (app w) !! n with
      | Some {| readyState := CONNECTING |} =>
          Some (handle (act (set_readyState n OPEN)) w)
      | _ => None
      end
  | SocketMessage n message =>
      match sockets (app w) !! n with
      | Some {| readyState := OPEN |} =>
          Some (handle (handleWebSocketMessage message) w)
      | _ => None
      end
  | SocketError n =>
      match sockets (app w) !! n with
      | Some {| readyState := CLOSED |} | None => None
      | Some _ => Some (handle (act onerror) w)
      end
  | SocketClosed n =>
      match sockets (app w) !! n with
      | Some {| readyState := CLOSED |} | None => None
      | Some _ =>
          Some (handle (act (fun s => onclose (set_readyState n CLOSED s))) w)
      end
  end.

(** A sequence of events, in order. *)
Fixpoint run (es : list Event) (w : World) : option World :=
  match es with
  | [] => Some w
  | e :: es' =>
      match step e w with
      | Some w' => run es' w'
      | None => None
      end
  end.

(** The controller as its constructor leaves it (app.js 3-11), on a page
    and a storage in a given state. *)
Definition constructor (page : Elements) (store : Storage) (now : Z) : App :=
  {| ws := None; currentGenerationId := None; isGenerating := false;
     outputBuffer := []; tokenCount := 0; elements := page;
     localStorage := store; sockets := []; log := []; clock := now |}.

(** A page for the scenarios below: empty prompt, prompt section shown,
    button reading "Generate Code". *)
Definition blankPage : Elements :=
  {| promptInput := []; statusText := lit "Ready"; promptSection := true;
     generateBtn := GenerateCode; modelName := []; modelModal := false |}.

Definition emptyStorage : Storage :=
  {| appState := None; selectedModel := None; lastGenerationId := None |}.

Definition boot (page : Elements) (store : Storage) (now : Z) : World :=
  {| app := constructor page store now; pending := [] |}.

(** ** Observations *)

(** The messages of a channel delivered to the controller, in order. *)
Definition deliver (messages : list Message) (s : App) : App :=
  fold_left (fun s m => fst (handleWebSocketMessage m s)) messages s.

(** The payloads of the token events among the messages, in order. *)
Definition tokensOf (messages : list Message) : list JsString :=
  flat_map (fun m =>
    match m with
    | Token data => [data]
    | _ => []
    end) messages.

Definition isProgress (m : Message) : bool :=
  match m with
  | Progress _ => true
  | _ => false
  end.

(** What a handler added to the log. *)
Definition newEffects (before after : App) : list Effect :=
  drop (length (log before)) (log after).

(** The outputs transmitted by stop requests, in order. *)
Definition stopOutputs (l : list Effect) : list JsString :=
  flat_map (fun e =>
    match e with
    | Fetch (PostStop _ output) => [output]
    | _ => []
    end) l.

(** The session as the controller holds and shows it: everything but the
    storage, the log and the clock. *)
Definition session (s : App) :=
  (ws s, currentGenerationId s, isGenerating s, outputBuffer s,
   tokenCount s, elements s, sockets s).

(** A continuation that, whenever and however it is resumed, leaves the
    generating flag, [this.ws] and the sockets as they are, and so do the
    continuations it leaves behind. *)
Definition keepsChannel (s s' : App) : Prop :=
  isGenerating s' = isGenerating s /\ ws s' = ws s /\ sockets s' = sockets s.

Unset Elimination Schemes.
Inductive Passive : Task -> Prop :=
  | Passive_fetch request k :
      (forall o s, keepsChannel s (fst (k o s))
                   /\ Forall Passive (snd (k o s))) ->
      Passive (AwaitFetch request k)
  | Passive_json k :
      (forall o s, keepsChannel s (fst (k o s))
                   /\ Forall Passive (snd (k o s))) ->
      Passive (AwaitJson k)
  | Passive_timer ms k :
      (forall s, keepsChannel s (fst (k s)) /\ Forall Passive (snd (k s))) ->
      Passive (AwaitTimer ms k).
Set Elimination Schemes.

(** A snapshot with its [isGenerating] property replaced. *)
Definition withFlag (b : bool) (state : SavedState) : SavedState :=
  {| st_generationId := st_generationId state; st_prompt := st_prompt state;
     st_outputBuffer := st_outputBuffer state;
     st_tokenCount := st_tokenCount state; st_isGenerating := b;
     st_timestamp := st_timestamp state |}.


(** What the controller shows of itself after a sequence of events. *)
Definition after {A : Type} (events : list Event) (w : World)
    (f : App -> A) : option A :=
  (fun w' => f (app w')) <$> run events w.

(** ** Scenarios *)

(** A page whose prompt holds [prompt]. *)
Definition pageWith (prompt : JsString) : Elements :=
  {| promptInput := prompt; statusText := lit "Ready"; promptSection := true;
     generateBtn := GenerateCode; modelName := []; modelModal := false |}.

(** A session that is flagged as generating for the job [g1] while the
    socket it refers to is closed. *)
Definition stuckSession : App :=
  {| ws := Some 0%nat; currentGenerationId := Some (lit "g1");
     isGenerating := true; outputBuffer := lit "def f():"; tokenCount := 3;
     elements := pageWith (lit "write f"); localStorage := emptyStorage;
     sockets := [{| socketId := Some (lit "g1"); readyState := CLOSED |}];
     log := []; clock := 0 |}.

(** A job that the server reports as still processing. *)
Definition processingJob : Generation :=
  {| g_id := Some (lit "g1"); g_status := Some (lit "processing");
     g_output := Some (lit "def f():"); g_error := None;
     g_prompt := Some (lit "write f") |}.

(** A session is started and the job [g1] streams one token on the
    socket 0. *)
Definition streamingTrace : list Event :=
  [ClickGenerate; FetchSettled 0 (Response true 200);
   JsonSettled 0 (Decoded (JCreated (Some (lit "g1"))));
   SocketOpened 0; SocketMessage 0 (Token (lit "x = 1"))].

(** ... and the job completes on that socket. *)
Definition completedTrace : list Event :=
  streamingTrace ++ [SocketMessage 0 (MsgDone None None)].


(** The status the controller shows. *)
Definition shownStatus (s : App) : JsString * bool * bool :=
  (statusText (elements s), promptSection (elements s), isGenerating s).

(** A continuation that, whenever and however it is resumed, creates no
    socket and leaves [this.ws] as it is, and so do the continuations it
    leaves behind. *)
Definition keepsSockets (s s' : App) : Prop :=
  ws s' = ws s /\ sockets s' = sockets s.

Unset Elimination Schemes.
Inductive Socketless : Task -> Prop :=
  | Socketless_fetch request k :
      (forall o s, keepsSockets s (fst (k o s))
                   /\ Forall Socketless (snd (k o s))) ->
      Socketless (AwaitFetch request k)
  | Socketless_json k :
      (forall o s, keepsSockets s (fst (k o s))
                   /\ Forall Socketless (snd (k o s))) ->
      Socketless (AwaitJson k)
  | Socketless_timer ms k :
      (forall s, keepsSockets s (fst (k s))
                 /\ Forall Socketless (snd (k s))) ->
      Socketless (AwaitTimer ms k).
Set Elimination Schemes.

(** ** Code blocks and fences *)

(** [ensureCompleteCodeBlock], app.js 1107. *)
Definition ensureCompleteCodeBlock (content : JsString) : JsString :=
  let processed := trim content in
  if startsWith processed (lit "```") && negb (endsWith processed (lit "```"))
  then processed ++ LF ++ lit "```"
  else processed.

(** [\w] of a regular expression without the [u] flag: ASCII letters,
    digits and the underscore. *)
Definition isWordChar (c : N) : bool :=
  ((48 <=? c) && (c <=? 57) || (65 <=? c) && (c <=? 90) || (c =? 95)
   || (97 <=? c) && (c <=? 122))%N.

Fixpoint dropWhile (p : N -> bool) (s : JsString) : JsString :=
  match s with
  | [] => []
  | c :: r => if p c then dropWhile p r else s
  end.

(** [s.replace(/^```\w*\s*\n?/i, '')]: at the start of the text, a fence,
    the longest run of word characters and the longest run of white space
    after it are removed.  ([\s] is the white space of [trim]; after the
    greedy [\s*] the optional line feed has nothing left to match.) *)
Definition removeOpeningFence (s : JsString) : JsString :=
  if startsWith s (lit "```")
  then dropWhile isWhiteSpace (dropWhile isWordChar (drop 3 s))
  else s.

(** [s.replace(/\n?```\s*$/i, '')]: the fence that only white space
    separates from the end of the text is removed with that white space,
    and with the line feed right before the fence when there is one. *)
Definition removeClosingFence (s : JsString) : JsString :=
  let t := trimEnd s in
  if endsWith t (lit "```") then
    let t' := take (length t - 3) t in
    if endsWith t' LF then take (length t' - 1) t' else t'
  else s.

(** [cleanMarkdownStreaming], app.js 1095. *)
Definition cleanMarkdownStreaming (content : JsString) : JsString :=
  trim (removeClosingFence (removeOpeningFence (trim content))).

(** [cleanMarkdownForOutput], app.js 1223. *)
Definition cleanMarkdownForOutput (content : JsString) : JsString :=
  if truthy content
  then trim (removeClosingFence (removeOpeningFence (trim content)))
  else [].

(** The [pagehide] listener, app.js 245: [navigator.sendBeacon] posts the
    stop request and leaves no continuation. *)
Definition onPageHide (s : App) : App :=
  match currentGenerationId s with
  | Some id =>
      if isGenerating s && truthy id
      then add_log (Fetch (PostStop id (outputBuffer s))) s
      else s
  | None => s
  end.

(** ** Repairing stuck records at startup *)

(** [String(n)] for a count. *)
Fixpoint digits (fuel : nat) (n : N) (acc : JsString) : JsString :=
  match fuel with
  | O => acc
  | S fuel' =>
      let acc' := (48 + n mod 10)%N :: acc in
      if (n / 10 =? 0)%N then acc' else digits fuel' (n / 10)%N acc'
  end.

Definition decimal (n : nat) : JsString := digits (S n) (N.of_nat n) [].

(** What the server does for one stuck record: the status request is
    rejected, or it is answered with its [ok] flag, the decoding of its
    body and, for a body that says "processing", the settlement of the
    failure report. *)
Inductive RepairAnswer : Type :=
  | StatusRejected
  | StatusResponse (ok : bool) (body : JsonOutcome) (fail : FetchOutcome).

(** [generation.status = 'failed'; generation.error = error]. *)
Definition markFailed (error : JsString) (g : Generation) : Generation :=
  {| g_id := g_id g; g_status := Some (lit "failed");
     g_output := g_output g; g_error := Some error;
     g_prompt := g_prompt g |}.

Definition isProcessing (g : Generation) : bool :=
  is_str (g_status g) (lit "processing").

(** The body of the loop of [checkAndFixStuckGenerations],
    app.js 2055-2084, for one record and its answer: the record afterwards
    and the requests sent. *)
Definition fixStuckGeneration (generation : Generation) (a : RepairAnswer)
    : Generation * list Effect :=
  let id := interpolate (g_id generation) in
  let unreachable :=
    markFailed (lit "Generation stuck - backend unreachable") generation in
  match a with
  | StatusRejected => (unreachable, [Fetch (GetHistoryItem id)])
  | StatusResponse false _ _ => (generation, [Fetch (GetHistoryItem id)])
  | StatusResponse true JsonRejected _ =>
      (unreachable, [Fetch (GetHistoryItem id)])
  | StatusResponse true (Decoded body) fail =>
      if isProcessing (as_generation body) then
        let report :=
          Fetch (PostFail id (lit "Generation stuck due to connection loss")
                   (or_default (g_output generation) [])) in
        match fail with
        | Response _ _ =>
            (markFailed (lit "Generation stuck due to connection loss")
               generation,
             [Fetch (GetHistoryItem id); report])
        | FetchRejected => (unreachable, [Fetch (GetHistoryItem id); report])
        end
      else (generation, [Fetch (GetHistoryItem id)])
  end.

(** The loop over the records of the history that are processing, in
    order; [answer k] is what the server does for the [k]-th of them.  The
    records are changed where they are. *)
Fixpoint fixStuckGenerations (answer : nat -> RepairAnswer) (k : nat)
    (history : list Generation) : list Generation * list Effect :=
  match history with
  | [] => ([], [])
  | g :: rest =>
      if isProcessing g then
        let '(g', sent) := fixStuckGeneration g (answer k) in
        let '(rest', sent') := fixStuckGenerations answer (S k) rest in
        (g' :: rest', sent ++ sent')
      else
        let '(rest', sent') := fixStuckGenerations answer k rest in
        (g :: rest', sent')
  end.

(** [checkAndFixStuckGenerations], app.js 2046, run with no other handler
    in between: the history afterwards and what was sent and notified. *)
Definition checkAndFixStuckGenerations (answer : nat -> RepairAnswer)
    (history : list Generation) : list Generation * list Effect :=
  let stuckGenerations := filter (fun g => isProcessing g = true) history in
  match stuckGenerations with
  | [] => (history, [])
  | _ :: _ =>
      let '(history', sent) := fixStuckGenerations answer 0 history in
      (history',
       sent ++ [Toast (lit "Fixed " ++ decimal (length stuckGenerations)
                       ++ lit " stuck generation(s)") ToastInfo])
  end.

(** The answers after which a record is left as it is: an error status,
    or a body that does not say "processing". *)
Definition leavesAlone (a : RepairAnswer) : bool :=
  match a with
  | StatusRejected => false
  | StatusResponse false _ _ => true
  | StatusResponse true JsonRejected _ => false
  | StatusResponse true (Decoded body) _ =>
      negb (isProcessing (as_generation body))
  end.

(** ** Parsing the output into blocks *)

(** The blocks of [parseContent]: [{type: 'text', content}] and
    [{type: 'code', language, content}]. *)
Inductive Block : Type :=
  | TextBlock (content : JsString)
  | CodeBlock (language content : JsString).

Fixpoint takeWhile (p : N -> bool) (s : JsString) : JsString :=
  match s with
  | [] => []
  | c :: r => if p c then c :: takeWhile p r else []
  end.

(** The lazy [[\s\S]*?] followed by a fence: the text up to the first
    fence of [s], and the text after that fence. *)
Fixpoint splitAtFence (s : JsString) : option (JsString * JsString) :=
  if startsWith s (lit "```") then Some ([], drop 3 s)
  else
    match s with
    | [] => None
    | c :: r =>
        match splitAtFence r with
        | Some (content, rest) => Some (c :: content, rest)
        | None => None
        end
    end.

(** A match of [/```(\w+)?\n([\s\S]*?)```/] that begins at the first code
    unit of [s]: the language (the longest run of word characters after the
    fence, which a line feed must follow), the content up to the next
    fence, and the text after the match. *)
Definition matchCodeBlock (s : JsString)
    : option (JsString * JsString * JsString) :=
  if startsWith s (lit "```") then
    match dropWhile isWordChar (drop 3 s) with
    | 10%N :: body =>
        match splitAtFence body with
        | Some (content, rest) =>
            Some (takeWhile isWordChar (drop 3 s), content, rest)
        | None => None
        end
    | _ => None
    end
  else None.

(** [codeBlockRegex.exec(content)] on what is left of the content after
    [lastIndex]: the text before the leftmost match, and the match. *)
Fixpoint exec (s : JsString)
    : option (JsString * (JsString * JsString * JsString)) :=
  match matchCodeBlock s with
  | Some m => Some ([], m)
  | None =>
      match s with
      | [] => None
      | c :: r =>
          match exec r with
          | Some (before, m) => Some (c :: before, m)
          | None => None
          end
      end
  end.

(** [const text = ....trim(); if (text) blocks.push({type: 'text', ...})]. *)
Definition textBlock (text : JsString) : list Block :=
  if truthy (trim text) then [TextBlock (trim text)] else [].

(** The loop of [parseContent], app.js 1013-1038, on the content after
    [lastIndex]; every match consumes at least a fence, so the length of
    the content bounds the number of rounds. *)
Fixpoint parseFrom (fuel : nat) (s : JsString) : list Block :=
  match fuel with
  | O => []
  | S fuel' =>
      match exec s with
      | Some (before, (language, content, rest)) =>
          textBlock before
          ++ CodeBlock language (trim content) :: parseFrom fuel' rest
      | None => textBlock s
      end
  end.

(** [parseContent], app.js 1007. *)
Definition parseContent (content : JsString) : list Block :=
  parseFrom (S (length content)) content.

(** The blocks that [renderOutput] shows, app.js 986-987; it gets there
    when the controller is not generating and the content is not blank. *)
Definition renderOutput_blocks (content : JsString) : list Block :=
  parseContent (ensureCompleteCodeBlock content).

(** What holds of every block that is shown. *)
Definition wellFormed (b : Block) : Prop :=
  match b with
  | TextBlock content => content <> [] /\ trim content = content
  | CodeBlock language content =>
      forallb isWordChar language = true /\ trim content = content
  end.
(** * Properties *)

(** ** Streaming *)

Lemma saveLastGeneration_buffer s :
  outputBuffer (saveLastGeneration s) = outputBuffer s
  /\ tokenCount (saveLastGeneration s) = tokenCount s.
Proof. split; reflexivity. Qed.

(** The counter: below [2 ^ 53] the increment adds one, at [2 ^ 53] it
    changes nothing. *)
Lemma increment_exact x : - 2 ^ 53 <= x < 2 ^ 53 -> increment x = x + 1.
Proof.
  intros H. unfold increment, nearestDouble. cbv zeta.
  destruct (Z.eq_dec (x + 1) (2 ^ 53)) as [E | E].
  - rewrite E. reflexivity.
  - assert (L : Z.log2 (Z.abs (x + 1)) - 52 <= 0).
    { destruct (Z.eq_dec (Z.abs (x + 1)) 0) as [Z0 | Z0].
      - rewrite Z0. cbn. lia.
      - assert (B : Z.log2 (Z.abs (x + 1)) < 53).
        { apply Z.log2_lt_pow2; lia. }
        lia. }
    apply Z.leb_le in L. rewrite L. reflexivity.
Qed.

Lemma increment_limit : increment (2 ^ 53) = 2 ^ 53.
Proof. reflexivity. Qed.

Lemma iter_increment k : forall x,
  - 2 ^ 53 <= x -> x + Z.of_nat k <= 2 ^ 53 ->
  Nat.iter k increment x = x + Z.of_nat k.
Proof.
  induction k as [|k IH]; intros x Hl Hu.
  - cbn. lia.
  - rewrite Nat.iter_succ, IH by lia. rewrite increment_exact by lia. lia.
Qed.

Lemma iter_increment_limit k : Nat.iter k increment (2 ^ 53) = 2 ^ 53.
Proof.
  induction k as [|k IH]; [reflexivity|].
  rewrite Nat.iter_succ, IH. exact increment_limit.
Qed.

Lemma iter_increment_zero k :
  Nat.iter k increment 0 = Z.min (Z.of_nat k) (2 ^ 53).
Proof.
  destruct (Z_le_gt_dec (Z.of_nat k) (2 ^ 53)) as [H | H].
  - rewrite iter_increment by lia. lia.
  - set (m := Z.to_nat (2 ^ 53)).
    assert (Hm : Z.of_nat m = 2 ^ 53) by (subst m; apply Z2Nat.id; lia).
    assert (E : forall d, Nat.iter (d + m) increment 0 = 2 ^ 53).
    { intros d. rewrite Nat.iter_add.
      rewrite (iter_increment m 0) by lia.
      rewrite Z.add_0_l, Hm. apply iter_increment_limit. }
    specialize (E (k - m)%nat).
    replace (k - m + m)%nat with k in E by lia.
    rewrite E. lia.
Qed.

Lemma token_step data s :
  let s' := fst (handleWebSocketMessage (Token data) s) in
  outputBuffer s' = outputBuffer s ++ data
  /\ tokenCount s' = increment (tokenCount s).
Proof.
  cbn -[Z.rem].
  destruct (Z.rem _ 10 =? 0); split; reflexivity.
Qed.

Lemma deliver_tokens ts : forall s,
  outputBuffer (deliver (map Token ts) s) = outputBuffer s ++ concat ts
  /\ tokenCount (deliver (map Token ts) s)
     = Nat.iter (length ts) increment (tokenCount s).
Proof.
  induction ts as [|t ts IH]; intros s.
  - cbn. rewrite app_nil_r. split; reflexivity.
  - change (deliver (map Token (t :: ts)) s)
      with (deliver (map Token ts) (fst (handleWebSocketMessage (Token t) s))).
    destruct (IH (fst (handleWebSocketMessage (Token t) s))) as [Hb Hc].
    destruct (token_step t s) as [Hb1 Hc1].
    cbv zeta in Hb1, Hc1.
    rewrite Hb, Hc, Hb1, Hc1. cbn [concat length].
    rewrite <- app_assoc, Nat.iter_succ_r. split; reflexivity.
Qed.

(** A message that is neither a token nor a progress event leaves the
    buffer and the count as they are. *)
Lemma other_message_step m s :
  tokensOf [m] = [] -> isProgress m = false ->
  outputBuffer (fst (handleWebSocketMessage m s)) = outputBuffer s
  /\ tokenCount (fst (handleWebSocketMessage m s)) = tokenCount s.
Proof.
  intros Ht Hp. destruct m as [data | tokens | status | l f | e |];
    try discriminate.
  - split; reflexivity.
  - destruct s. split; reflexivity.
  - destruct s. split; reflexivity.
  - split; reflexivity.
Qed.

Lemma deliver_messages ms : forall s,
  forallb (fun m => negb (isProgress m)) ms = true ->
  outputBuffer (deliver ms s) = outputBuffer s ++ concat (tokensOf ms)
  /\ tokenCount (deliver ms s)
     = Nat.iter (length (tokensOf ms)) increment (tokenCount s).
Proof.
  induction ms as [|m ms IH]; intros s H.
  - cbn. rewrite app_nil_r. split; reflexivity.
  - cbn [forallb] in H. apply andb_prop in H as [Hm H].
    apply negb_true_iff in Hm.
    change (deliver (m :: ms) s)
      with (deliver ms (fst (handleWebSocketMessage m s))).
    destruct (IH (fst (handleWebSocketMessage m s)) H) as [Hb Hc].
    rewrite Hb, Hc.
    destruct m as [t | tokens | status | l f | e |]; try discriminate Hm.
    + destruct (token_step t s) as [B C]. cbv zeta in B, C.
      rewrite B, C.
      change (tokensOf (Token t :: ms)) with (t :: tokensOf ms).
      cbn [concat length].
      rewrite <- app_assoc, Nat.iter_succ_r. split; reflexivity.
    + destruct (other_message_step (Status status) s eq_refl eq_refl)
        as [B C].
      rewrite B, C. split; reflexivity.
    + destruct (other_message_step (MsgDone l f) s eq_refl eq_refl) as [B C].
      rewrite B, C. split; reflexivity.
    + destruct (other_message_step (MsgError e) s eq_refl eq_refl) as [B C].
      rewrite B, C. split; reflexivity.
    + split; reflexivity.
Qed.

(** C5 (as amended).  Buffer monotonicity: the events of a channel, among
    them no [progress] event, are delivered to a session whose buffer is
    empty and whose count is zero, and no other handler runs in between.
    With [t1..tn] the payloads of the [token] events among them, in arrival
    order, [outputBuffer] is [t1 ++ ... ++ tn] afterwards and [tokenCount]
    is [n], as long as [n] is at most [2 ^ 53], where the counter stops:
    it is the smaller of [n] and [2 ^ 53]. *)
Theorem token_stream_concat (s : App) (ms : list Message) :
  outputBuffer s = [] ->
  tokenCount s = 0 ->
  forallb (fun m => negb (isProgress m)) ms = true ->
  let n := Z.of_nat (length (tokensOf ms)) in
  outputBuffer (deliver ms s) = concat (tokensOf ms)
  /\ tokenCount (deliver ms s) = Z.min n (2 ^ 53).
Proof.
  intros Hb Hc Hp.
  destruct (deliver_messages ms s Hp) as [H1 H2].
  rewrite H1, H2, Hb, Hc. split; [reflexivity | apply iter_increment_zero].
Qed.

Lemma token_stream_concat_witness :
  let s := constructor blankPage emptyStorage 0 in
  let ms :=
    [Token (lit "de"); Status (lit "working"); Token (lit "f ");
     Token (lit "x")] in
  outputBuffer (deliver ms s) = lit "def x"
  /\ tokenCount (deliver ms s) = 3.
Proof.
  exact (token_stream_concat (constructor blankPage emptyStorage 0)
           [Token (lit "de"); Status (lit "working"); Token (lit "f ");
            Token (lit "x")] eq_refl eq_refl eq_refl).
Defined.

(** C5 (the claim as it was, with another handler between two tokens).
    A stream delivers [a]; the user opens a record of the history whose
    output is [OLD], and the record is displayed while the channel stays
    open; the stream delivers [b].  No [progress] event has arrived, the
    count is 2, and the buffer is [OLDb], not [ab]. *)
Theorem history_load_between_tokens :
  after
    [ClickGenerate; FetchSettled 0 (Response true 200);
     JsonSettled 0 (Decoded (JCreated (Some (lit "g1"))));
     SocketOpened 0;
     SocketMessage 0 (Token (lit "a"));
     ClickHistoryItem (lit "old"); FetchSettled 0 (Response true 200);
     JsonSettled 0
       (Decoded (JGeneration
          {| g_id := Some (lit "old"); g_status := Some (lit "completed");
             g_output := Some (lit "OLD"); g_error := None;
             g_prompt := Some (lit "earlier") |}));
     SocketMessage 0 (Token (lit "b"))]
    (boot (pageWith (lit "letters")) emptyStorage 0)
    (fun s => (outputBuffer s, tokenCount s, isGenerating s))
  = Some (lit "OLDb", 2, true).
Proof. vm_compute. reflexivity. Qed.

(** A stream of more than [2 ^ 53] tokens: the count stops at [2 ^ 53]. *)
Lemma tokensOf_repeat t k : tokensOf (repeat (Token t) k) = repeat t k.
Proof.
  induction k as [|k IH]; [reflexivity|]. cbn [repeat].
  change (tokensOf (Token t :: repeat (Token t) k))
    with (t :: tokensOf (repeat (Token t) k)).
  rewrite IH. reflexivity.
Qed.

Lemma no_progress_repeat t k :
  forallb (fun m => negb (isProgress m)) (repeat (Token t) k) = true.
Proof.
  induction k as [|k IH]; [reflexivity|].
  cbn [repeat forallb]. rewrite IH. reflexivity.
Qed.

Lemma count_stops_at_limit (s : App) (t : JsString) (k : nat) :
  tokenCount s = 0 ->
  tokenCount (deliver (repeat (Token t) k) s) = Z.min (Z.of_nat k) (2 ^ 53).
Proof.
  intros Hc.
  destruct (deliver_messages (repeat (Token t) k) s (no_progress_repeat t k))
    as [_ C].
  rewrite C, Hc, tokensOf_repeat, repeat_length. apply iter_increment_zero.
Qed.

Lemma stream_longer_than_limit :
  tokenCount
    (deliver (repeat (Token []) (Z.to_nat (2 ^ 53 + 1)))
       (constructor blankPage emptyStorage 0))
  = 2 ^ 53.
Proof.
  rewrite count_stops_at_limit by reflexivity.
  rewrite Z2Nat.id by lia. lia.
Qed.

Lemma newEffects_same s s' : log s' = log s -> newEffects s s' = [].
Proof. intros H. unfold newEffects. rewrite H. apply drop_all. Qed.

Lemma newEffects_app s s' l : log s' = log s ++ l -> newEffects s s' = l.
Proof. intros H. unfold newEffects. rewrite H. apply drop_app_length. Qed.



(** At a count of [2 ^ 53], which a progress event can store, a token
    event appends its text and leaves the count where it is. *)
Lemma token_at_limit (s : App) (data : JsString) :
  let s' := deliver [Progress (2 ^ 53); Token data] s in
  outputBuffer s' = outputBuffer s ++ data
  /\ tokenCount (deliver [Progress (2 ^ 53)] s) = 2 ^ 53
  /\ tokenCount s' = 2 ^ 53.
Proof.
  cbv zeta. unfold deliver. cbn [fold_left].
  destruct (token_step data (fst (handleWebSocketMessage (Progress (2 ^ 53)) s)))
    as [B C].
  cbv zeta in B, C. rewrite B, C.
  change (tokenCount (fst (handleWebSocketMessage (Progress (2 ^ 53)) s)))
    with (2 ^ 53).
  change (outputBuffer (fst (handleWebSocketMessage (Progress (2 ^ 53)) s)))
    with (outputBuffer s).
  rewrite increment_limit.
  split; [reflexivity|]. split; reflexivity.
Qed.


(** C9. A progress event replaces [tokenCount] by the value it carries and
    leaves the buffer, the storage and the log as they are: nothing is
    appended, removed or persisted. *)
Theorem progress_event_frame (s : App) (tokens : Z) :
  let s' := fst (handleWebSocketMessage (Progress tokens) s) in
  tokenCount s' = tokens
  /\ outputBuffer s' = outputBuffer s
  /\ localStorage s' = localStorage s
  /\ newEffects s s' = []
  /\ s' = set_tokenCount tokens s
  /\ snd (handleWebSocketMessage (Progress tokens) s) = [].
Proof.
  cbn -[newEffects]. repeat split. apply newEffects_same. reflexivity.
Qed.

(** ** Strings *)

Lemma trimStart_split s :
  exists a, s = a ++ trimStart s /\ forallb isWhiteSpace a = true.
Proof.
  induction s as [|c r IH].
  - exists []. split; reflexivity.
  - cbn [trimStart]. destruct (isWhiteSpace c) eqn:E.
    + destruct IH as [a [Hs Ha]]. exists (c :: a). split.
      * cbn. congruence.
      * cbn. rewrite E. exact Ha.
    + exists []. split; reflexivity.
Qed.

Lemma trimStart_head s :
  match trimStart s with
  | [] => True
  | c :: _ => isWhiteSpace c = false
  end.
Proof.
  induction s as [|c r IH]; cbn [trimStart]; [exact I|].
  destruct (isWhiteSpace c) eqn:E; [exact IH | exact E].
Qed.

Lemma trimStart_nil s : trimStart s = [] -> forallb isWhiteSpace s = true.
Proof.
  intros H. destruct (trimStart_split s) as [a [Hs Ha]].
  rewrite H, app_nil_r in Hs. congruence.
Qed.

(** [trim] removes a run of white space at each end and nothing else; what
    is left neither starts nor ends with white space. *)
Lemma trim_split s :
  exists a b,
    s = a ++ trim s ++ b
    /\ forallb isWhiteSpace a = true
    /\ forallb isWhiteSpace b = true
    /\ match trim s with
       | [] => True
       | c :: _ => isWhiteSpace c = false
       end
    /\ match rev (trim s) with
       | [] => True
       | c :: _ => isWhiteSpace c = false
       end.
Proof.
  destruct (trimStart_split s) as [a [Hs Ha]].
  destruct (trimStart_split (rev (trimStart s))) as [b [Hr Hb]].
  exists a, (rev b). unfold trim, trimEnd.
  assert (Hm : trimStart s = rev (trimStart (rev (trimStart s))) ++ rev b).
  { rewrite <- rev_app_distr, <- Hr, rev_involutive. reflexivity. }
  split; [rewrite <- Hm; exact Hs|].
  split; [exact Ha|].
  split.
  { rewrite forallb_forall in *. intros x Hx. apply Hb, in_rev, Hx. }
  split.
  - pose proof (trimStart_head s) as Hh.
    rewrite Hm in Hh.
    destruct (rev (trimStart (rev (trimStart s)))); [exact I | exact Hh].
  - rewrite rev_involutive. apply trimStart_head.
Qed.

Lemma trimStart_In x s : In x (trimStart s) -> In x s.
Proof.
  destruct (trimStart_split s) as [a [Hs _]]. intros H.
  rewrite Hs. apply in_or_app. right. exact H.
Qed.

Lemma trim_In x s : In x (trim s) -> In x s.
Proof.
  unfold trim, trimEnd. intros H.
  apply in_rev, trimStart_In, in_rev, trimStart_In in H. exact H.
Qed.

Lemma endsWith_true s search :
  endsWith s search = true -> exists p, s = p ++ search.
Proof.
  unfold endsWith. intros H. apply andb_prop in H as [_ H].
  apply bool_decide_eq_true in H.
  exists (take (length s - length search) s).
  pose proof (take_drop (length s - length search) s) as E.
  rewrite H in E. symmetry. exact E.
Qed.

Lemma endsWith_app p search : endsWith (p ++ search) search = true.
Proof.
  unfold endsWith. apply andb_true_intro. split.
  - apply Nat.leb_le. rewrite length_app. lia.
  - apply bool_decide_eq_true.
    replace (length (p ++ search) - length search)%nat with (length p)
      by (rewrite length_app; lia).
    apply drop_app_length.
Qed.

(** A buffer without any backtick does not end with a fence, trimmed or
    not. *)
Lemma no_backtick_no_fence s :
  ~ In 96%N s -> endsWith (trim s) (lit "```") = false.
Proof.
  intros H. destruct (endsWith (trim s) (lit "```")) eqn:E; [|reflexivity].
  exfalso. apply H, trim_In.
  apply endsWith_true in E as [p Hp]. rewrite Hp.
  apply in_or_app. right. cbn. left. reflexivity.
Qed.

(** ** The event loop, step by step *)

Lemma run_cons e es w :
  run (e :: es) w
  = match step e w with
    | Some w' => run es w'
    | None => None
    end.
Proof. reflexivity. Qed.

Lemma handle_eq p s ts s' new :
  p s = (s', new) ->
  handle p {| app := s; pending := ts |}
  = {| app := s'; pending := ts ++ new |}.
Proof. intros H. unfold handle. cbn [app pending]. rewrite H. reflexivity. Qed.

Lemma resume_eq i p s ts s' new :
  p s = (s', new) ->
  resume i p {| app := s; pending := ts |}
  = {| app := s'; pending := delete i ts ++ new |}.
Proof. intros H. unfold resume. cbn [app pending]. rewrite H. reflexivity. Qed.

(** [startGeneration] on a fresh controller with a prompt and a model:
    the controller is generating and the creation request is out. *)
Lemma startGeneration_create s :
  truthy (trim (promptInput (elements s))) = true ->
  noModelSelected (getCurrentModel s) = false ->
  truthy_opt (currentGenerationId s) = false ->
  startGeneration s
  = (add_log (Fetch (PostGenerate (trim (promptInput (elements s)))))
       (updateStatus (lit "Creating generation...")
          (setGeneratingState true s)),
     [AwaitFetch (PostGenerate (trim (promptInput (elements s))))
        startGeneration_responded]).
Proof.
  intros Hp Hm Hid. unfold startGeneration.
  rewrite Hp, Hm. cbn [negb].
  change (currentGenerationId (setGeneratingState true s))
    with (currentGenerationId s).
  rewrite Hid. reflexivity.
Qed.

(** ** Stop round trip *)

(** C3 (the code at the claim's input).  A session is started and its
    job created, the socket opens and delivers [```py\nprint(1)] as a
    single token; then the stop is clicked and its request answered.  The
    output transmitted with the stop request is [```py\nprint(1)\n```] and
    the status reads "Stopped", but only until the close event of the
    socket that the stop itself closed: after it the status reads "Ready".
    The buffer that the controller keeps is the text without the fence
    throughout. *)
Theorem stop_round_trip_ends_ready (page : Elements) (store : Storage)
    (now : Z) (id : JsString) (r1 r2 : bool) (c1 c2 : Z) :
  truthy (trim (promptInput page)) = true ->
  noModelSelected (or_default (selectedModel store) (lit "qwen2.5:14b"))
  = false ->
  truthy id = true ->
  let view := fun s =>
    (stopOutputs (log s), statusText (elements s), isGenerating s,
     outputBuffer s) in
  after
    [ClickGenerate; FetchSettled 0 (Response r1 c1);
     JsonSettled 0 (Decoded (JCreated (Some id)));
     SocketOpened 0;
     SocketMessage 0 (Token (lit "```py" ++ LF ++ lit "print(1)"));
     ClickStop; FetchSettled 0 (Response r2 c2)]
    (boot page store now) view
  = Some ([lit "```py" ++ LF ++ lit "print(1)" ++ LF ++ lit "```"],
          lit "Stopped", false, lit "```py" ++ LF ++ lit "print(1)")
  /\ after
       [ClickGenerate; FetchSettled 0 (Response r1 c1);
        JsonSettled 0 (Decoded (JCreated (Some id)));
        SocketOpened 0;
        SocketMessage 0 (Token (lit "```py" ++ LF ++ lit "print(1)"));
        ClickStop; FetchSettled 0 (Response r2 c2); SocketClosed 0]
       (boot page store now) view
     = Some ([lit "```py" ++ LF ++ lit "print(1)" ++ LF ++ lit "```"],
             lit "Ready", false, lit "```py" ++ LF ++ lit "print(1)").
Proof.
  intros Hp Hm Hid view. subst view. unfold after.
  rewrite !run_cons. cbn [step]. unfold boot.
  erewrite handle_eq
    by (apply startGeneration_create; [exact Hp | exact Hm | reflexivity]).
  cbn [elements constructor].
  generalize (trim (promptInput page)). intros prompt.
  destruct id as [|c id']; [discriminate Hid|].
  destruct page as [[|cp p'] st ps gb mn mm]; [discriminate Hp|].
  split; vm_compute; reflexivity.
Qed.

Lemma stop_round_trip_ends_ready_witness :
  let view := fun s =>
    (stopOutputs (log s), statusText (elements s), isGenerating s,
     outputBuffer s) in
  after
    [ClickGenerate; FetchSettled 0 (Response true 200);
     JsonSettled 0 (Decoded (JCreated (Some (lit "g1"))));
     SocketOpened 0;
     SocketMessage 0 (Token (lit "```py" ++ LF ++ lit "print(1)"));
     ClickStop; FetchSettled 0 (Response true 200); SocketClosed 0]
    (boot (pageWith (lit "print one")) emptyStorage 1000) view
  = Some ([lit "```py" ++ LF ++ lit "print(1)" ++ LF ++ lit "```"],
          lit "Ready", false, lit "```py" ++ LF ++ lit "print(1)").
Proof.
  exact (proj2 (stop_round_trip_ends_ready (pageWith (lit "print one"))
                  emptyStorage 1000 (lit "g1") true true 200 200
                  eq_refl eq_refl eq_refl)).
Defined.

(** ** Restoring *)

(** C4. A snapshot whose timestamp lies 24 hours or more before the time
    of the restore is not restored.  The restore leaves no continuation
    behind and leaves the session exactly as it was, which is also what it
    does when there is no snapshot; the snapshot slot is empty afterwards
    in both cases, and the stale record has been removed: the restore of
    a stale snapshot is the restore without a snapshot followed by
    [clearSavedState]. *)
Theorem stale_snapshot_discarded (s : App) (state : SavedState) :
  appState (localStorage s) = Some (Saved state) ->
  24 * 60 * 60 * 1000 <= clock s - st_timestamp state ->
  let stale := loadLastGeneration s in
  let absent := loadLastGeneration (set_appState None s) in
  snd stale = [] /\ snd absent = []
  /\ session (fst stale) = session s
  /\ session (fst absent) = session s
  /\ appState (localStorage (fst stale)) = None
  /\ appState (localStorage (fst absent)) = None
  /\ selectedModel (localStorage (fst stale))
     = selectedModel (localStorage (fst absent))
  /\ newEffects s (fst stale)
     = [RemoveItem KAppState; RemoveItem KLastGenerationId]
  /\ fst stale = clearSavedState (fst absent).
Proof.
  intros Hs Hold. unfold loadLastGeneration. rewrite Hs.
  assert (E : (clock s - st_timestamp state <? 24 * 60 * 60 * 1000) = false)
    by (apply Z.ltb_ge; exact Hold).
  rewrite E. cbn -[newEffects].
  repeat split.
  apply newEffects_app. cbn. rewrite <- app_assoc. reflexivity.
Qed.

Lemma stale_snapshot_discarded_witness :
  let state :=
    {| st_generationId := Some (lit "g1"); st_prompt := lit "sort a list";
       st_outputBuffer := lit "def f():"; st_tokenCount := 3;
       st_isGenerating := true; st_timestamp := 1000 |} in
  let s :=
    constructor blankPage
      {| appState := Some (Saved state); selectedModel := None;
         lastGenerationId := None |} (1000 + 86400000) in
  snd (loadLastGeneration s) = []
  /\ session (fst (loadLastGeneration s)) = session s
  /\ appState (localStorage (fst (loadLastGeneration s))) = None.
Proof.
  intros state s.
  pose proof (stale_snapshot_discarded s state eq_refl) as H.
  cbv zeta in H.
  destruct H as [H1 [_ [H3 [_ [H5 _]]]]].
  - vm_compute. discriminate.
  - repeat split; assumption.
Defined.

(** ** What the display and storage helpers leave alone *)

Lemma keepsChannel_refl s : keepsChannel s s.
Proof. repeat split. Qed.

Lemma keepsChannel_trans s1 s2 s3 :
  keepsChannel s1 s2 -> keepsChannel s2 s3 -> keepsChannel s1 s3.
Proof.
  unfold keepsChannel. intros [A [B C]] [A' [B' C']].
  repeat split; congruence.
Qed.

(** [updateUIState] writes to the page only. *)
Lemma updateUIState_elements g s :
  updateUIState g s = set_elements (elements (updateUIState g s)) s.
Proof.
  unfold updateUIState. destruct s. destruct g as [g|].
  - destruct (status_in g _), (status_in g _), (g_prompt g) as [p|];
      try destruct (truthy p); reflexivity.
  - reflexivity.
Qed.

Lemma displayGeneration_keepsChannel g s :
  keepsChannel s (displayGeneration g s).
Proof.
  unfold displayGeneration. rewrite updateUIState_elements.
  unfold keepsChannel. repeat case_match; repeat split; reflexivity.
Qed.

Lemma clearSavedState_keepsChannel s : keepsChannel s (clearSavedState s).
Proof. repeat split. Qed.

Lemma startNewGeneration_keepsChannel s :
  keepsChannel s (startNewGeneration s).
Proof.
  unfold startNewGeneration. rewrite updateUIState_elements.
  repeat split.
Qed.

Lemma loadGenerationFailed_passive s :
  keepsChannel s (fst (loadGenerationFailed s))
  /\ Forall Passive (snd (loadGenerationFailed s)).
Proof.
  split; [|constructor]. cbn [loadGenerationFailed act fst].
  eapply keepsChannel_trans; [|apply startNewGeneration_keepsChannel].
  repeat split.
Qed.

Lemma loadGeneration_passive id request :
  Passive (AwaitFetch request (loadGeneration_responded id)).
Proof.
  constructor. intros [[|] status|] s; cbn [loadGeneration_responded].
  - split; [apply keepsChannel_refl|]. cbn [json snd].
    constructor; [|constructor]. constructor.
    intros [body|] s1; cbn [loadGeneration_decoded].
    + split; [|constructor]. cbn [act fst].
      eapply keepsChannel_trans;
        [|eapply keepsChannel_trans;
            [apply displayGeneration_keepsChannel|]];
        repeat split.
    + apply loadGenerationFailed_passive.
  - destruct (status =? 404).
    + split; [|constructor]. cbn [act fst].
      eapply keepsChannel_trans; [|apply startNewGeneration_keepsChannel].
      repeat split.
    + apply loadGenerationFailed_passive.
  - apply loadGenerationFailed_passive.
Qed.

Lemma restoreNewGenerationState_keepsChannel state s :
  keepsChannel s (restoreNewGenerationState state s).
Proof.
  unfold restoreNewGenerationState. rewrite updateUIState_elements.
  repeat split.
Qed.

Lemma restorePromptOnly_keepsChannel state s :
  keepsChannel s (restorePromptOnly state s).
Proof.
  unfold restorePromptOnly. rewrite updateUIState_elements.
  repeat split.
Qed.

(** The restore, whatever the storage holds, keeps the generating flag and
    the sockets, and so does everything it leaves behind. *)
Lemma loadLastGeneration_passive s :
  keepsChannel s (fst (loadLastGeneration s))
  /\ Forall Passive (snd (loadLastGeneration s)).
Proof.
  unfold loadLastGeneration.
  destruct (appState (localStorage s)) as [[| |state]|];
    try (split; [repeat split | constructor]).
  cbv zeta. repeat case_match.
  - split.
    + cbn [loadGeneration fetch fst]. repeat split.
    + cbn [loadGeneration fetch snd].
      constructor; [apply loadGeneration_passive | constructor].
  - split; [exact (restoreNewGenerationState_keepsChannel state s)
           | constructor].
  - split; [exact (restorePromptOnly_keepsChannel state s) | constructor].
  - split; [repeat split | constructor].
Qed.

(** [loadLastGeneration] does not read the [isGenerating] property of the
    snapshot. *)
Lemma loadLastGeneration_ignores_flag s state b :
  let r := loadLastGeneration (set_appState (Some (Saved state)) s) in
  let r' :=
    loadLastGeneration (set_appState (Some (Saved (withFlag b state))) s) in
  session (fst r') = session (fst r)
  /\ log (fst r') = log (fst r)
  /\ snd r' = snd r.
Proof.
  unfold loadLastGeneration. cbn [appState localStorage set_appState
    set_localStorage withFlag st_timestamp st_generationId st_prompt
    st_outputBuffer clock].
  repeat case_match; repeat split.
Qed.

(** C10. Restore never resumes streaming.  Whatever snapshot is stored,
    and whatever its [isGenerating] property says, a controller that is
    not generating is not generating after the restore; the restore opens
    no socket and leaves [this.ws] alone, and so do the continuations of
    the restore whenever they are resumed.  The result of the restore does
    not depend on the [isGenerating] property of the snapshot. *)
Theorem restore_never_resumes (s : App) (state : SavedState) :
  appState (localStorage s) = Some (Saved state) ->
  isGenerating s = false ->
  let r := loadLastGeneration s in
  isGenerating (fst r) = false
  /\ ws (fst r) = ws s
  /\ sockets (fst r) = sockets s
  /\ Forall Passive (snd r)
  /\ forall b,
       let r' :=
         loadLastGeneration
           (set_appState (Some (Saved (withFlag b state))) s) in
       session (fst r') = session (fst r)
       /\ log (fst r') = log (fst r)
       /\ snd r' = snd r.
Proof.
  intros Hs Hg r.
  destruct (loadLastGeneration_passive s) as [[Kg [Kw Ks]] Hp].
  split; [subst r; congruence|].
  split; [exact Kw|]. split; [exact Ks|]. split; [exact Hp|].
  intros b.
  assert (Es : set_appState (Some (Saved state)) s = s).
  { destruct s as [? ? ? ? ? ? [? ? ?] ? ? ?]. cbn in Hs. subst.
    reflexivity. }
  pose proof (loadLastGeneration_ignores_flag s state b) as H.
  cbv zeta in H. rewrite Es in H. exact H.
Qed.

Lemma restore_never_resumes_witness :
  let state :=
    {| st_generationId := None; st_prompt := lit "sort a list";
       st_outputBuffer := lit "def f():"; st_tokenCount := 3;
       st_isGenerating := true; st_timestamp := 1000 |} in
  let s :=
    constructor blankPage
      {| appState := Some (Saved state); selectedModel := None;
         lastGenerationId := None |} 2000 in
  isGenerating (fst (loadLastGeneration s)) = false
  /\ sockets (fst (loadLastGeneration s)) = [].
Proof.
  intros state s.
  destruct (restore_never_resumes s state eq_refl eq_refl)
    as [H1 [_ [H3 _]]].
  split; [exact H1 | exact H3].
Defined.

(** ** The health monitor *)

Lemma healthTick_probes s :
  truthy_opt (currentGenerationId s) = true ->
  isGenerating s = true ->
  healthTick s
  = (add_log (Fetch GetHealth) s,
     [AwaitFetch GetHealth checkGenerationHealth_probed]).
Proof.
  intros Hid Hg. unfold healthTick, checkGenerationHealth.
  rewrite Hg, Hid. reflexivity.
Qed.

Lemma markGenerationAsFailed_sends errorMessage s id :
  currentGenerationId s = Some id ->
  truthy id = true ->
  isGenerating s = true ->
  markGenerationAsFailed errorMessage s
  = (add_log (Fetch (PostFail id errorMessage (outputBuffer s))) s,
     [AwaitFetch (PostFail id errorMessage (outputBuffer s))
        (markGenerationAsFailed_responded errorMessage)]).
Proof.
  intros Hid Ht Hg. unfold markGenerationAsFailed.
  rewrite Hid, Ht, Hg. reflexivity.
Qed.

(** A failure report that is acknowledged. *)
Lemma markGenerationAsFailed_acknowledged errorMessage status s :
  let r := markGenerationAsFailed_responded errorMessage
             (Response true status) s in
  snd r = []
  /\ isGenerating (fst r) = false
  /\ ws (fst r) = ws s
  /\ sockets (fst r) = sockets s
  /\ statusText (elements (fst r)) = lit "Loaded: failed"
  /\ outputBuffer (fst r) = outputBuffer s
  /\ log (fst r)
     = log s ++ [SetItem KAppState;
                 Toast (lit "Generation failed due to connection loss")
                   ToastError].
Proof.
  cbn [markGenerationAsFailed_responded act fst snd].
  unfold displayGeneration. rewrite updateUIState_elements.
  cbn [failedGeneration g_output g_status g_id interpolate].
  destruct (truthy (outputBuffer (setGeneratingState false s))
            && truthy (trim (outputBuffer (setGeneratingState false s))));
    cbn; rewrite <- ?app_assoc; repeat split.
Qed.


(** Closed scenarios are settled by evaluation, conjunct by conjunct. *)
Ltac by_evaluation :=
  repeat (match goal with
          | |- _ /\ _ => split; [vm_compute; reflexivity|]
          end);
  vm_compute; reflexivity.

(** In the usual course the tick finds nothing to do: the [close] event of
    the socket has already cleared the generating flag and set the status
    to "Ready". *)
Lemma healthTick_after_close s :
  healthTick (onclose s) = (onclose s, [])
  /\ isGenerating (onclose s) = false
  /\ statusText (elements (onclose s)) = lit "Ready".
Proof. repeat split. Qed.
(** ** Late failure signals *)

(** [handleGenerationError] has no guard: whatever the session was, it
    reads "Failed" afterwards. *)
Lemma handleGenerationError_unguarded message s :
  shownStatus (handleGenerationError message s) = (lit "Failed", true, false).
Proof.
  unfold handleGenerationError, shownStatus.
  rewrite updateUIState_elements. reflexivity.
Qed.
(** C1 (the code at the failing input).  The job [g1] completes on the
    socket 0: the status reads "Completed", the prompt section is hidden
    and the controller is not generating.  An [error] message that arrives
    afterwards on that socket turns the status into "Failed" and shows the
    prompt section again. *)
Theorem late_error_overwrites_completed :
  after completedTrace (boot (pageWith (lit "assign x")) emptyStorage 0)
    shownStatus
  = Some (lit "Completed", false, false)
  /\ after (completedTrace ++ [SocketMessage 0 (MsgError (Some (lit "late")))])
       (boot (pageWith (lit "assign x")) emptyStorage 0) shownStatus
     = Some (lit "Failed", true, false).
Proof. by_evaluation. Qed.
(** The same with a stale socket: the job is regenerated on the socket 1
    and completes there; the error arrives on the socket 0, which the
    controller no longer refers to. *)
Lemma stale_socket_error_overwrites_completed :
  after
    (completedTrace
     ++ [ClickGenerate; SocketOpened 1;
         SocketMessage 1 (Token (lit "y = 2"));
         SocketMessage 1 (MsgDone None None)])
    (boot (pageWith (lit "assign x")) emptyStorage 0)
    (fun s => (ws s, shownStatus s))
  = Some (Some 1%nat, (lit "Completed", false, false))
  /\ after
       (completedTrace
        ++ [ClickGenerate; SocketOpened 1;
            SocketMessage 1 (Token (lit "y = 2"));
            SocketMessage 1 (MsgDone None None);
            SocketMessage 0 (MsgError (Some (lit "late")))])
       (boot (pageWith (lit "assign x")) emptyStorage 0)
       (fun s => (ws s, shownStatus s))
     = Some (Some 1%nat, (lit "Failed", true, false)).
Proof. by_evaluation. Qed.
(** A failure report of the health monitor that is in flight when the job
    completes: its acknowledgement turns "Completed" into
    "Loaded: failed". *)
Lemma late_health_failure_overwrites_completed :
  after
    (streamingTrace
     ++ [HealthTick; FetchSettled 0 FetchRejected;
         SocketMessage 0 (MsgDone None None)])
    (boot (pageWith (lit "assign x")) emptyStorage 0) shownStatus
  = Some (lit "Completed", false, false)
  /\ after
       (streamingTrace
        ++ [HealthTick; FetchSettled 0 FetchRejected;
            SocketMessage 0 (MsgDone None None);
            FetchSettled 0 (Response true 200)])
       (boot (pageWith (lit "assign x")) emptyStorage 0) shownStatus
     = Some (lit "Loaded: failed", true, false).
Proof. by_evaluation. Qed.
(** A failure of the health monitor that starts when the controller is no
    longer generating does nothing. *)
Lemma markGenerationAsFailed_idle errorMessage s :
  isGenerating s = false ->
  markGenerationAsFailed errorMessage s = (s, [])
  /\ healthFailed s = (s, [])
  /\ healthTick s = (s, []).
Proof.
  intros H. unfold healthFailed, healthTick, markGenerationAsFailed.
  rewrite H. destruct (currentGenerationId s) as [id|]; [|repeat split].
  rewrite andb_false_r. repeat split.
Qed.
(** ** Starting *)

(** A start with a blank prompt: a warning and nothing else. *)
Lemma startGeneration_blank_prompt s :
  trim (promptInput (elements s)) = [] ->
  startGeneration s
  = (showToast (lit "Please enter a prompt") ToastWarning s, []).
Proof.
  intros H. unfold startGeneration. rewrite H. reflexivity.
Qed.
(** The current model is never missing: without a stored choice it is the
    default, which passes the test of [startGeneration]. *)
Lemma getCurrentModel_default s :
  selectedModel (localStorage s) = None ->
  getCurrentModel s = lit "qwen2.5:14b"
  /\ noModelSelected (getCurrentModel s) = false.
Proof.
  intros H. unfold getCurrentModel. rewrite H. split; reflexivity.
Qed.
(** C6 (the code at the failing input).  On a fresh profile the server
    lists two models, neither of them the default: no model is selected,
    the header reads "Select a model" and nothing is stored.  A start with
    the prompt "hello" is not rejected: the controller is generating and
    the creation request is sent. *)
Theorem start_without_selected_model :
  after
    [InitModels; FetchSettled 0 (Response true 200);
     JsonSettled 0
       (Decoded (JModels None (Some [lit "llama3"; lit "mistral"])));
     TypePrompt (lit "hello")]
    (boot blankPage emptyStorage 0)
    (fun s => (modelName (elements s), selectedModel (localStorage s),
               isGenerating s))
  = Some (lit "Select a model", None, false)
  /\ after
       [InitModels; FetchSettled 0 (Response true 200);
        JsonSettled 0
          (Decoded (JModels None (Some [lit "llama3"; lit "mistral"])));
        TypePrompt (lit "hello"); ClickGenerate]
       (boot blankPage emptyStorage 0)
       (fun s => (isGenerating s, statusText (elements s), log s))
     = Some (true, lit "Creating generation...",
             [Fetch GetModels;
              Toast (lit "Please select a model to continue") ToastWarning;
              SetItem KAppState;
              Fetch (PostGenerate (lit "hello"))]).
Proof. by_evaluation. Qed.

(** ** More on strings *)

Lemma trimStart_app x y :
  trimStart (x ++ y)
  = if forallb isWhiteSpace x then trimStart y else trimStart x ++ y.
Proof.
  induction x as [|c x IH]; [reflexivity|].
  cbn [Datatypes.app trimStart forallb].
  destruct (isWhiteSpace c); [exact IH | reflexivity].
Qed.

Lemma trimStart_fixed c s : isWhiteSpace c = false -> trimStart (c :: s) = c :: s.
Proof. intros H. cbn [trimStart]. rewrite H. reflexivity. Qed.

(** Text appended after which comes a character that is not white space
    survives [trimEnd]. *)
Lemma trimEnd_app_last z c :
  isWhiteSpace c = false -> trimEnd (z ++ [c]) = z ++ [c].
Proof.
  intros H. unfold trimEnd. rewrite rev_app_distr. cbn [rev Datatypes.app].
  rewrite (trimStart_fixed c _ H).
  cbn [rev]. rewrite rev_involutive. reflexivity.
Qed.

Lemma trim_idempotent s : trim (trim s) = trim s.
Proof.
  destruct (trim_split s) as [a [b [_ [_ [_ [Hh Hl]]]]]].
  remember (trim s) as t eqn:Et. clear Et.
  unfold trim at 1.
  assert (E1 : trimStart t = t).
  { destruct t as [|c t']; [reflexivity|]. apply trimStart_fixed, Hh. }
  rewrite E1. unfold trimEnd.
  destruct (rev t) as [|c r] eqn:Er.
  - apply (f_equal (@rev N)) in Er. rewrite rev_involutive in Er.
    subst t. reflexivity.
  - rewrite (trimStart_fixed c r Hl). rewrite <- Er.
    apply rev_involutive.
Qed.

(** Text that ends with a fence still ends with it after [trim]. *)
Lemma trim_keeps_fence x :
  endsWith (trim (x ++ lit "```")) (lit "```") = true.
Proof.
  unfold trim. rewrite trimStart_app.
  assert (E : forall z, trimEnd (z ++ lit "```") = z ++ lit "```").
  { intros z.
    change (lit "```") with ([96; 96] ++ [96])%N.
    rewrite app_assoc. apply trimEnd_app_last. reflexivity. }
  destruct (forallb isWhiteSpace x).
  - change (trimStart (lit "```")) with ([] ++ lit "```").
    rewrite E. apply endsWith_app.
  - rewrite E. apply endsWith_app.
Qed.

(** The text sent on stop is the buffer itself exactly when the buffer
    is empty or its trimmed text ends with a fence; in every other case a
    fence was added. *)
Lemma stopOutput_unchanged_iff (buffer : JsString) :
  stopOutput buffer = buffer
  <-> buffer = [] \/ endsWith (trim buffer) (lit "```") = true.
Proof.
  unfold stopOutput. split.
  - intros H. destruct buffer as [|c b]; [left; reflexivity|]. right.
    cbn [truthy andb] in H.
    destruct (endsWith (trim (c :: b)) (lit "```")) eqn:E; [reflexivity|].
    cbn [negb] in H. rewrite <- H in E.
    rewrite app_assoc in E. rewrite trim_keeps_fence in E. discriminate.
  - intros [H | H].
    + rewrite H. reflexivity.
    + rewrite H. cbn [negb]. rewrite andb_false_r. reflexivity.
Qed.

(** ** Starting, again *)

(** X1.  Regenerating.  A start while a job id is held sends no request: it
    opens a socket for the held id and points [this.ws] at it, leaves the
    sockets it had as they are, empties the buffer and zeroes the count. *)
Theorem regenerate_reuses_id (s : App) (id : JsString) :
  currentGenerationId s = Some id ->
  truthy id = true ->
  truthy (trim (promptInput (elements s))) = true ->
  noModelSelected (getCurrentModel s) = false ->
  let r := startGeneration s in
  snd r = []
  /\ newEffects s (fst r) = []
  /\ sockets (fst r)
     = sockets s ++ [{| socketId := Some id; readyState := CONNECTING |}]
  /\ ws (fst r) = Some (length (sockets s))
  /\ currentGenerationId (fst r) = Some id
  /\ outputBuffer (fst r) = []
  /\ tokenCount (fst r) = 0
  /\ isGenerating (fst r) = true
  /\ statusText (elements (fst r)) = lit "Generating..."
  /\ promptInput (elements (fst r)) = promptInput (elements s).
Proof.
  intros Hid Ht Hp Hm. unfold startGeneration.
  rewrite Hp, Hm. cbn [negb].
  change (currentGenerationId (setGeneratingState true s))
    with (currentGenerationId s).
  rewrite Hid. cbn [truthy_opt]. rewrite Ht.
  cbn -[lit newEffects]. rewrite Hid.
  repeat split. apply newEffects_same. reflexivity.
Qed.

Lemma regenerate_reuses_id_witness :
  let s :=
    set_promptInput (lit "again")
      (set_currentGenerationId (Some (lit "g1"))
         (constructor blankPage emptyStorage 0)) in
  sockets (fst (startGeneration s))
  = [{| socketId := Some (lit "g1"); readyState := CONNECTING |}]
  /\ newEffects s (fst (startGeneration s)) = [].
Proof.
  intros s.
  destruct (regenerate_reuses_id s (lit "g1") eq_refl eq_refl eq_refl eq_refl)
    as [_ [H2 [H3 _]]].
  split; [exact H3 | exact H2].
Defined.

(** A fresh start: one step of the event loop. *)
Lemma run_start_create s es :
  truthy (trim (promptInput (elements s))) = true ->
  noModelSelected (getCurrentModel s) = false ->
  truthy_opt (currentGenerationId s) = false ->
  run (ClickGenerate :: es) {| app := s; pending := [] |}
  = run es
      {| app :=
           add_log (Fetch (PostGenerate (trim (promptInput (elements s)))))
             (updateStatus (lit "Creating generation...")
                (setGeneratingState true s));
         pending :=
           [AwaitFetch (PostGenerate (trim (promptInput (elements s))))
              startGeneration_responded] |}.
Proof.
  intros Hp Hm Hid. rewrite run_cons. cbn [step].
  erewrite handle_eq by (apply startGeneration_create; assumption).
  reflexivity.
Qed.

(** X2.  A creation that fails.  When the creation request is rejected, or
    its body cannot be decoded, the controller is not generating any more,
    no socket has been opened and no id is held; the status reads "Ready"
    and a failure is notified.  The buffer and the count are as they were
    before the start, and the generate button still reads
    "Generating...". *)
Theorem creation_failure_returns_to_idle (s : App) (ok : bool) (status : Z) :
  truthy (trim (promptInput (elements s))) = true ->
  noModelSelected (getCurrentModel s) = false ->
  truthy_opt (currentGenerationId s) = false ->
  let view := fun s' =>
    (isGenerating s', sockets s', ws s', currentGenerationId s',
     outputBuffer s', tokenCount s', statusText (elements s'),
     generateBtn (elements s'), newEffects s s') in
  let failed :=
    Some (false, sockets s, ws s, currentGenerationId s, outputBuffer s,
          tokenCount s, lit "Ready", Generating,
          [Fetch (PostGenerate (trim (promptInput (elements s))));
           Toast (lit "Failed to start generation") ToastError]) in
  after [ClickGenerate; FetchSettled 0 FetchRejected]
    {| app := s; pending := [] |} view = failed
  /\ after [ClickGenerate; FetchSettled 0 (Response ok status);
            JsonSettled 0 JsonRejected]
       {| app := s; pending := [] |} view = failed.
Proof.
  intros Hp Hm Hid view failed. unfold after.
  rewrite !run_start_create by assumption.
  split.
  - cbn -[lit trim newEffects]. unfold view, failed.
    erewrite newEffects_app by (cbn -[lit trim]; rewrite <- app_assoc;
                                reflexivity).
    reflexivity.
  - cbn -[lit trim newEffects]. unfold view, failed.
    erewrite newEffects_app by (cbn -[lit trim]; rewrite <- app_assoc;
                                reflexivity).
    reflexivity.
Qed.

Lemma creation_failure_returns_to_idle_witness :
  let s := constructor (pageWith (lit "sort")) emptyStorage 0 in
  after [ClickGenerate; FetchSettled 0 FetchRejected]
    {| app := s; pending := [] |}
    (fun s' =>
       (isGenerating s', sockets s', ws s', currentGenerationId s',
        outputBuffer s', tokenCount s', statusText (elements s'),
        generateBtn (elements s'), newEffects s s'))
  = Some (false, [], None, None, [], 0, lit "Ready", Generating,
          [Fetch (PostGenerate (lit "sort"));
           Toast (lit "Failed to start generation") ToastError]).
Proof.
  exact (proj1 (creation_failure_returns_to_idle
                  (constructor (pageWith (lit "sort")) emptyStorage 0)
                  true 200 eq_refl eq_refl eq_refl)).
Defined.

(** X3.  A creation answered without an id.  The answer of the creation
    request is not checked: whatever its status, when the decoded body has
    no [id] the controller opens a socket for the missing id, holds no id
    and stays generating. *)
Theorem creation_without_id_still_streams (s : App) (ok : bool) (status : Z)
    (body : Json) :
  truthy (trim (promptInput (elements s))) = true ->
  noModelSelected (getCurrentModel s) = false ->
  truthy_opt (currentGenerationId s) = false ->
  json_id body = None ->
  after [ClickGenerate; FetchSettled 0 (Response ok status);
         JsonSettled 0 (Decoded body)]
    {| app := s; pending := [] |}
    (fun s' => (isGenerating s', currentGenerationId s', sockets s', ws s',
                statusText (elements s')))
  = Some (true, None,
          sockets s ++ [{| socketId := None; readyState := CONNECTING |}],
          Some (length (sockets s)), lit "Generating...").
Proof.
  intros Hp Hm Hid Hb. unfold after.
  rewrite run_start_create by assumption.
  cbn -[lit trim]. rewrite Hb. reflexivity.
Qed.

Lemma creation_without_id_still_streams_witness :
  after [ClickGenerate; FetchSettled 0 (Response false 500);
         JsonSettled 0 (Decoded JOther)]
    (boot (pageWith (lit "sort")) emptyStorage 0)
    (fun s' => (isGenerating s', currentGenerationId s', sockets s', ws s',
                statusText (elements s')))
  = Some (true, None, [{| socketId := None; readyState := CONNECTING |}],
          Some 0%nat, lit "Generating...").
Proof.
  exact (creation_without_id_still_streams
           (constructor (pageWith (lit "sort")) emptyStorage 0) false 500
           JOther eq_refl eq_refl eq_refl eq_refl).
Defined.

(** ** Stopping *)

Lemma run_stop s id es :
  currentGenerationId s = Some id ->
  truthy id = true ->
  run (ClickStop :: es) {| app := s; pending := [] |}
  = run es
      {| app := add_log (Fetch (PostStop id (stopOutput (outputBuffer s)))) s;
         pending :=
           [AwaitFetch (PostStop id (stopOutput (outputBuffer s)))
              (stopGeneration_responded (stopOutput (outputBuffer s)))] |}.
Proof.
  intros Hid Ht. rewrite run_cons. cbn [step].
  erewrite handle_eq; [reflexivity|].
  unfold stopGeneration. rewrite Hid, Ht. reflexivity.
Qed.

(** The page after [updateUIState] for the stopped generation. *)
Lemma updateUIState_stopped out s :
  elements (updateUIState (Some (stoppedGeneration out s)) s)
  = {| promptInput := promptInput (elements s);
       statusText := statusText (elements s);
       promptSection := true; generateBtn := Regenerate;
       modelName := modelName (elements s);
       modelModal := modelModal (elements s) |}.
Proof.
  unfold updateUIState, stoppedGeneration. cbn [g_prompt].
  change (status_in _ [lit "processing"; lit "stopped"; lit "failed"])
    with true.
  change (status_in _ [lit "completed"; lit "stopped"; lit "failed"])
    with true.
  cbv iota.
  destruct (truthy (promptInput (elements _))) eqn:E; reflexivity.
Qed.

(** X4.  A stop whose request is rejected.  Nothing changes but a
    notification: the controller is still generating, its socket is not
    closed, the status and the storage are as they were. *)
Theorem stop_rejected_keeps_streaming (s : App) (id : JsString) :
  currentGenerationId s = Some id ->
  truthy id = true ->
  after [ClickStop; FetchSettled 0 FetchRejected]
    {| app := s; pending := [] |}
    (fun s' => (session s', localStorage s', newEffects s s'))
  = Some (session s, localStorage s,
          [Fetch (PostStop id (stopOutput (outputBuffer s)));
           Toast (lit "Failed to stop generation") ToastError]).
Proof.
  intros Hid Ht. unfold after. rewrite (run_stop s id) by assumption.
  cbn -[lit stopOutput newEffects].
  erewrite newEffects_app
    by (cbn -[lit stopOutput]; rewrite <- app_assoc; reflexivity).
  reflexivity.
Qed.

Lemma stop_rejected_keeps_streaming_witness :
  after [ClickStop; FetchSettled 0 FetchRejected]
    {| app := stuckSession; pending := [] |}
    (fun s' => (session s', localStorage s', newEffects stuckSession s'))
  = Some (session stuckSession, localStorage stuckSession,
          [Fetch (PostStop (lit "g1")
                    (stopOutput (outputBuffer stuckSession)));
           Toast (lit "Failed to stop generation") ToastError]).
Proof.
  exact (stop_rejected_keeps_streaming stuckSession (lit "g1")
           eq_refl eq_refl).
Defined.

Lemma closeWs_sockets s :
  closeWs s
  = set_sockets
      match ws s with
      | Some n => alter close n (sockets s)
      | None => sockets s
      end s.
Proof.
  unfold closeWs. destruct (ws s); [reflexivity|]. destruct s; reflexivity.
Qed.

(** What the controller keeps after a stop that is answered. *)
Lemma stop_answered_buffers s id ok status :
  currentGenerationId s = Some id ->
  truthy id = true ->
  after [ClickStop; FetchSettled 0 (Response ok status)]
    {| app := s; pending := [] |}
    (fun s' => (outputBuffer s', appState (localStorage s')))
  = Some (outputBuffer s,
          Some (Saved {| st_generationId := Some id;
                         st_prompt := promptInput (elements s);
                         st_outputBuffer := outputBuffer s;
                         st_tokenCount := tokenCount s;
                         st_isGenerating := false;
                         st_timestamp := clock s |})).
Proof.
  intros Hid Ht. unfold after. rewrite (run_stop s id) by assumption.
  rewrite run_cons. cbn [step pending lookup list_lookup].
  erewrite resume_eq by reflexivity.
  cbn [run fmap option_fmap option_map app].
  unfold stopGeneration_responded, seq, act, loadHistory, fetch.
  cbn [fst snd]. rewrite closeWs_sockets.
  unfold saveLastGeneration.
  match goal with
  | |- context [updateUIState (Some (stoppedGeneration ?o ?x)) ?x] =>
      rewrite (updateUIState_elements (Some (stoppedGeneration o x)) x);
      rewrite (updateUIState_stopped o x)
  end.
  cbn -[lit stopOutput]. rewrite Hid. reflexivity.
Qed.

(** C8 (as amended).  The fence rule of the stop operation.  For a non-empty
    buffer whose trimmed text does not end with a fence, the output that
    is transmitted is the trimmed buffer followed by a line feed and a
    fence; this is so in particular for a buffer that has no backtick at
    all.  For an empty buffer the output is sent as it is, without a
    fence.  What the controller retains once the stop is answered, in
    [outputBuffer] and in the snapshot, is the buffer as it was, without
    the fence. *)
Theorem stop_fence_rule (s : App) (id : JsString) (ok : bool) (status : Z) :
  currentGenerationId s = Some id ->
  truthy id = true ->
  let buffer := outputBuffer s in
  exists sent,
    newEffects s (fst (stopGeneration s)) = [Fetch (PostStop id sent)]
    /\ (buffer <> [] -> endsWith (trim buffer) (lit "```") = false ->
        sent = trim buffer ++ LF ++ lit "```")
    /\ (buffer <> [] -> ~ In 96%N buffer ->
        sent = trim buffer ++ LF ++ lit "```")
    /\ (buffer = [] -> sent = [])
    /\ after [ClickStop; FetchSettled 0 (Response ok status)]
         {| app := s; pending := [] |}
         (fun s' => (outputBuffer s', appState (localStorage s')))
       = Some (buffer,
               Some (Saved {| st_generationId := Some id;
                              st_prompt := promptInput (elements s);
                              st_outputBuffer := buffer;
                              st_tokenCount := tokenCount s;
                              st_isGenerating := false;
                              st_timestamp := clock s |})).
Proof.
  intros Hid Ht buffer. exists (stopOutput buffer).
  assert (Hfence : buffer <> [] ->
            endsWith (trim buffer) (lit "```") = false ->
            stopOutput buffer = trim buffer ++ LF ++ lit "```").
  { intros Hne He. unfold stopOutput. rewrite He.
    destruct buffer; [congruence | reflexivity]. }
  split; [|split; [|split; [|split]]].
  - unfold stopGeneration. rewrite Hid, Ht. unfold fetch. cbn [fst].
    apply newEffects_app. reflexivity.
  - exact Hfence.
  - intros Hne Hb. apply Hfence; [exact Hne|].
    apply no_backtick_no_fence, Hb.
  - intros He. rewrite He. reflexivity.
  - apply stop_answered_buffers; assumption.
Qed.

Lemma stop_fence_rule_witness :
  let s :=
    set_outputBuffer (lit "let x = 1;  ")
      (set_currentGenerationId (Some (lit "g1"))
         (constructor blankPage emptyStorage 0)) in
  newEffects s (fst (stopGeneration s))
  = [Fetch (PostStop (lit "g1") (lit "let x = 1;" ++ LF ++ lit "```"))]
  /\ after [ClickStop; FetchSettled 0 (Response true 200)]
       {| app := s; pending := [] |} outputBuffer
     = Some (lit "let x = 1;  ").
Proof.
  intros s.
  destruct (stop_fence_rule s (lit "g1") true 200 eq_refl eq_refl)
    as [sent [Hsent [_ [Hplain [_ Hkept]]]]].
  split.
  - rewrite Hsent, Hplain; [reflexivity | discriminate |].
    vm_compute. intuition discriminate.
  - unfold after in *.
    destruct (run [ClickStop; FetchSettled 0 (Response true 200)]
                {| app := s; pending := [] |}) as [w|];
      [|discriminate Hkept].
    cbn [fmap option_fmap option_map] in *. inversion Hkept. reflexivity.
Defined.

(** C8 (the claim as it was, on what is retained).  A stream delivers
    [x = 1] and is stopped: the request carries [x = 1] with a line feed
    and a fence, and the controller keeps [x = 1], in the buffer and in
    the snapshot. *)
Theorem stop_retains_unfenced_buffer :
  after (streamingTrace ++ [ClickStop; FetchSettled 0 (Response true 200)])
    (boot (pageWith (lit "assign x")) emptyStorage 0)
    (fun s => (stopOutputs (log s), outputBuffer s,
               appState (localStorage s)))
  = Some ([lit "x = 1" ++ LF ++ lit "```"], lit "x = 1",
          Some (Saved {| st_generationId := Some (lit "g1");
                         st_prompt := lit "assign x";
                         st_outputBuffer := lit "x = 1";
                         st_tokenCount := 1;
                         st_isGenerating := false;
                         st_timestamp := 0 |})).
Proof. vm_compute. reflexivity. Qed.

(** X5.  A stop that is answered, with whatever status.  The controller is
    not generating, the status reads "Stopped" and the button "Regenerate";
    the socket [this.ws] refers to is closing or closed.  The fence went
    into the request only: the buffer, the count and the id are as they
    were, and the snapshot that is persisted holds the buffer as it
    was. *)
Theorem stop_answered_keeps_raw_buffer (s : App) (id : JsString)
    (ok : bool) (status : Z) :
  currentGenerationId s = Some id ->
  truthy id = true ->
  after [ClickStop; FetchSettled 0 (Response ok status)]
    {| app := s; pending := [] |}
    (fun s' =>
       (isGenerating s', statusText (elements s'), generateBtn (elements s'),
        outputBuffer s', tokenCount s', currentGenerationId s',
        appState (localStorage s'), ws s', sockets s', newEffects s s'))
  = Some (false, lit "Stopped", Regenerate,
          outputBuffer s, tokenCount s, Some id,
          Some (Saved {| st_generationId := Some id;
                         st_prompt := promptInput (elements s);
                         st_outputBuffer := outputBuffer s;
                         st_tokenCount := tokenCount s;
                         st_isGenerating := false;
                         st_timestamp := clock s |}),
          ws s,
          match ws s with
          | Some n => alter close n (sockets s)
          | None => sockets s
          end,
          [Fetch (PostStop id (stopOutput (outputBuffer s)));
           Toast (lit "Generation stopped") ToastInfo;
           Fetch GetHistory; SetItem KAppState]).
Proof.
  intros Hid Ht. unfold after. rewrite (run_stop s id) by assumption.
  rewrite run_cons. cbn [step pending lookup list_lookup].
  erewrite resume_eq by reflexivity.
  cbn [run fmap option_fmap option_map app].
  unfold stopGeneration_responded, seq, act, loadHistory, fetch.
  cbn [fst snd]. rewrite closeWs_sockets.
  unfold saveLastGeneration.
  match goal with
  | |- context [updateUIState (Some (stoppedGeneration ?o ?x)) ?x] =>
      rewrite (updateUIState_elements (Some (stoppedGeneration o x)) x);
      rewrite (updateUIState_stopped o x)
  end.
  erewrite newEffects_app.
  2:{ cbn -[lit stopOutput]. rewrite <- !app_assoc. reflexivity. }
  cbn -[lit stopOutput]. rewrite Hid.
  destruct (ws s); reflexivity.
Qed.

Lemma stop_answered_keeps_raw_buffer_witness :
  after [ClickStop; FetchSettled 0 (Response false 500)]
    {| app := stuckSession; pending := [] |}
    (fun s' =>
       (isGenerating s', statusText (elements s'), generateBtn (elements s'),
        outputBuffer s', tokenCount s', currentGenerationId s',
        appState (localStorage s'), ws s', sockets s',
        newEffects stuckSession s'))
  = Some (false, lit "Stopped", Regenerate,
          lit "def f():", 3, Some (lit "g1"),
          Some (Saved {| st_generationId := Some (lit "g1");
                         st_prompt := lit "write f";
                         st_outputBuffer := lit "def f():";
                         st_tokenCount := 3;
                         st_isGenerating := false;
                         st_timestamp := 0 |}),
          Some 0%nat,
          [{| socketId := Some (lit "g1"); readyState := CLOSED |}],
          [Fetch (PostStop (lit "g1") (lit "def f():" ++ LF ++ lit "```"));
           Toast (lit "Generation stopped") ToastInfo;
           Fetch GetHistory; SetItem KAppState]).
Proof.
  exact (stop_answered_keeps_raw_buffer stuckSession (lit "g1")
           false 500 eq_refl eq_refl).
Defined.

(** ** Coming back to the page *)

Lemma run_visible s id es :
  isGenerating s = true ->
  currentGenerationId s = Some id ->
  truthy id = true ->
  ws_readyState s = Some CLOSED \/ ws_readyState s = Some CLOSING ->
  run (BecameVisible :: es) {| app := s; pending := [] |}
  = run es
      {| app := add_log (Fetch (GetHistoryItem id)) s;
         pending :=
           [AwaitFetch (GetHistoryItem id) reconnectWebSocket_responded] |}.
Proof.
  intros Hg Hid Ht Hws. rewrite run_cons. cbn [step].
  erewrite handle_eq; [reflexivity|].
  unfold onVisible. rewrite Hg.
  assert (E : reconnectWebSocket s
              = (add_log (Fetch (GetHistoryItem id)) s,
                 [AwaitFetch (GetHistoryItem id)
                    reconnectWebSocket_responded])).
  { unfold reconnectWebSocket. rewrite Hg, Hid. cbn [truthy_opt].
    rewrite Ht. reflexivity. }
  destruct Hws as [H | H]; rewrite H; exact E.
Qed.

(** X6.  Visibility recovery resumes.  The page becomes visible while the
    controller is generating and its socket is closed or closing; the
    status request is answered and the job is still processing.  Then a
    socket for the same id is opened and [this.ws] refers to it; the
    controller is still generating and the buffer, the count and the id
    are as they were. *)
Theorem visible_resumes_processing_job (s : App) (id : JsString)
    (g : Generation) (status : Z) :
  isGenerating s = true ->
  currentGenerationId s = Some id ->
  truthy id = true ->
  ws_readyState s = Some CLOSED \/ ws_readyState s = Some CLOSING ->
  g_status g = Some (lit "processing") ->
  after [BecameVisible; FetchSettled 0 (Response true status);
         JsonSettled 0 (Decoded (JGeneration g))]
    {| app := s; pending := [] |}
    (fun s' => (sockets s', ws s', isGenerating s', outputBuffer s',
                tokenCount s', currentGenerationId s', elements s',
                localStorage s', newEffects s s'))
  = Some (sockets s ++ [{| socketId := Some id; readyState := CONNECTING |}],
          Some (length (sockets s)), true, outputBuffer s, tokenCount s,
          Some id, elements s, localStorage s,
          [Fetch (GetHistoryItem id)]).
Proof.
  intros Hg Hid Ht Hws Hst. unfold after.
  rewrite (run_visible s id) by assumption.
  cbn -[lit newEffects]. rewrite Hst.
  change (is_str (Some (lit "processing")) (lit "processing")) with true.
  cbn -[lit newEffects]. rewrite Hid, Hg.
  erewrite newEffects_app by reflexivity. reflexivity.
Qed.

Lemma visible_resumes_processing_job_witness :
  after [BecameVisible; FetchSettled 0 (Response true 200);
         JsonSettled 0 (Decoded (JGeneration processingJob))]
    {| app := stuckSession; pending := [] |}
    (fun s' => (sockets s', ws s', isGenerating s', outputBuffer s',
                tokenCount s', currentGenerationId s', elements s',
                localStorage s', newEffects stuckSession s'))
  = Some ([{| socketId := Some (lit "g1"); readyState := CLOSED |};
           {| socketId := Some (lit "g1"); readyState := CONNECTING |}],
          Some 1%nat, true, lit "def f():", 3, Some (lit "g1"),
          pageWith (lit "write f"), emptyStorage,
          [Fetch (GetHistoryItem (lit "g1"))]).
Proof.
  exact (visible_resumes_processing_job stuckSession (lit "g1")
           processingJob 200 eq_refl eq_refl eq_refl
           (or_introl eq_refl) eq_refl).
Defined.

(** X7.  Visibility recovery adopts a finished job.  When the status request
    is answered with a job that is not processing, the controller stops
    generating without opening a socket and displays the job: it takes the
    id of the answer and shows "Loaded: <status>"; it takes the output of
    the answer when that is not blank, and keeps its own buffer when it
    is. *)
Theorem visible_adopts_finished_job (s : App) (id : JsString)
    (g : Generation) (status : Z) :
  isGenerating s = true ->
  currentGenerationId s = Some id ->
  truthy id = true ->
  ws_readyState s = Some CLOSED \/ ws_readyState s = Some CLOSING ->
  g_status g <> Some (lit "processing") ->
  after [BecameVisible; FetchSettled 0 (Response true status);
         JsonSettled 0 (Decoded (JGeneration g))]
    {| app := s; pending := [] |}
    (fun s' => (sockets s', ws s', isGenerating s', currentGenerationId s',
                statusText (elements s'), outputBuffer s', tokenCount s'))
  = Some (sockets s, ws s, false, g_id g,
          lit "Loaded: " ++ interpolate (g_status g),
          match g_output g with
          | Some o => if truthy (trim o) then o else outputBuffer s
          | None => outputBuffer s
          end,
          tokenCount s).
Proof.
  intros Hg Hid Ht Hws Hst. unfold after.
  rewrite (run_visible s id) by assumption.
  rewrite run_cons. cbn [step pending lookup list_lookup].
  erewrite resume_eq by reflexivity.
  rewrite run_cons. cbn [step pending lookup list_lookup delete list_delete
    Datatypes.app].
  erewrite resume_eq.
  2:{ cbn [reconnectWebSocket_decoded as_generation].
      unfold is_str. rewrite bool_decide_eq_false_2 by exact Hst.
      reflexivity. }
  cbn [run fmap option_fmap option_map app fst].
  unfold displayGeneration. rewrite updateUIState_elements.
  destruct (g_output g) as [o|]; [|reflexivity].
  destruct o as [|c o']; [reflexivity|].
  cbn [truthy andb].
  destruct (truthy (trim (c :: o'))); reflexivity.
Qed.

Lemma visible_adopts_finished_job_witness :
  let g :=
    {| g_id := Some (lit "g1"); g_status := Some (lit "completed");
       g_output := Some (lit "   "); g_error := None; g_prompt := None |} in
  after [BecameVisible; FetchSettled 0 (Response true 200);
         JsonSettled 0 (Decoded (JGeneration g))]
    {| app := stuckSession; pending := [] |}
    (fun s' => (sockets s', ws s', isGenerating s', currentGenerationId s',
                statusText (elements s'), outputBuffer s', tokenCount s'))
  = Some (sockets stuckSession, Some 0%nat, false, Some (lit "g1"),
          lit "Loaded: completed", lit "def f():", 3).
Proof.
  intros g.
  refine (visible_adopts_finished_job stuckSession (lit "g1") g 200
            eq_refl eq_refl eq_refl (or_introl eq_refl) _).
  vm_compute. discriminate.
Defined.

(** Visibility recovery has nothing to do when the controller is not
    generating or its socket is open: no request is sent, nothing
    changes. *)
Lemma visible_is_idle_when_connected (s : App) :
  isGenerating s = false \/ ws_readyState s = Some OPEN ->
  onVisible s = (s, []).
Proof.
  intros [H | H]; unfold onVisible.
  - rewrite H. reflexivity.
  - rewrite H. destruct (isGenerating s); reflexivity.
Qed.

Lemma visible_is_idle_when_connected_witness :
  onVisible (constructor blankPage emptyStorage 0)
  = (constructor blankPage emptyStorage 0, []).
Proof.
  exact (visible_is_idle_when_connected
           (constructor blankPage emptyStorage 0) (or_introl eq_refl)).
Defined.

(** ** The health monitor never opens a socket *)

Lemma keepsSockets_refl s : keepsSockets s s.
Proof. split; reflexivity. Qed.

Lemma displayGeneration_keepsSockets g s :
  keepsSockets s (displayGeneration g s).
Proof.
  destruct (displayGeneration_keepsChannel g s) as [_ [A B]].
  split; assumption.
Qed.

Lemma markGenerationAsFailed_socketless errorMessage s :
  keepsSockets s (fst (markGenerationAsFailed errorMessage s))
  /\ Forall Socketless (snd (markGenerationAsFailed errorMessage s)).
Proof.
  unfold markGenerationAsFailed.
  destruct (currentGenerationId s) as [id|];
    [|split; [apply keepsSockets_refl | constructor]].
  destruct (truthy id && isGenerating s);
    [|split; [apply keepsSockets_refl | constructor]].
  split; [split; reflexivity|].
  constructor; [|constructor]. constructor.
  intros [[|] status|] s1; cbn [markGenerationAsFailed_responded act ret
    fst snd].
  - split; [|constructor].
    destruct (displayGeneration_keepsSockets
                (failedGeneration errorMessage (setGeneratingState false s1))
                (setGeneratingState false s1)) as [A B].
    split; [exact A | exact B].
  - split; [apply keepsSockets_refl | constructor].
  - split; [split; reflexivity | constructor].
Qed.

Lemma healthFailed_socketless s :
  keepsSockets s (fst (healthFailed s))
  /\ Forall Socketless (snd (healthFailed s)).
Proof.
  unfold healthFailed. destruct (isGenerating s).
  - apply markGenerationAsFailed_socketless.
  - split; [apply keepsSockets_refl | constructor].
Qed.

Lemma checkGenerationHealth_decoded_socketless j s :
  keepsSockets s (fst (checkGenerationHealth_decoded j s))
  /\ Forall Socketless (snd (checkGenerationHealth_decoded j s)).
Proof.
  destruct j as [body|]; cbn [checkGenerationHealth_decoded].
  - destruct (is_str _ _ && wsClosedOrMissing s).
    + apply markGenerationAsFailed_socketless.
    + split; [apply keepsSockets_refl | constructor].
  - apply healthFailed_socketless.
Qed.

Lemma checkGenerationHealth_fetched_socketless o s :
  keepsSockets s (fst (checkGenerationHealth_fetched o s))
  /\ Forall Socketless (snd (checkGenerationHealth_fetched o s)).
Proof.
  destruct o as [[|] status|]; cbn [checkGenerationHealth_fetched];
    try apply healthFailed_socketless.
  split; [apply keepsSockets_refl|].
  constructor; [|constructor]. constructor.
  exact checkGenerationHealth_decoded_socketless.
Qed.

Lemma checkGenerationHealth_probed_socketless o s :
  keepsSockets s (fst (checkGenerationHealth_probed o s))
  /\ Forall Socketless (snd (checkGenerationHealth_probed o s)).
Proof.
  destruct o as [[|] status|]; cbn [checkGenerationHealth_probed];
    try apply healthFailed_socketless.
  split; [split; reflexivity|].
  constructor; [|constructor]. constructor.
  exact checkGenerationHealth_fetched_socketless.
Qed.

(** X8.  The health monitor never opens a socket.  Whatever the state at the
    tick, whatever the server answers and whenever the answers arrive, the
    tick and every continuation it leaves behind create no socket and
    leave [this.ws] as it is: the monitor can only fail a session, never
    reconnect it. *)
Theorem health_monitor_never_opens_socket (s : App) :
  keepsSockets s (fst (healthTick s))
  /\ Forall Socketless (snd (healthTick s)).
Proof.
  unfold healthTick, checkGenerationHealth.
  destruct (isGenerating s); [|split; [apply keepsSockets_refl|constructor]].
  destruct (negb (truthy_opt (currentGenerationId s)) || negb true);
    [split; [apply keepsSockets_refl | constructor]|].
  split; [split; reflexivity|].
  constructor; [|constructor]. constructor.
  exact checkGenerationHealth_probed_socketless.
Qed.

(** ** Reporting a failure *)

Lemma run_probe_failed s id o es :
  isGenerating s = true ->
  currentGenerationId s = Some id ->
  truthy id = true ->
  (o = FetchRejected \/ exists status, o = Response false status) ->
  run (HealthTick :: FetchSettled 0 o :: es) {| app := s; pending := [] |}
  = run es
      {| app :=
           add_log
             (Fetch (PostFail id
                       (lit "Server connection lost - generation failed")
                       (outputBuffer s)))
             (add_log (Fetch GetHealth) s);
         pending :=
           [AwaitFetch
              (PostFail id (lit "Server connection lost - generation failed")
                 (outputBuffer s))
              (markGenerationAsFailed_responded
                 (lit "Server connection lost - generation failed"))] |}.
Proof.
  intros Hg Hid Ht Ho. rewrite run_cons. cbn [step].
  erewrite handle_eq.
  2:{ apply healthTick_probes; [rewrite Hid; exact Ht | exact Hg]. }
  rewrite run_cons. cbn [step pending lookup list_lookup Datatypes.app].
  erewrite resume_eq; [reflexivity|].
  assert (E : healthFailed (add_log (Fetch GetHealth) s)
              = (add_log
                   (Fetch (PostFail id
                      (lit "Server connection lost - generation failed")
                      (outputBuffer s)))
                   (add_log (Fetch GetHealth) s),
                 [AwaitFetch
                    (PostFail id
                       (lit "Server connection lost - generation failed")
                       (outputBuffer s))
                    (markGenerationAsFailed_responded
                       (lit "Server connection lost - generation failed"))])).
  { unfold healthFailed.
    change (isGenerating (add_log _ s)) with (isGenerating s). rewrite Hg.
    apply (markGenerationAsFailed_sends _ (add_log (Fetch GetHealth) s) id);
      assumption. }
  destruct Ho as [-> | [status ->]]; exact E.
Qed.

(** X9.  The outcomes of a failure report.  The probe of the health monitor
    fails while the controller is generating: the failure "Server
    connection lost - generation failed" is reported with the buffer.  If
    the report is acknowledged the session is shown as failed.  If the
    report is answered with an error status nothing changes at all: the
    controller is still generating.  If the report is itself rejected the
    controller stops generating, but its status text is left as it
    was. *)
Theorem failure_report_outcomes (s : App) (id : JsString) (o : FetchOutcome)
    (status : Z) :
  isGenerating s = true ->
  currentGenerationId s = Some id ->
  truthy id = true ->
  (o = FetchRejected \/ exists status, o = Response false status) ->
  let sent :=
    [Fetch GetHealth;
     Fetch (PostFail id (lit "Server connection lost - generation failed")
              (outputBuffer s))] in
  after [HealthTick; FetchSettled 0 o] {| app := s; pending := [] |}
    (fun s' => (session s', newEffects s s'))
  = Some (session s, sent)
  /\ after [HealthTick; FetchSettled 0 o; FetchSettled 0 (Response true status)]
       {| app := s; pending := [] |}
       (fun s' => (isGenerating s', statusText (elements s')))
     = Some (false, lit "Loaded: failed")
  /\ after [HealthTick; FetchSettled 0 o;
            FetchSettled 0 (Response false status)]
       {| app := s; pending := [] |}
       (fun s' => (session s', localStorage s', newEffects s s'))
     = Some (session s, localStorage s, sent)
  /\ after [HealthTick; FetchSettled 0 o; FetchSettled 0 FetchRejected]
       {| app := s; pending := [] |}
       (fun s' => (isGenerating s', statusText (elements s'),
                   localStorage s', newEffects s s'))
     = Some (false, statusText (elements s), localStorage s,
             sent ++ [Toast (lit "Generation failed - please try again")
                        ToastError]).
Proof.
  intros Hg Hid Ht Ho sent. unfold after.
  rewrite !(run_probe_failed s id o) by assumption.
  split; [|split; [|split]].
  - cbn -[lit newEffects].
    erewrite newEffects_app
      by (cbn -[lit]; rewrite <- app_assoc; reflexivity).
    reflexivity.
  - rewrite run_cons. cbn [step pending lookup list_lookup].
    match goal with
    | |- context [resume 0 ?p {| app := ?a; pending := _ |}] =>
        destruct (markGenerationAsFailed_acknowledged
                    (lit "Server connection lost - generation failed")
                    status a)
          as [R1 [R2 [R3 [R4 [R5 [R6 R7]]]]]];
        rewrite (resume_eq 0 p a _ _ _ (surjective_pairing (p a)))
    end.
    cbn [run fmap option_fmap option_map app]. rewrite R2, R5. reflexivity.
  - cbn -[lit newEffects].
    erewrite newEffects_app
      by (cbn -[lit]; rewrite <- app_assoc; reflexivity).
    reflexivity.
  - cbn -[lit newEffects].
    erewrite newEffects_app
      by (cbn -[lit]; rewrite <- !app_assoc; reflexivity).
    reflexivity.
Qed.

Lemma failure_report_outcomes_witness :
  after [HealthTick; FetchSettled 0 FetchRejected;
         FetchSettled 0 (Response false 500)]
    {| app := stuckSession; pending := [] |}
    (fun s' => (session s', localStorage s', newEffects stuckSession s'))
  = Some (session stuckSession, localStorage stuckSession,
          [Fetch GetHealth;
           Fetch (PostFail (lit "g1")
                    (lit "Server connection lost - generation failed")
                    (outputBuffer stuckSession))]).
Proof.
  exact (proj1 (proj2 (proj2
           (failure_report_outcomes stuckSession (lit "g1") FetchRejected 500
              eq_refl eq_refl eq_refl (or_introl eq_refl))))).
Defined.

(** ** Snapshots *)

(** X10.  What comes back from a snapshot.  A controller that holds no id
    saves a snapshot; within 24 hours a fresh controller restores it.  If
    the prompt that was saved is not empty, the buffer comes back; the
    count comes back when the buffer is not empty; the prompt does not
    come back: the restore writes it to the input and [updateUIState]
    empties the input again; the snapshot is kept.  If the prompt that
    was saved is empty, nothing comes back, whatever the buffer: the
    snapshot is removed and the controller is left as it was.  The restore
    leaves no continuation either way. *)
Theorem snapshot_restores_buffer_not_prompt (s : App) (page : Elements)
    (later : Z) :
  truthy_opt (currentGenerationId s) = false ->
  later - clock s < 24 * 60 * 60 * 1000 ->
  let fresh := constructor page (localStorage (saveLastGeneration s)) later in
  let r := loadLastGeneration fresh in
  snd r = []
  /\ isGenerating (fst r) = false
  /\ if truthy (promptInput (elements s))
     then
       outputBuffer (fst r) = outputBuffer s
       /\ tokenCount (fst r)
          = (if truthy (outputBuffer s) then tokenCount s else 0)
       /\ promptInput (elements (fst r)) = []
       /\ statusText (elements (fst r)) = lit "Ready"
       /\ localStorage (fst r) = localStorage (saveLastGeneration s)
       /\ log (fst r) = []
     else
       outputBuffer (fst r) = []
       /\ tokenCount (fst r) = 0
       /\ elements (fst r) = page
       /\ appState (localStorage (fst r)) = None
       /\ log (fst r) = [RemoveItem KAppState; RemoveItem KLastGenerationId].
Proof.
  intros Hid Hrecent fresh r. subst r fresh.
  unfold loadLastGeneration.
  cbn [appState localStorage constructor saveLastGeneration add_log set_log
       set_appState set_localStorage st_timestamp st_generationId st_prompt
       st_outputBuffer clock].
  assert (E : (later - clock s <? 24 * 60 * 60 * 1000) = true)
    by (apply Z.ltb_lt; exact Hrecent).
  rewrite E, Hid. cbn [andb].
  destruct (truthy (promptInput (elements s))) eqn:Hp.
  - destruct (outputBuffer s) as [|c b] eqn:Eb; cbn [truthy];
      cbv iota; unfold act; cbn [fst snd].
    + unfold restorePromptOnly. rewrite updateUIState_elements.
      repeat split.
    + unfold restoreNewGenerationState. rewrite updateUIState_elements.
      repeat split.
  - cbv iota. unfold act. cbn [fst snd]. repeat split.
Qed.

Lemma snapshot_restores_buffer_not_prompt_witness :
  let s :=
    set_tokenCount 7
      (set_outputBuffer (lit "x = 1")
         (constructor (pageWith (lit "assign")) emptyStorage 1000)) in
  let r :=
    loadLastGeneration
      (constructor blankPage (localStorage (saveLastGeneration s)) 5000) in
  outputBuffer (fst r) = lit "x = 1"
  /\ tokenCount (fst r) = 7
  /\ promptInput (elements (fst r)) = [].
Proof.
  intros s r.
  assert (H : 5000 - clock s < 24 * 60 * 60 * 1000) by (vm_compute; reflexivity).
  destruct (snapshot_restores_buffer_not_prompt s blankPage 5000 eq_refl H)
    as [_ [_ [H2 [H3 [H4 _]]]]].
  split; [exact H2 | split; [exact H3 | exact H4]].
Defined.

(** ** A record that cannot be loaded *)

Lemma startNewGeneration_fields s :
  let s' := startNewGeneration s in
  currentGenerationId s' = None /\ outputBuffer s' = []
  /\ tokenCount s' = 0
  /\ elements s'
     = {| promptInput := []; statusText := lit "Ready";
          promptSection := true; generateBtn := GenerateCode;
          modelName := modelName (elements s);
          modelModal := modelModal (elements s) |}
  /\ appState (localStorage s') = None
  /\ selectedModel (localStorage s') = selectedModel (localStorage s)
  /\ isGenerating s' = isGenerating s /\ ws s' = ws s
  /\ sockets s' = sockets s
  /\ log s'
     = log s ++ [RemoveItem KAppState; RemoveItem KLastGenerationId;
                 Toast (lit "Ready for new generation") ToastInfo].
Proof.
  cbv zeta. unfold startNewGeneration. rewrite updateUIState_elements.
  cbn -[lit]. rewrite <- !app_assoc. repeat split.
Qed.

(** X11.  Loading a record that is gone.  When the record request is answered
    404 the saved state is cleared and the controller starts afresh: no
    id, empty buffer, zero count, empty prompt, "Ready"; nothing is
    notified but "Ready for new generation".  Every other failure (a
    rejected request, another error status, a body that cannot be
    decoded) does the same after notifying "Failed to load generation".
    Neither touches the generating flag or the sockets. *)
Theorem loading_a_missing_record_starts_afresh (s : App) (id : JsString)
    (status : Z) (o : FetchOutcome) :
  (o = FetchRejected \/ exists c, c <> 404 /\ o = Response false c) ->
  let view := fun s' =>
    (currentGenerationId s', outputBuffer s', tokenCount s',
     promptInput (elements s'), statusText (elements s'),
     appState (localStorage s'), isGenerating s', ws s', sockets s',
     newEffects s s') in
  let afresh := fun notified =>
    Some (None, [], 0, [], lit "Ready", None, isGenerating s, ws s,
          sockets s,
          Fetch (GetHistoryItem id)
          :: notified
             ++ [RemoveItem KAppState; RemoveItem KLastGenerationId;
                 RemoveItem KAppState; RemoveItem KLastGenerationId;
                 Toast (lit "Ready for new generation") ToastInfo]) in
  let failure := [Toast (lit "Failed to load generation") ToastError] in
  after [ClickHistoryItem id; FetchSettled 0 (Response false 404)]
    {| app := s; pending := [] |} view = afresh []
  /\ after [ClickHistoryItem id; FetchSettled 0 o]
       {| app := s; pending := [] |} view = afresh failure
  /\ after [ClickHistoryItem id; FetchSettled 0 (Response true status);
            JsonSettled 0 JsonRejected]
       {| app := s; pending := [] |} view = afresh failure.
Proof.
  intros Ho view afresh failure. unfold after.
  assert (F : forall x l,
            log x = log s ++ l ->
            view (startNewGeneration x)
            = (None, [], 0, [], lit "Ready", None, isGenerating x, ws x,
               sockets x,
               l ++ [RemoveItem KAppState; RemoveItem KLastGenerationId;
                     Toast (lit "Ready for new generation") ToastInfo])).
  { intros x l Hl. unfold view.
    destruct (startNewGeneration_fields x)
      as [A [B [C [D [E [_ [G [H [I L]]]]]]]]].
    cbv zeta in *. rewrite A, B, C, D, E, G, H, I.
    erewrite newEffects_app by (rewrite L, Hl, <- app_assoc; reflexivity).
    reflexivity. }
  assert (Eo : loadGeneration_responded id o = loadGenerationFailed).
  { destruct Ho as [-> | [c [Hc ->]]]; [reflexivity|].
    cbn [loadGeneration_responded].
    destruct (c =? 404) eqn:E; [|reflexivity].
    apply Z.eqb_eq in E. contradiction. }
  assert (Gone : forall x,
            log x = log s ++ [Fetch (GetHistoryItem id)] ->
            isGenerating x = isGenerating s -> ws x = ws s ->
            sockets x = sockets s ->
            Some (view (startNewGeneration (clearSavedState x))) = afresh []).
  { intros x Hl Hg Hw Hs.
    rewrite (F (clearSavedState x)
               [Fetch (GetHistoryItem id); RemoveItem KAppState;
                RemoveItem KLastGenerationId])
      by (cbn -[lit]; rewrite Hl, <- !app_assoc; reflexivity).
    cbn -[lit]. rewrite Hg, Hw, Hs. reflexivity. }
  assert (Failed : forall x,
            log x = log s ++ [Fetch (GetHistoryItem id)] ->
            isGenerating x = isGenerating s -> ws x = ws s ->
            sockets x = sockets s ->
            Some (view (startNewGeneration
                          (clearSavedState
                             (showToast (lit "Failed to load generation")
                                ToastError x))))
            = afresh failure).
  { intros x Hl Hg Hw Hs.
    rewrite (F _ [Fetch (GetHistoryItem id);
                  Toast (lit "Failed to load generation") ToastError;
                  RemoveItem KAppState; RemoveItem KLastGenerationId])
      by (cbn -[lit]; rewrite Hl, <- !app_assoc; reflexivity).
    cbn -[lit]. rewrite Hg, Hw, Hs. reflexivity. }
  split; [|split].
  - cbn -[lit startNewGeneration clearSavedState view afresh].
    apply Gone; reflexivity.
  - rewrite run_cons. cbn [step]. unfold handle, loadGeneration, fetch.
    cbn [app pending Datatypes.app].
    rewrite run_cons. cbn [step pending lookup list_lookup].
    rewrite Eo.
    cbn -[lit startNewGeneration clearSavedState showToast view afresh].
    apply Failed; reflexivity.
  - cbn -[lit startNewGeneration clearSavedState showToast view afresh].
    apply Failed; reflexivity.
Qed.

Lemma loading_a_missing_record_starts_afresh_witness :
  after [ClickHistoryItem (lit "g0"); FetchSettled 0 (Response false 500)]
    {| app := stuckSession; pending := [] |}
    (fun s' =>
       (currentGenerationId s', outputBuffer s', tokenCount s',
        promptInput (elements s'), statusText (elements s'),
        appState (localStorage s'), isGenerating s', ws s', sockets s',
        newEffects stuckSession s'))
  = Some (None, [], 0, [], lit "Ready", None, true, Some 0%nat,
          sockets stuckSession,
          [Fetch (GetHistoryItem (lit "g0"));
           Toast (lit "Failed to load generation") ToastError;
           RemoveItem KAppState; RemoveItem KLastGenerationId;
           RemoveItem KAppState; RemoveItem KLastGenerationId;
           Toast (lit "Ready for new generation") ToastInfo]).
Proof.
  refine (proj1 (proj2
            (loading_a_missing_record_starts_afresh stuckSession (lit "g0")
               200 (Response false 500) _))).
  right. exists 500. split; [discriminate | reflexivity].
Defined.

(** ** The close event *)

(** X12.  The close event of a socket.  Whatever the session shows, Completed,
    Stopped or Failed included, and whether the socket is the one
    [this.ws] refers to or an older one, its [close] event clears the
    generating flag and sets the status to "Ready"; the button text, the
    buffer, the count and the id are left as they are. *)
Theorem socket_close_resets_status (w : World) (n : nat) (sock : Socket) :
  sockets (app w) !! n = Some sock ->
  readyState sock <> CLOSED ->
  after [SocketClosed n] w
    (fun s' => (isGenerating s', statusText (elements s'),
                generateBtn (elements s'), outputBuffer s', tokenCount s',
                currentGenerationId s', ws s', readyState <$> sockets s' !! n,
                length (sockets s'), log s'))
  = Some (false, lit "Ready", generateBtn (elements (app w)),
          outputBuffer (app w), tokenCount (app w),
          currentGenerationId (app w), ws (app w), Some CLOSED,
          length (sockets (app w)), log (app w)).
Proof.
  intros Hn Hr. unfold after. rewrite run_cons. cbn [step]. rewrite Hn.
  destruct sock as [sid [| | |]]; try contradiction;
    cbn -[lit]; rewrite list_lookup_alter, Hn, length_alter;
    rewrite decide_True by reflexivity; reflexivity.
Qed.

Lemma socket_close_resets_status_witness :
  let w :=
    {| app :=
         set_statusText (lit "Completed")
           (set_isGenerating false
              (set_sockets
                 [{| socketId := Some (lit "g1"); readyState := OPEN |}]
                 stuckSession));
       pending := [] |} in
  after [SocketClosed 0] w
    (fun s' => (isGenerating s', statusText (elements s'),
                generateBtn (elements s'), outputBuffer s', tokenCount s',
                currentGenerationId s', ws s', readyState <$> sockets s' !! 0%nat,
                length (sockets s'), log s'))
  = Some (false, lit "Ready", generateBtn (elements (app w)),
          outputBuffer (app w), tokenCount (app w),
          currentGenerationId (app w), ws (app w), Some CLOSED,
          length (sockets (app w)), log (app w)).
Proof.
  intros w.
  refine (socket_close_resets_status w 0
            {| socketId := Some (lit "g1"); readyState := OPEN |} eq_refl _).
  discriminate.
Defined.

(** ** Snapshots while streaming *)

Lemma deliver_snoc ms m s :
  deliver (ms ++ [m]) s = fst (handleWebSocketMessage m (deliver ms s)).
Proof. unfold deliver. rewrite fold_left_app. reflexivity. Qed.

Lemma token_frame data s :
  let s' := fst (handleWebSocketMessage (Token data) s) in
  currentGenerationId s' = currentGenerationId s
  /\ elements s' = elements s
  /\ isGenerating s' = isGenerating s
  /\ clock s' = clock s
  /\ ws s' = ws s
  /\ sockets s' = sockets s.
Proof.
  cbn -[Z.rem Z.add]. destruct (Z.rem _ 10 =? 0); repeat split.
Qed.

Lemma deliver_tokens_frame ts : forall s,
  let s' := deliver (map Token ts) s in
  currentGenerationId s' = currentGenerationId s
  /\ elements s' = elements s
  /\ isGenerating s' = isGenerating s
  /\ clock s' = clock s
  /\ ws s' = ws s
  /\ sockets s' = sockets s.
Proof.
  induction ts as [|t ts IH]; intros s; [repeat split|].
  change (deliver (map Token (t :: ts)) s)
    with (deliver (map Token ts) (fst (handleWebSocketMessage (Token t) s))).
  cbv zeta.
  destruct (IH (fst (handleWebSocketMessage (Token t) s)))
    as [A [B [C [D [E F]]]]].
  destruct (token_frame t s) as [A' [B' [C' [D' [E' F']]]]].
  cbv zeta in *. repeat split; congruence.
Qed.

(** X13.  The snapshot lags the stream by less than ten tokens.  After the
    tokens of a stream that started with an empty buffer and a zero count,
    with [n] their number (or [2 ^ 53], where the counter stops, if they
    are more), the snapshot slot is as it was before the stream when
    [n < 10]; otherwise it holds the concatenation of the first
    [10 * (n / 10)] tokens and that count, with the id, the prompt, the
    generating flag and the clock of the session. *)
Theorem streaming_snapshot_lags_by_less_than_ten (s : App)
    (ts : list JsString) :
  outputBuffer s = [] ->
  tokenCount s = 0 ->
  let n := Z.min (Z.of_nat (length ts)) (2 ^ 53) in
  appState (localStorage (deliver (map Token ts) s))
  = if n <? 10 then appState (localStorage s)
    else Some (Saved {| st_generationId := currentGenerationId s;
                        st_prompt := promptInput (elements s);
                        st_outputBuffer :=
                          concat (take (Z.to_nat (10 * (n / 10))) ts);
                        st_tokenCount := 10 * (n / 10);
                        st_isGenerating := isGenerating s;
                        st_timestamp := clock s |}).
Proof.
  intros Hb Hc. induction ts as [|t ts IH] using rev_ind; [reflexivity|].
  cbv zeta in *. rewrite map_app. cbn [map]. rewrite deliver_snoc.
  destruct (deliver_tokens ts s) as [Eb Ec].
  rewrite Hb in Eb. rewrite Hc, iter_increment_zero in Ec.
  destruct (deliver_tokens_frame ts s) as [Fi [Fe [Fg [Fc _]]]].
  cbv zeta in Fi, Fe, Fg, Fc.
  rewrite length_app. cbn [length].
  set (k := Z.of_nat (length ts)) in *.
  replace (Z.of_nat (length ts + 1)) with (k + 1) by (subst k; lia).
  cbn -[Z.rem Z.add Z.mul Z.div Z.ltb Z.min Z.pow].
  rewrite Ec, Eb. cbn [Datatypes.app].
  destruct (Z_lt_ge_dec k (2 ^ 53)) as [Hk | Hk].
  - assert (M1 : Z.min k (2 ^ 53) = k) by lia.
    assert (M2 : Z.min (k + 1) (2 ^ 53) = k + 1) by lia.
    rewrite M1 in *. rewrite M2.
    rewrite increment_exact by (subst k; lia).
    set (n := k) in *.
    destruct (Z.rem (n + 1) 10 =? 0) eqn:E.
    + apply Z.eqb_eq in E. rewrite Z.rem_mod_nonneg in E by (subst n k; lia).
      assert (K : 10 * ((n + 1) / 10) = n + 1)
        by (Z.div_mod_to_equations; lia).
      assert (L : (n + 1 <? 10) = false)
        by (apply Z.ltb_ge; Z.div_mod_to_equations; subst n k; lia).
      rewrite L, K. cbn -[Z.add].
      rewrite Fi, Fe, Fg, Fc.
      replace (Z.to_nat (n + 1)) with (length (ts ++ [t]))
        by (rewrite length_app; cbn [length]; subst n k; lia).
      rewrite firstn_all, concat_app. cbn [concat]. rewrite app_nil_r.
      reflexivity.
    + apply Z.eqb_neq in E. rewrite Z.rem_mod_nonneg in E by (subst n k; lia).
      assert (K : (n + 1) / 10 = n / 10) by (Z.div_mod_to_equations; lia).
      cbn -[Z.rem Z.add Z.mul Z.div Z.ltb deliver].
      rewrite IH, K.
      destruct (n <? 10) eqn:L1; destruct (n + 1 <? 10) eqn:L2;
        try reflexivity.
      * apply Z.ltb_lt in L1. apply Z.ltb_ge in L2.
        exfalso. apply E. replace n with 9 by lia. reflexivity.
      * apply Z.ltb_ge in L1. apply Z.ltb_lt in L2. lia.
      * rewrite take_app_le; [reflexivity|].
        subst n k. Z.div_mod_to_equations. lia.
  - assert (M1 : Z.min k (2 ^ 53) = 2 ^ 53) by lia.
    assert (M2 : Z.min (k + 1) (2 ^ 53) = Z.min k (2 ^ 53)) by lia.
    rewrite M2.
    replace (increment (Z.min k (2 ^ 53))) with (2 ^ 53)
      by (rewrite M1; symmetry; exact increment_limit).
    change (Z.rem (2 ^ 53) 10 =? 0) with false. cbv iota.
    cbn -[Z.rem Z.add Z.mul Z.div Z.ltb Z.min Z.pow deliver].
    rewrite IH.
    set (n := Z.min k (2 ^ 53)) in *.
    destruct (n <? 10); [reflexivity|].
    rewrite take_app_le; [reflexivity|].
    subst k. Z.div_mod_to_equations. lia.
Qed.

Lemma streaming_snapshot_lags_by_less_than_ten_witness :
  let s := constructor (pageWith (lit "count")) emptyStorage 42 in
  let ts := map (fun c => [c]) (lit "abcdefghijklmno") in
  appState (localStorage (deliver (map Token ts) s))
  = Some (Saved {| st_generationId := None; st_prompt := lit "count";
                   st_outputBuffer := lit "abcdefghij";
                   st_tokenCount := 10; st_isGenerating := false;
                   st_timestamp := 42 |}).
Proof.
  exact (streaming_snapshot_lags_by_less_than_ten
           (constructor (pageWith (lit "count")) emptyStorage 42)
           (map (fun c => [c]) (lit "abcdefghijklmno")) eq_refl eq_refl).
Defined.

(** ** Trimmed text *)

Lemma trim_ends s :
  match trim s with
  | [] => True
  | c :: _ => isWhiteSpace c = false
  end
  /\ match rev (trim s) with
     | [] => True
     | c :: _ => isWhiteSpace c = false
     end.
Proof.
  destruct (trim_split s) as [a [b [_ [_ [_ [H1 H2]]]]]]. split; assumption.
Qed.

(** Text that neither starts nor ends with white space is its own
    trimmed text. *)
Lemma trim_fixed s :
  match s with [] => True | c :: _ => isWhiteSpace c = false end ->
  match rev s with [] => True | c :: _ => isWhiteSpace c = false end ->
  trim s = s.
Proof.
  intros Hh Hl. unfold trim.
  assert (E1 : trimStart s = s).
  { destruct s as [|c s']; [reflexivity|]. apply trimStart_fixed, Hh. }
  rewrite E1. unfold trimEnd.
  destruct (rev s) as [|c r] eqn:Er.
  - apply (f_equal (@rev N)) in Er. rewrite rev_involutive in Er.
    subst s. reflexivity.
  - rewrite (trimStart_fixed c r Hl). rewrite <- Er. apply rev_involutive.
Qed.

Lemma trim_nil_of_blank s : forallb isWhiteSpace s = true -> trim s = [].
Proof.
  intros H. unfold trim.
  assert (E : trimStart s = []).
  { induction s as [|c s IH]; [reflexivity|]. cbn in H.
    apply andb_prop in H as [Hc Hs]. cbn [trimStart]. rewrite Hc.
    apply IH, Hs. }
  rewrite E. reflexivity.
Qed.

(** Trimmed text that is not empty, followed by a line feed and a fence,
    is trimmed. *)
Lemma trim_with_fence t :
  trim t = t -> t <> [] -> trim (t ++ LF ++ lit "```") = t ++ LF ++ lit "```".
Proof.
  intros Ht Hne. destruct (trim_ends t) as [Hh _]. rewrite Ht in Hh.
  apply trim_fixed.
  - destruct t as [|c t']; [contradiction | exact Hh].
  - rewrite !rev_app_distr. reflexivity.
Qed.

Lemma startsWith_app search s : startsWith (search ++ s) search = true.
Proof.
  unfold startsWith. apply bool_decide_eq_true. apply take_app_length.
Qed.

Lemma startsWith_true s search :
  startsWith s search = true -> exists r, s = search ++ r.
Proof.
  unfold startsWith. intros H. apply bool_decide_eq_true in H.
  exists (drop (length search) s). rewrite <- H at 1.
  symmetry. apply take_drop.
Qed.

(** ** Complete code blocks *)

(** X14.  [ensureCompleteCodeBlock] is idempotent, its result is trimmed,
    and a result that starts with a fence ends with one. *)
Theorem ensureCompleteCodeBlock_idempotent (content : JsString) :
  ensureCompleteCodeBlock (ensureCompleteCodeBlock content)
  = ensureCompleteCodeBlock content
  /\ trim (ensureCompleteCodeBlock content) = ensureCompleteCodeBlock content
  /\ (startsWith (ensureCompleteCodeBlock content) (lit "```") = true ->
      endsWith (ensureCompleteCodeBlock content) (lit "```") = true).
Proof.
  assert (T : trim (ensureCompleteCodeBlock content)
              = ensureCompleteCodeBlock content).
  { unfold ensureCompleteCodeBlock. cbv zeta.
    destruct (startsWith (trim content) (lit "```")) eqn:Es;
      [|apply trim_idempotent].
    destruct (endsWith (trim content) (lit "```")); [apply trim_idempotent|].
    cbn [negb andb]. apply trim_with_fence; [apply trim_idempotent|].
    intros E. rewrite E in Es. discriminate Es. }
  assert (F : startsWith (ensureCompleteCodeBlock content) (lit "```") = true
              -> endsWith (ensureCompleteCodeBlock content) (lit "```") = true).
  { unfold ensureCompleteCodeBlock. cbv zeta.
    destruct (startsWith (trim content) (lit "```")) eqn:Es.
    - destruct (endsWith (trim content) (lit "```")) eqn:Ee.
      + intros _. exact Ee.
      + intros _. cbn [negb andb]. rewrite app_assoc. apply endsWith_app.
    - cbn [andb]. intros H. rewrite H in Es. discriminate Es. }
  split; [|split; [exact T | exact F]].
  unfold ensureCompleteCodeBlock at 1. cbv zeta. rewrite T.
  destruct (startsWith (ensureCompleteCodeBlock content) (lit "```")) eqn:Es;
    [|reflexivity].
  rewrite F by reflexivity. reflexivity.
Qed.

Lemma ensureCompleteCodeBlock_idempotent_witness :
  let content := lit "```py" ++ LF ++ lit "x" in
  ensureCompleteCodeBlock (ensureCompleteCodeBlock content)
  = ensureCompleteCodeBlock content
  /\ trim (ensureCompleteCodeBlock content) = ensureCompleteCodeBlock content
  /\ endsWith (ensureCompleteCodeBlock content) (lit "```") = true.
Proof.
  intros content.
  destruct (ensureCompleteCodeBlock_idempotent content) as [A [B C]].
  split; [exact A|]. split; [exact B|]. apply C. vm_compute. reflexivity.
Defined.

(** X15.  What is sent on stop needs no further completion: for every buffer,
    [ensureCompleteCodeBlock] applied to the stop output only trims
    it. *)
Theorem stop_output_is_complete (buffer : JsString) :
  ensureCompleteCodeBlock (stopOutput buffer) = trim (stopOutput buffer).
Proof.
  unfold ensureCompleteCodeBlock. cbv zeta.
  assert (E : endsWith (trim (stopOutput buffer)) (lit "```") = true
              \/ startsWith (trim (stopOutput buffer)) (lit "```") = false).
  { unfold stopOutput. destruct buffer as [|c b]; [right; reflexivity|].
    cbn [truthy andb].
    destruct (endsWith (trim (c :: b)) (lit "```")) eqn:Ee.
    - left. exact Ee.
    - left. cbn [negb]. rewrite app_assoc. apply trim_keeps_fence. }
  destruct E as [E | E]; rewrite E.
  - rewrite andb_false_r. reflexivity.
  - reflexivity.
Qed.

(** ** Leaving the page *)

(** X16.  The unload notification.  While the controller is generating and
    holds an id, leaving the page posts the stop request with the buffer
    as it is, without the fence rule of [stopGeneration], and changes
    nothing else; otherwise it does nothing.  The two payloads are the
    same exactly when the buffer is empty or its trimmed text ends with a
    fence. *)
Theorem unload_sends_raw_buffer (s : App) (id : JsString) :
  currentGenerationId s = Some id ->
  truthy id = true ->
  (isGenerating s = true ->
   onPageHide s = add_log (Fetch (PostStop id (outputBuffer s))) s)
  /\ (isGenerating s = false -> onPageHide s = s)
  /\ (stopOutputs (newEffects s (fst (stopGeneration s)))
      = [stopOutput (outputBuffer s)])
  /\ (stopOutput (outputBuffer s) = outputBuffer s
      <-> outputBuffer s = []
          \/ endsWith (trim (outputBuffer s)) (lit "```") = true).
Proof.
  intros Hid Ht. unfold onPageHide. rewrite Hid, Ht.
  split; [intros ->; reflexivity|].
  split; [intros ->; reflexivity|].
  split; [|apply stopOutput_unchanged_iff].
  unfold stopGeneration. rewrite Hid, Ht. unfold fetch. cbn [fst].
  erewrite newEffects_app by reflexivity. reflexivity.
Qed.

Lemma unload_sends_raw_buffer_witness :
  onPageHide stuckSession
  = add_log (Fetch (PostStop (lit "g1") (lit "def f():"))) stuckSession
  /\ stopOutputs (newEffects stuckSession (fst (stopGeneration stuckSession)))
     = [lit "def f():" ++ LF ++ lit "```"].
Proof.
  destruct (unload_sends_raw_buffer stuckSession (lit "g1") eq_refl eq_refl)
    as [H1 [_ [H3 _]]].
  split; [exact (H1 eq_refl) | exact H3].
Defined.

(** ** Removing fences *)

Lemma dropWhile_app p x y :
  dropWhile p (x ++ y)
  = if forallb p x then dropWhile p y else dropWhile p x ++ y.
Proof.
  induction x as [|c x IH]; [reflexivity|].
  cbn [Datatypes.app dropWhile forallb].
  destruct (p c); [exact IH | reflexivity].
Qed.

Lemma dropWhile_isWhiteSpace s : dropWhile isWhiteSpace s = trimStart s.
Proof.
  induction s as [|c s IH]; [reflexivity|].
  cbn [dropWhile trimStart]. rewrite IH. reflexivity.
Qed.

Lemma trimEnd_fence z : trimEnd (z ++ lit "```") = z ++ lit "```".
Proof.
  change (lit "```") with ([96; 96] ++ [96])%N.
  rewrite app_assoc. apply trimEnd_app_last. reflexivity.
Qed.

Lemma take_app_all {A} (x y : list A) : take (length (x ++ y) - length y) (x ++ y) = x.
Proof.
  rewrite length_app.
  replace (length x + length y - length y)%nat with (length x) by lia.
  apply take_app_length.
Qed.

(** The closing fence of text that ends with a line feed and a fence. *)
Lemma removeClosingFence_fenced z :
  removeClosingFence (z ++ LF ++ lit "```") = z.
Proof.
  unfold removeClosingFence. cbv zeta.
  rewrite (app_assoc z LF (lit "```")).
  rewrite trimEnd_fence, endsWith_app.
  change 3%nat with (length (lit "```")).
  rewrite take_app_all, endsWith_app.
  change 1%nat with (length LF). apply take_app_all.
Qed.

Lemma removeClosingFence_bare : removeClosingFence (lit "```") = [].
Proof. reflexivity. Qed.

(** X17.  Unwrapping a fenced block.  A block that the model streams, a
    fence with a language tag of word characters, a line feed, trimmed
    code, a line feed and a fence, is cleaned to exactly the code, by
    [cleanMarkdownForOutput] (copy, download) and by
    [cleanMarkdownStreaming] (display) alike. *)
Theorem fenced_code_round_trip (lang code : JsString) :
  forallb isWordChar lang = true ->
  trim code = code ->
  cleanMarkdownForOutput (lit "```" ++ lang ++ LF ++ code ++ LF ++ lit "```")
  = code
  /\ cleanMarkdownStreaming
       (lit "```" ++ lang ++ LF ++ code ++ LF ++ lit "```")
     = code.
Proof.
  intros Hl Hc.
  set (W := lit "```" ++ lang ++ LF ++ code ++ LF ++ lit "```").
  assert (Tw : trim W = W).
  { apply trim_fixed; [reflexivity|].
    unfold W. rewrite !rev_app_distr. reflexivity. }
  assert (E : trim (removeClosingFence (removeOpeningFence (trim W))) = code).
  { rewrite Tw. unfold removeOpeningFence.
    unfold W at 1. rewrite startsWith_app.
    unfold W. change 3%nat with (length (lit "```")).
    rewrite drop_app_length.
    rewrite dropWhile_app, Hl. cbn [LF Datatypes.app dropWhile].
    change (isWordChar 10) with false. cbv iota.
    rewrite dropWhile_isWhiteSpace.
    change (10%N :: code ++ 10%N :: lit "```")
      with (LF ++ code ++ LF ++ lit "```").
    rewrite trimStart_app. change (forallb isWhiteSpace LF) with true.
    cbv iota.
    destruct code as [|c code'].
    - reflexivity.
    - destruct (trim_ends (c :: code')) as [Hh _]. rewrite Hc in Hh.
      change ((c :: code') ++ LF ++ lit "```")
        with (c :: (code' ++ LF ++ lit "```")).
      rewrite (trimStart_fixed c _ Hh).
      change (c :: (code' ++ LF ++ lit "```"))
        with ((c :: code') ++ LF ++ lit "```").
      rewrite removeClosingFence_fenced. exact Hc. }
  split.
  - unfold cleanMarkdownForOutput.
    change (truthy W) with true. cbv iota. exact E.
  - exact E.
Qed.

Lemma fenced_code_round_trip_witness :
  cleanMarkdownForOutput
    (lit "```" ++ lit "py" ++ LF ++ lit "print(1)" ++ LF ++ lit "```")
  = lit "print(1)"
  /\ cleanMarkdownStreaming
       (lit "```" ++ lit "py" ++ LF ++ lit "print(1)" ++ LF ++ lit "```")
     = lit "print(1)".
Proof.
  exact (fenced_code_round_trip (lit "py") (lit "print(1)") eq_refl eq_refl).
Defined.

Lemma dropWhile_all p x : forallb p x = true -> dropWhile p x = [].
Proof.
  induction x as [|c x IH]; [reflexivity|]. cbn. intros H.
  apply andb_prop in H as [Hc Hx]. rewrite Hc. apply IH, Hx.
Qed.

Lemma dropWhile_split p x : exists a, x = a ++ dropWhile p x.
Proof.
  induction x as [|c x [a IH]]; [exists []; reflexivity|].
  cbn [dropWhile]. destruct (p c).
  - exists (c :: a). cbn. congruence.
  - exists []. reflexivity.
Qed.

Lemma trimEnd_fixed s :
  match rev s with [] => True | c :: _ => isWhiteSpace c = false end ->
  trimEnd s = s.
Proof.
  intros H. unfold trimEnd. destruct (rev s) as [|c r] eqn:E.
  - apply (f_equal (@rev N)) in E. rewrite rev_involutive in E.
    subst s. reflexivity.
  - rewrite (trimStart_fixed c r H), <- E. apply rev_involutive.
Qed.

(** The last character of a suffix that is not empty is the last character
    of the text. *)
Lemma rev_suffix_head (a z : JsString) :
  z <> [] ->
  match rev (a ++ z) with [] => True | c :: _ => isWhiteSpace c = false end ->
  match rev z with [] => True | c :: _ => isWhiteSpace c = false end.
Proof.
  intros Hz H. rewrite rev_app_distr in H.
  destruct (rev z) as [|c r] eqn:E; [exact I|]. exact H.
Qed.

Lemma endsWith_suffix a z search :
  endsWith z search = true -> endsWith (a ++ z) search = true.
Proof.
  intros H. apply endsWith_true in H as [q ->].
  rewrite app_assoc. apply endsWith_app.
Qed.

Lemma removeClosingFence_unfenced s :
  trimEnd s = s -> endsWith s (lit "```") = false ->
  removeClosingFence s = s.
Proof.
  intros Ht He. unfold removeClosingFence. cbv zeta. rewrite Ht, He.
  reflexivity.
Qed.

Lemma startsWith_before_fence t :
  t <> [] ->
  startsWith (t ++ LF ++ lit "```") (lit "```") = startsWith t (lit "```").
Proof.
  intros Hne. unfold startsWith.
  destruct t as [|a [|b [|c t']]]; try contradiction.
  - apply bool_decide_ext. cbn. split; intros H; inversion H.
  - apply bool_decide_ext. cbn. split; intros H; inversion H.
  - reflexivity.
Qed.

(** Cleaning trimmed text that does not end with a fence, with and
    without the fence that the stop appends. *)
Lemma clean_with_appended_fence t :
  trim t = t -> endsWith t (lit "```") = false ->
  trim (removeClosingFence (removeOpeningFence (trim (t ++ LF ++ lit "```"))))
  = trim (removeClosingFence (removeOpeningFence t)).
Proof.
  intros Ht He.
  destruct t as [|c0 t0] eqn:Et; [reflexivity|]. rewrite <- Et in *.
  assert (Hne : t <> []) by (rewrite Et; discriminate).
  clear Et c0 t0.
  destruct (trim_ends t) as [Hh Hl]. rewrite Ht in Hh, Hl.
  rewrite (trim_with_fence t Ht Hne).
  unfold removeOpeningFence. rewrite (startsWith_before_fence t Hne).
  destruct (startsWith t (lit "```")) eqn:Es.
  - apply startsWith_true in Es as [x Ex].
    assert (D : forall r, drop 3 (lit "```" ++ r) = r) by reflexivity.
    subst t. rewrite <- app_assoc, !D.
    rewrite dropWhile_app.
    destruct (forallb isWordChar x) eqn:Ew.
    + rewrite (dropWhile_all _ _ Ew). reflexivity.
    + destruct (dropWhile_split isWordChar x) as [a Ea].
      set (y := dropWhile isWordChar x) in *.
      rewrite !dropWhile_isWhiteSpace, trimStart_app.
      assert (Tl : match rev y with
                   | [] => True
                   | c :: _ => isWhiteSpace c = false
                   end).
      { destruct y as [|c y'] eqn:Ey; [exact I|]. rewrite <- Ey in *.
        apply (rev_suffix_head (lit "```" ++ a)); [rewrite Ey; discriminate|].
        rewrite <- app_assoc, <- Ea. exact Hl. }
      destruct (forallb isWhiteSpace y) eqn:Ey.
      * (* [y] is blank: it is empty, and so is what is left *)
        destruct (rev y) as [|c r] eqn:Er.
        -- apply (f_equal (@rev N)) in Er. rewrite rev_involutive in Er.
           rewrite Er. reflexivity.
        -- exfalso. rewrite forallb_forall in Ey.
           rewrite (Ey c) in Tl; [discriminate|].
           apply in_rev. rewrite Er. left. reflexivity.
      * destruct (trimStart_split y) as [b [Eb _]].
        set (z := trimStart y) in *.
        assert (Hz : z <> []).
        { intros E. subst z. apply trimStart_nil in E. congruence. }
        assert (Zl : match rev z with
                     | [] => True
                     | c :: _ => isWhiteSpace c = false
                     end).
        { apply (rev_suffix_head b); [exact Hz|]. rewrite <- Eb. exact Tl. }
        rewrite removeClosingFence_fenced.
        rewrite removeClosingFence_unfenced; [reflexivity | |].
        -- apply trimEnd_fixed, Zl.
        -- destruct (endsWith z (lit "```")) eqn:Ez; [|reflexivity].
           exfalso.
           apply (endsWith_suffix (lit "```" ++ a ++ b)) in Ez.
           rewrite <- !app_assoc, <- Eb, <- Ea in Ez. congruence.
  - rewrite removeClosingFence_fenced.
    rewrite removeClosingFence_unfenced; [reflexivity | | exact He].
    apply trimEnd_fixed, Hl.
Qed.

(** X18.  The fence that a stop appends is invisible to copy and download:
    for every buffer, cleaning the text sent on stop gives what cleaning
    the buffer gives. *)
Theorem clean_ignores_stop_fence (buffer : JsString) :
  cleanMarkdownForOutput (stopOutput buffer) = cleanMarkdownForOutput buffer.
Proof.
  unfold stopOutput. destruct buffer as [|c b]; [reflexivity|].
  cbn [truthy andb].
  destruct (endsWith (trim (c :: b)) (lit "```")) eqn:Ee; [reflexivity|].
  cbn [negb]. unfold cleanMarkdownForOutput. cbn [truthy].
  assert (Tr : truthy (trim (c :: b) ++ LF ++ lit "```") = true).
  { destruct (trim (c :: b)); reflexivity. }
  rewrite Tr.
  rewrite (clean_with_appended_fence (trim (c :: b)) (trim_idempotent _) Ee).
  reflexivity.
Qed.

(** ** Repairing stuck records *)

Lemma fixStuckGeneration_cases g a :
  let g' := fst (fixStuckGeneration g a) in
  g_id g' = g_id g /\ g_output g' = g_output g /\ g_prompt g' = g_prompt g
  /\ (if leavesAlone a then g' = g
      else g_status g' = Some (lit "failed")).
Proof.
  destruct a as [|[|] [body|] [ok status|]]; cbn -[lit];
    try destruct (isProcessing (as_generation body)); cbn -[lit];
    repeat split.
Qed.

Lemma fixStuckGenerations_lookup answer history : forall k i g,
  history !! i = Some g ->
  (fst (fixStuckGenerations answer k history)) !! i
  = Some (if isProcessing g
          then fst (fixStuckGeneration g
                      (answer (k + length (filter (fun g => isProcessing g = true)
                                             (take i history)))%nat))
          else g).
Proof.
  induction history as [|h rest IH]; intros k i g Hi; [discriminate Hi|].
  cbn [fixStuckGenerations].
  destruct (fixStuckGenerations answer (S k) rest) as [r1 s1] eqn:E1.
  destruct (fixStuckGenerations answer k rest) as [r0 s0] eqn:E0.
  destruct i as [|i].
  - cbn in Hi. injection Hi as ->. cbn [take filter length].
    rewrite Nat.add_0_r.
    destruct (isProcessing g) eqn:Eg.
    + destruct (fixStuckGeneration g (answer k)) as [g' sent]. reflexivity.
    + reflexivity.
  - change ((h :: rest) !! S i) with (rest !! i) in Hi.
    change (take (S i) (h :: rest)) with (h :: take i rest).
    destruct (isProcessing h) eqn:Eh.
    + rewrite filter_cons_True by exact Eh.
      destruct (fixStuckGeneration h (answer k)) as [h' sent].
      change ((h' :: r1, sent ++ s1).1 !! S i) with (r1 !! i).
      specialize (IH (S k) i g Hi). rewrite E1 in IH. cbn [fst] in IH.
      rewrite IH. cbn [length].
      replace (S k + length (filter (fun g => isProcessing g = true)
                               (take i rest)))%nat
        with (k + S (length (filter (fun g => isProcessing g = true)
                               (take i rest))))%nat by lia.
      reflexivity.
    + rewrite filter_cons_False by (rewrite Eh; discriminate).
      change ((h :: r0, s0).1 !! S i) with (r0 !! i).
      specialize (IH k i g Hi). rewrite E0 in IH. cbn [fst] in IH.
      exact IH.
Qed.

Lemma fixStuckGenerations_length answer history : forall k,
  length (fst (fixStuckGenerations answer k history)) = length history.
Proof.
  induction history as [|h rest IH]; intros k; [reflexivity|].
  cbn [fixStuckGenerations].
  specialize (IH (S k)) as IH1. specialize (IH k) as IH0.
  destruct (fixStuckGenerations answer (S k) rest) as [r1 s1].
  destruct (fixStuckGenerations answer k rest) as [r0 s0].
  destruct (isProcessing h).
  - destruct (fixStuckGeneration h (answer k)). cbn in *. congruence.
  - cbn in *. congruence.
Qed.

Lemma checkAndFix_history answer history :
  fst (checkAndFixStuckGenerations answer history)
  = fst (fixStuckGenerations answer 0 history).
Proof.
  unfold checkAndFixStuckGenerations. cbv zeta.
  destruct (filter _ history) as [|g0 stuck] eqn:E.
  - cbn [fst]. apply list_eq. intros i.
    destruct (history !! i) as [g|] eqn:Hi.
    + rewrite (fixStuckGenerations_lookup answer history 0 i g Hi).
      destruct (isProcessing g) eqn:Eg; [|reflexivity].
      exfalso.
      assert (Hin : g ∈ filter (fun g => isProcessing g = true) history).
      { apply list_elem_of_filter. split; [exact Eg|].
        apply list_elem_of_lookup. exists i. exact Hi. }
      rewrite E in Hin. inversion Hin.
    + symmetry. apply lookup_ge_None.
      rewrite fixStuckGenerations_length. apply lookup_ge_None. exact Hi.
  - destruct (fixStuckGenerations answer 0 history). reflexivity.
Qed.

(** X19.  What the startup repair does to the history.  The history keeps
    its length; a record that is not processing is left as it is; the
    [k]-th processing record keeps its id, output and prompt, and is left
    as it is, still processing, exactly when its status request is
    answered with an error status or with a body that does not say
    "processing"; in every other case (the server says processing, or a
    request is rejected, or the body cannot be decoded) it is marked
    failed. *)
Theorem startup_repair_outcome (answer : nat -> RepairAnswer)
    (history : list Generation) (i : nat) (g : Generation) :
  history !! i = Some g ->
  let history' := fst (checkAndFixStuckGenerations answer history) in
  let k := length (filter (fun g => isProcessing g = true) (take i history)) in
  length history' = length history
  /\ (isProcessing g = false -> history' !! i = Some g)
  /\ (isProcessing g = true ->
      exists g',
        history' !! i = Some g'
        /\ g_id g' = g_id g /\ g_output g' = g_output g
        /\ g_prompt g' = g_prompt g
        /\ (leavesAlone (answer k) = true -> g' = g)
        /\ (leavesAlone (answer k) = false ->
            g_status g' = Some (lit "failed"))).
Proof.
  intros Hi history' k. subst history'. rewrite checkAndFix_history.
  split; [apply fixStuckGenerations_length|].
  pose proof (fixStuckGenerations_lookup answer history 0 i g Hi) as L.
  cbn [Nat.add] in L. fold k in L.
  split.
  - intros Hg. rewrite Hg in L. exact L.
  - intros Hg. rewrite Hg in L.
    exists (fst (fixStuckGeneration g (answer k))).
    split; [exact L|].
    destruct (fixStuckGeneration_cases g (answer k)) as [A [B [C D]]].
    cbv zeta in *. repeat split; try assumption.
    + intros H. rewrite H in D. exact D.
    + intros H. rewrite H in D. exact D.
Qed.

Lemma startup_repair_outcome_witness :
  let done :=
    {| g_id := Some (lit "a"); g_status := Some (lit "completed");
       g_output := Some (lit "x"); g_error := None; g_prompt := None |} in
  let stuck :=
    {| g_id := Some (lit "b"); g_status := Some (lit "processing");
       g_output := None; g_error := None; g_prompt := None |} in
  let answer := fun _ : nat =>
    StatusResponse true (Decoded (JGeneration stuck)) (Response true 200) in
  exists g',
    fst (checkAndFixStuckGenerations answer [done; stuck]) !! 1%nat = Some g'
    /\ g_id g' = Some (lit "b")
    /\ g_status g' = Some (lit "failed").
Proof.
  intros done stuck answer.
  destruct (startup_repair_outcome answer [done; stuck] 1 stuck eq_refl)
    as [_ [_ H]].
  destruct (H eq_refl) as [g' [H1 [H2 [_ [_ [_ H6]]]]]].
  exists g'. split; [exact H1|]. split; [exact H2|].
  apply H6. reflexivity.
Defined.

Lemma fixStuckGenerations_alone answer history : forall k,
  (forall j, leavesAlone (answer j) = true) ->
  fst (fixStuckGenerations answer k history) = history.
Proof.
  intros k Ha. apply list_eq. intros i.
  destruct (history !! i) as [g|] eqn:Hi.
  - rewrite (fixStuckGenerations_lookup answer history k i g Hi).
    destruct (isProcessing g); [|reflexivity].
    destruct (fixStuckGeneration_cases g
                (answer (k + length (filter (fun g => isProcessing g = true)
                                       (take i history)))%nat))
      as [_ [_ [_ D]]].
    cbv zeta in D. rewrite Ha in D. rewrite D. reflexivity.
  - apply lookup_ge_None. rewrite fixStuckGenerations_length.
    apply lookup_ge_None. exact Hi.
Qed.

(** X20.  The startup repair reports every record it looked at as fixed.
    When the history has processing records, the last thing the repair
    does is to notify "Fixed n stuck generation(s)" with [n] the number of
    those records, even when the server's answers made it leave every one
    of them as it was; when the history has none, it sends and notifies
    nothing. *)
Theorem startup_repair_reports_all (answer : nat -> RepairAnswer)
    (history : list Generation) :
  let n := length (filter (fun g => isProcessing g = true) history) in
  (n = 0%nat -> checkAndFixStuckGenerations answer history = (history, []))
  /\ (n <> 0%nat ->
      list.last (snd (checkAndFixStuckGenerations answer history))
      = Some (Toast (lit "Fixed " ++ decimal n ++ lit " stuck generation(s)")
                ToastInfo))
  /\ ((forall k, leavesAlone (answer k) = true) ->
      fst (checkAndFixStuckGenerations answer history) = history).
Proof.
  cbv zeta. split; [|split].
  - intros Hn. unfold checkAndFixStuckGenerations. cbv zeta.
    destruct (filter _ history); [reflexivity | discriminate Hn].
  - intros Hn. unfold checkAndFixStuckGenerations. cbv zeta.
    destruct (filter _ history) as [|g0 stuck] eqn:E; [contradiction|].
    destruct (fixStuckGenerations answer 0 history) as [h' sent].
    cbn [snd]. apply last_snoc.
  - intros Ha. rewrite checkAndFix_history.
    apply fixStuckGenerations_alone, Ha.
Qed.

Lemma startup_repair_reports_all_witness :
  let stuck :=
    {| g_id := Some (lit "b"); g_status := Some (lit "processing");
       g_output := None; g_error := None; g_prompt := None |} in
  let answer := fun _ : nat => StatusResponse false JsonRejected FetchRejected in
  list.last (snd (checkAndFixStuckGenerations answer [stuck]))
  = Some (Toast (lit "Fixed " ++ decimal 1 ++ lit " stuck generation(s)")
            ToastInfo)
  /\ fst (checkAndFixStuckGenerations answer [stuck]) = [stuck].
Proof.
  intros stuck answer.
  destruct (startup_repair_reports_all answer [stuck]) as [_ [A B]].
  split.
  - apply A. vm_compute. discriminate.
  - apply B. intros k. reflexivity.
Defined.

Example decimal_examples :
  decimal 0 = lit "0" /\ decimal 7 = lit "7" /\ decimal 10 = lit "10"
  /\ decimal 2048 = lit "2048".
Proof. repeat split. Qed.

(** ** Loading a record *)

(** What [displayGeneration] leaves in the controller. *)
Lemma displayGeneration_fields g s :
  let s' := displayGeneration g s in
  currentGenerationId s' = g_id g
  /\ outputBuffer s'
     = match g_output g with
       | Some o => if truthy (trim o) then o else outputBuffer s
       | None => outputBuffer s
       end
  /\ tokenCount s' = tokenCount s
  /\ statusText (elements s') = lit "Loaded: " ++ interpolate (g_status g)
  /\ promptInput (elements s')
     = match g_prompt g with
       | Some p => if truthy p then p else promptInput (elements s)
       | None => promptInput (elements s)
       end
  /\ isGenerating s' = isGenerating s /\ ws s' = ws s
  /\ sockets s' = sockets s
  /\ log s' = log s ++ [SetItem KAppState]
  /\ appState (localStorage s')
     = Some (Saved {| st_generationId := currentGenerationId s';
                      st_prompt := promptInput (elements s');
                      st_outputBuffer := outputBuffer s';
                      st_tokenCount := tokenCount s;
                      st_isGenerating := isGenerating s;
                      st_timestamp := clock s |}).
Proof.
  cbv zeta. unfold displayGeneration. rewrite updateUIState_elements.
  assert (P : promptInput (elements (updateUIState (Some g)
                                       (set_currentGenerationId (g_id g) s)))
              = match g_prompt g with
                | Some p => if truthy p then p else promptInput (elements s)
                | None => promptInput (elements s)
                end).
  { unfold updateUIState.
    destruct (status_in g _), (status_in g _), (g_prompt g) as [p|];
      try destruct (truthy p); reflexivity. }
  destruct (g_output g) as [[|c o]|]; cbn [truthy andb];
    try destruct (truthy (trim (c :: o))); cbn -[lit updateUIState];
    rewrite ?P; repeat split.
Qed.

(** X21.  Loading a record.  When the record request and its body are
    answered, the controller mirrors the record without opening a socket
    or touching the generating flag: it holds the [_id] of the answer and
    shows "Loaded: <status>"; it takes the output and the prompt of the
    answer when they are not blank, and otherwise keeps the buffer and
    the prompt it had; the count is not taken from the answer and stays
    what it was.  The snapshot it persists holds exactly these values. *)
Theorem loading_a_record_mirrors_it (s : App) (id : JsString)
    (g : Generation) (status : Z) :
  let buffer :=
    match g_output g with
    | Some o => if truthy (trim o) then o else outputBuffer s
    | None => outputBuffer s
    end in
  let prompt :=
    match g_prompt g with
    | Some p => if truthy p then p else promptInput (elements s)
    | None => promptInput (elements s)
    end in
  after [ClickHistoryItem id; FetchSettled 0 (Response true status);
         JsonSettled 0 (Decoded (JGeneration g))]
    {| app := s; pending := [] |}
    (fun s' => (currentGenerationId s', outputBuffer s', tokenCount s',
                promptInput (elements s'), statusText (elements s'),
                isGenerating s', ws s', sockets s',
                appState (localStorage s'), newEffects s s'))
  = Some (g_id g, buffer, tokenCount s, prompt,
          lit "Loaded: " ++ interpolate (g_status g),
          isGenerating s, ws s, sockets s,
          Some (Saved {| st_generationId := g_id g; st_prompt := prompt;
                         st_outputBuffer := buffer;
                         st_tokenCount := tokenCount s;
                         st_isGenerating := isGenerating s;
                         st_timestamp := clock s |}),
          [Fetch (GetHistoryItem id); SetItem KAppState;
           Toast (lit "Generation loaded") ToastSuccess]).
Proof.
  intros buffer prompt. unfold after.
  rewrite run_cons. cbn [step]. unfold handle, loadGeneration, fetch.
  cbn [app pending Datatypes.app].
  rewrite run_cons. cbn [step pending lookup list_lookup].
  erewrite resume_eq by reflexivity.
  rewrite run_cons.
  cbn [step pending lookup list_lookup delete list_delete Datatypes.app].
  erewrite resume_eq by reflexivity.
  cbn [run fmap option_fmap option_map app as_generation
       loadGeneration_decoded act fst].
  set (x := set_currentGenerationId (Some id)
              (add_log (Fetch (GetHistoryItem id)) s)).
  destruct (displayGeneration_fields g x)
    as [A [B [C [D [E [F [G [H [I J]]]]]]]]].
  cbv zeta in *.
  set (d := displayGeneration g x) in *.
  assert (N : newEffects s (showToast (lit "Generation loaded") ToastSuccess d)
              = [Fetch (GetHistoryItem id); SetItem KAppState;
                 Toast (lit "Generation loaded") ToastSuccess]).
  { apply newEffects_app. unfold showToast, add_log at 1. cbn [log set_log].
    rewrite I. unfold x. cbn [log set_currentGenerationId add_log set_log].
    rewrite <- !app_assoc. reflexivity. }
  rewrite N.
  cbn [showToast add_log currentGenerationId outputBuffer tokenCount elements
       isGenerating ws sockets localStorage set_log].
  rewrite J, A, B, C, D, E, F, G, H.
  reflexivity.
Qed.

(** ** The health monitor when nothing is stuck *)

(** X22.  The tick of the health monitor on a session it does not fail.
    With the probe and the status request answered, the tick changes
    nothing (it only sends its two requests) unless the job is processing
    and the socket is closed or missing.  In particular a job that the
    server reports as finished while the socket is closed is not adopted:
    the controller is still generating afterwards. *)
Theorem health_tick_leaves_session (s : App) (id : JsString)
    (body : Json) (c1 c2 : Z) :
  isGenerating s = true ->
  currentGenerationId s = Some id ->
  truthy id = true ->
  g_status (as_generation body) <> Some (lit "processing")
  \/ wsClosedOrMissing s = false ->
  after [HealthTick; FetchSettled 0 (Response true c1);
         FetchSettled 0 (Response true c2); JsonSettled 0 (Decoded body)]
    {| app := s; pending := [] |}
    (fun s' => (session s', localStorage s', newEffects s s'))
  = Some (session s, localStorage s,
          [Fetch GetHealth; Fetch (GetHistoryItem id)]).
Proof.
  intros Hg Hid Ht Hc. unfold after.
  rewrite run_cons. cbn [step].
  erewrite handle_eq
    by (apply healthTick_probes; [rewrite Hid; exact Ht | exact Hg]).
  rewrite run_cons. cbn [step pending lookup list_lookup Datatypes.app].
  erewrite resume_eq by reflexivity.
  cbn [currentGenerationId add_log set_log].
  rewrite Hid. cbn [getHistoryItem delete list_delete Datatypes.app].
  rewrite run_cons. cbn [step pending lookup list_lookup].
  erewrite resume_eq by reflexivity.
  cbn [delete list_delete Datatypes.app].
  rewrite run_cons. cbn [step pending lookup list_lookup].
  erewrite resume_eq.
  2:{ cbn [checkGenerationHealth_decoded].
      change (wsClosedOrMissing _) with (wsClosedOrMissing s).
      assert (E : is_str (g_status (as_generation body)) (lit "processing")
                  && wsClosedOrMissing s = false).
      { destruct Hc as [Hc | Hc].
        - unfold is_str. rewrite bool_decide_eq_false_2 by exact Hc.
          reflexivity.
        - rewrite Hc. apply andb_false_r. }
      rewrite E. reflexivity. }
  cbn -[lit newEffects].
  erewrite newEffects_app
    by (cbn -[lit]; rewrite <- app_assoc; reflexivity).
  reflexivity.
Qed.

Lemma health_tick_leaves_session_witness :
  after [HealthTick; FetchSettled 0 (Response true 200);
         FetchSettled 0 (Response true 200);
         JsonSettled 0
           (Decoded (JGeneration (only_status (lit "completed"))))]
    {| app := stuckSession; pending := [] |}
    (fun s' => (session s', localStorage s', newEffects stuckSession s'))
  = Some (session stuckSession, localStorage stuckSession,
          [Fetch GetHealth; Fetch (GetHistoryItem (lit "g1"))]).
Proof.
  refine (health_tick_leaves_session stuckSession (lit "g1")
            (JGeneration (only_status (lit "completed"))) 200 200
            eq_refl eq_refl eq_refl _).
  left. vm_compute. discriminate.
Defined.

(** ** Visibility recovery that fails *)

(** X23.  Visibility recovery whose status request fails.  When the request
    is rejected or answered with an error status, or its body cannot be
    decoded, the controller stops generating and notifies "Generation
    connection lost"; it opens no socket, reports nothing to the server
    and leaves the status text, the buffer and the storage as they
    were. *)
Theorem visible_recovery_failure (s : App) (id : JsString)
    (o : FetchOutcome) (status : Z) :
  isGenerating s = true ->
  currentGenerationId s = Some id ->
  truthy id = true ->
  ws_readyState s = Some CLOSED \/ ws_readyState s = Some CLOSING ->
  (o = FetchRejected \/ exists c, o = Response false c) ->
  let view := fun s' =>
    (isGenerating s', sockets s', ws s', statusText (elements s'),
     outputBuffer s', tokenCount s', currentGenerationId s',
     localStorage s', newEffects s s') in
  let lost :=
    Some (false, sockets s, ws s, statusText (elements s), outputBuffer s,
          tokenCount s, Some id, localStorage s,
          [Fetch (GetHistoryItem id);
           Toast (lit "Generation connection lost") ToastError]) in
  after [BecameVisible; FetchSettled 0 o] {| app := s; pending := [] |} view
  = lost
  /\ after [BecameVisible; FetchSettled 0 (Response true status);
            JsonSettled 0 JsonRejected]
       {| app := s; pending := [] |} view
     = lost.
Proof.
  intros Hg Hid Ht Hws Ho view lost. unfold after.
  rewrite !(run_visible s id) by assumption.
  assert (Eo : reconnectWebSocket_responded o = reconnectFailed)
    by (destruct Ho as [-> | [c ->]]; reflexivity).
  split.
  - rewrite run_cons. cbn [step pending lookup list_lookup]. rewrite Eo.
    cbn -[lit newEffects]. unfold view, lost.
    erewrite newEffects_app
      by (cbn -[lit]; rewrite <- app_assoc; reflexivity).
    cbn -[lit]. rewrite Hid. reflexivity.
  - cbn -[lit newEffects]. unfold view, lost.
    erewrite newEffects_app
      by (cbn -[lit]; rewrite <- app_assoc; reflexivity).
    cbn -[lit]. rewrite Hid. reflexivity.
Qed.

Lemma visible_recovery_failure_witness :
  after [BecameVisible; FetchSettled 0 (Response false 404)]
    {| app := stuckSession; pending := [] |}
    (fun s' =>
       (isGenerating s', sockets s', ws s', statusText (elements s'),
        outputBuffer s', tokenCount s', currentGenerationId s',
        localStorage s', newEffects stuckSession s'))
  = Some (false, sockets stuckSession, ws stuckSession,
          statusText (elements stuckSession), outputBuffer stuckSession,
          tokenCount stuckSession, Some (lit "g1"),
          localStorage stuckSession,
          [Fetch (GetHistoryItem (lit "g1"));
           Toast (lit "Generation connection lost") ToastError]).
Proof.
  refine (proj1 (visible_recovery_failure stuckSession (lit "g1")
                   (Response false 404) 200 eq_refl eq_refl eq_refl
                   (or_introl eq_refl) _)).
  right. exists 404. reflexivity.
Defined.

(** ** Parsing *)

Lemma startsWith_length s search :
  startsWith s search = true -> (length search <= length s)%nat.
Proof.
  intros H. apply startsWith_true in H as [r ->]. rewrite length_app. lia.
Qed.

Lemma startsWith_fence_head c s :
  c <> 96%N -> startsWith (c :: s) (lit "```") = false.
Proof.
  intros H. unfold startsWith. apply bool_decide_eq_false.
  change (length (lit "```")) with 3%nat.
  change (lit "```") with [96; 96; 96]%N.
  cbn [take firstn]. intros E. apply H. injection E as E _. exact E.
Qed.

Lemma splitAtFence_length s content rest :
  splitAtFence s = Some (content, rest) ->
  (length rest + 3 <= length s)%nat.
Proof.
  revert content rest. induction s as [|c s IH]; intros content rest.
  - cbn. intros H. discriminate H.
  - cbn [splitAtFence].
    destruct (startsWith (c :: s) (lit "```")) eqn:E.
    + intros H. inversion H. subst.
      apply startsWith_length in E. change (length (lit "```")) with 3%nat in E.
      rewrite length_drop. cbn [length] in *. lia.
    + destruct (splitAtFence s) as [[content' rest']|]; [|discriminate].
      intros H. inversion H. subst.
      specialize (IH _ _ eq_refl). cbn [length]. lia.
Qed.
Lemma dropWhile_length p s : (length (dropWhile p s) <= length s)%nat.
Proof.
  destruct (dropWhile_split p s) as [a E].
  rewrite E at 2. rewrite length_app. lia.
Qed.

Lemma matchCodeBlock_length s language content rest :
  matchCodeBlock s = Some (language, content, rest) ->
  (length rest < length s)%nat.
Proof.
  unfold matchCodeBlock.
  destruct (startsWith s (lit "```")); [|discriminate].
  pose proof (dropWhile_length isWordChar (drop 3 s)) as L.
  destruct (dropWhile isWordChar (drop 3 s)) as [|c body]; [discriminate|].
  destruct (N.eq_dec c 10%N) as [->|Hc].
  - destruct (splitAtFence body) as [[content' rest']|] eqn:E; [|discriminate].
    intros H. inversion H. subst.
    apply splitAtFence_length in E.
    rewrite length_drop in L. cbn [length] in L. lia.
  - intros H. exfalso.
    destruct c as [|q]; [discriminate|].
    do 4 (destruct q as [q|q|]; try discriminate). congruence.
Qed.
Lemma exec_length s before m :
  exec s = Some (before, m) -> (length (snd m) < length s)%nat.
Proof.
  revert before m. induction s as [|c s IH]; intros before m.
  - cbn. discriminate.
  - cbn [exec]. destruct (matchCodeBlock (c :: s)) as [[[l ct] r]|] eqn:E.
    + intros H. inversion H. subst. cbn [snd].
      apply matchCodeBlock_length in E. exact E.
    + destruct (exec s) as [[before' m']|]; [|discriminate].
      intros H. inversion H. subst.
      specialize (IH _ _ eq_refl). cbn [length]. lia.
Qed.

(** The fuel of [parseFrom] is never used up: any amount above the length
    of the content gives the same blocks. *)
Lemma parseFrom_fuel n m s :
  (length s < n)%nat -> (length s < m)%nat -> parseFrom n s = parseFrom m s.
Proof.
  revert m s. induction n as [|n IH]; intros m s Hn Hm; [lia|].
  destruct m as [|m]; [lia|]. cbn [parseFrom].
  destruct (exec s) as [[before [[language content] rest]]|] eqn:E;
    [|reflexivity].
  apply exec_length in E. cbn [snd] in E.
  rewrite (IH m rest) by lia. reflexivity.
Qed.

(** The loop of [parseContent], without the fuel. *)
Lemma parseContent_eq s :
  parseContent s
  = match exec s with
    | Some (before, (language, content, rest)) =>
        textBlock before
        ++ CodeBlock language (trim content) :: parseContent rest
    | None => textBlock s
    end.
Proof.
  unfold parseContent. cbn [parseFrom].
  destruct (exec s) as [[before [[language content] rest]]|] eqn:E;
    [|reflexivity].
  apply exec_length in E. cbn [snd] in E.
  rewrite (parseFrom_fuel (length s) (S (length rest)) rest) by lia.
  reflexivity.
Qed.
Lemma takeWhile_forallb p s : forallb p (takeWhile p s) = true.
Proof.
  induction s as [|c s IH]; [reflexivity|]. cbn [takeWhile].
  destruct (p c) eqn:E; [|reflexivity]. cbn [forallb]. rewrite E. exact IH.
Qed.

Lemma exec_language s before language content rest :
  exec s = Some (before, (language, content, rest)) ->
  forallb isWordChar language = true.
Proof.
  revert before. induction s as [|c s IH]; intros before.
  - cbn. discriminate.
  - cbn [exec]. destruct (matchCodeBlock (c :: s)) as [m|] eqn:E.
    + intros H. inversion H. subst. unfold matchCodeBlock in E.
      destruct (startsWith (c :: s) (lit "```")); [|discriminate].
      destruct (dropWhile isWordChar (drop 3 (c :: s))) as [|c' body];
        [discriminate|].
      destruct c' as [|q]; [discriminate|].
      do 4 (destruct q as [q|q|]; try discriminate).
      destruct (splitAtFence body) as [[content' rest']|]; [|discriminate].
      inversion E. apply takeWhile_forallb.
    + destruct (exec s) as [[before' m']|]; [|discriminate].
      intros H. inversion H. subst. exact (IH _ eq_refl).
Qed.

Lemma textBlock_wellFormed text : Forall wellFormed (textBlock text).
Proof.
  unfold textBlock. destruct (trim text) as [|c t] eqn:E; cbn [truthy].
  - constructor.
  - constructor; [|constructor]. cbn [wellFormed]. split; [discriminate|].
    rewrite <- E. apply trim_idempotent.
Qed.

(** X24.  The blocks that are shown.  Whatever the content, every text block
    of [parseContent] is non-empty and trimmed, the content of every code
    block is trimmed and its language is made of word characters only
    (possibly none). *)
Theorem parseContent_wellFormed (content : JsString) :
  Forall wellFormed (parseContent content).
Proof.
  unfold parseContent. generalize (S (length content)) as n.
  intros n. revert content. induction n as [|n IH]; intros content.
  - constructor.
  - cbn [parseFrom].
    destruct (exec content) as [[before [[language ct] rest]]|] eqn:E.
    + apply Forall_app. split; [apply textBlock_wellFormed|].
      constructor; [|apply IH]. cbn [wellFormed]. split.
      * exact (exec_language _ _ _ _ _ E).
      * apply trim_idempotent.
    + apply textBlock_wellFormed.
Qed.
Lemma matchCodeBlock_no_fence s :
  startsWith s (lit "```") = false -> matchCodeBlock s = None.
Proof. intros H. unfold matchCodeBlock. rewrite H. reflexivity. Qed.

Lemma exec_no_backtick s : ~ In 96%N s -> exec s = None.
Proof.
  induction s as [|c s IH]; intros H; [reflexivity|].
  cbn [exec]. rewrite matchCodeBlock_no_fence.
  - rewrite IH; [reflexivity|]. intros K. apply H. right. exact K.
  - apply startsWith_fence_head. intros ->. apply H. left. reflexivity.
Qed.

Lemma splitAtFence_first code after :
  ~ In 96%N code ->
  splitAtFence (code ++ lit "```" ++ after) = Some (code, after).
Proof.
  induction code as [|c code IH]; intros H.
  - reflexivity.
  - cbn [Datatypes.app splitAtFence].
    rewrite startsWith_fence_head
      by (intros ->; apply H; left; reflexivity).
    rewrite IH by (intros K; apply H; right; exact K). reflexivity.
Qed.

Lemma takeWhile_app p x c y :
  forallb p x = true -> p c = false -> takeWhile p (x ++ c :: y) = x.
Proof.
  intros Hx Hc. induction x as [|a x IH]; cbn.
  - rewrite Hc. reflexivity.
  - cbn in Hx. apply andb_prop in Hx as [Ha Hx]. rewrite Ha, (IH Hx).
    reflexivity.
Qed.

Lemma matchCodeBlock_fenced language code after :
  forallb isWordChar language = true ->
  ~ In 96%N code ->
  matchCodeBlock (lit "```" ++ language ++ LF ++ code ++ lit "```" ++ after)
  = Some (language, code, after).
Proof.
  intros Hl Hc. unfold matchCodeBlock.
  rewrite startsWith_app.
  change (drop 3 (lit "```" ++ ?x)) with x.
  rewrite dropWhile_app, Hl.
  change (dropWhile isWordChar (LF ++ ?x)) with (10%N :: x).
  cbv iota beta.
  rewrite splitAtFence_first by exact Hc.
  change (LF ++ ?x) with (10%N :: x).
  rewrite takeWhile_app by (exact Hl || reflexivity).
  reflexivity.
Qed.
Lemma exec_after_text before s m :
  ~ In 96%N before -> matchCodeBlock s = Some m ->
  exec (before ++ s) = Some (before, m).
Proof.
  intros H E. induction before as [|c before IH].
  - cbn [Datatypes.app]. destruct s as [|c s]; cbn [exec]; rewrite E.
    + reflexivity.
    + reflexivity.
  - cbn [Datatypes.app exec].
    rewrite matchCodeBlock_no_fence
      by (apply startsWith_fence_head; intros ->; apply H; left; reflexivity).
    rewrite IH by (intros K; apply H; right; exact K). reflexivity.
Qed.

(** X25.  One fenced block in prose.  Text without backticks, a fence with a
    language of word characters, a line feed, code without backticks, a
    fence and more text without backticks are parsed into the trimmed text
    before (when not blank), one code block with that language and the
    trimmed code, and the trimmed text after (when not blank). *)
Theorem parseContent_one_block (before language code after : JsString) :
  ~ In 96%N before ->
  forallb isWordChar language = true ->
  ~ In 96%N code ->
  ~ In 96%N after ->
  parseContent
    (before ++ lit "```" ++ language ++ LF ++ code ++ lit "```" ++ after)
  = textBlock before ++ CodeBlock language (trim code) :: textBlock after.
Proof.
  intros Hb Hl Hc Ha.
  rewrite parseContent_eq.
  rewrite (exec_after_text before _ (language, code, after) Hb)
    by (apply matchCodeBlock_fenced; assumption).
  rewrite (parseContent_eq after), (exec_no_backtick after Ha).
  reflexivity.
Qed.

Lemma parseContent_one_block_witness :
  parseContent
    (lit "Here: " ++ lit "```" ++ lit "py" ++ LF ++ lit "print(1) "
     ++ lit "```" ++ lit " done")
  = textBlock (lit "Here: ")
    ++ CodeBlock (lit "py") (trim (lit "print(1) "))
       :: textBlock (lit " done").
Proof.
  refine (parseContent_one_block (lit "Here: ") (lit "py") (lit "print(1) ")
            (lit " done") _ _ _ _).
  - vm_compute. intuition discriminate.
  - reflexivity.
  - vm_compute. intuition discriminate.
  - vm_compute. intuition discriminate.
Defined.

Lemma forallb_rev {A} (p : A -> bool) (l : list A) :
  forallb p (rev l) = forallb p l.
Proof.
  induction l as [|a l IH]; [reflexivity|].
  cbn [rev forallb]. rewrite forallb_app, IH. cbn [forallb].
  rewrite andb_true_r. apply andb_comm.
Qed.

Lemma trimEnd_app x y :
  trimEnd (x ++ y)
  = if forallb isWhiteSpace y then trimEnd x else x ++ trimEnd y.
Proof.
  unfold trimEnd. rewrite rev_app_distr, trimStart_app, forallb_rev.
  destruct (forallb isWhiteSpace y); [reflexivity|].
  rewrite rev_app_distr, rev_involutive. reflexivity.
Qed.

Lemma trimEnd_nil_of_blank s : forallb isWhiteSpace s = true -> trimEnd s = [].
Proof.
  intros H. pose proof (trimEnd_app [] s) as E. rewrite H in E. exact E.
Qed.

Lemma trimEnd_split s :
  exists b, s = trimEnd s ++ b /\ forallb isWhiteSpace b = true.
Proof.
  destruct (trimStart_split (rev s)) as [a [E Ha]].
  exists (rev a). split.
  - unfold trimEnd. rewrite <- rev_app_distr, <- E, rev_involutive.
    reflexivity.
  - rewrite forallb_rev. exact Ha.
Qed.

Lemma trim_app_blank x b :
  forallb isWhiteSpace b = true -> trim (x ++ b) = trim x.
Proof.
  intros Hb. unfold trim. rewrite trimStart_app.
  destruct (forallb isWhiteSpace x) eqn:Ex.
  - assert (E1 : trimStart b = []).
    { rewrite <- dropWhile_isWhiteSpace. apply dropWhile_all, Hb. }
    assert (E2 : trimStart x = []).
    { rewrite <- dropWhile_isWhiteSpace. apply dropWhile_all, Ex. }
    rewrite E1, E2. reflexivity.
  - rewrite trimEnd_app, Hb. reflexivity.
Qed.

Lemma trim_trimEnd s : trim (trimEnd s) = trim s.
Proof.
  destruct (trimEnd_split s) as [b [E Hb]].
  rewrite E at 2. rewrite trim_app_blank by exact Hb. reflexivity.
Qed.
Lemma isWordChar_not_space c : isWordChar c = true -> isWhiteSpace c = false.
Proof.
  intros H. destruct (isWhiteSpace c) eqn:W; [|reflexivity]. exfalso.
  unfold isWordChar in H. unfold isWhiteSpace in W.
  repeat first [ rewrite orb_true_iff in H | rewrite andb_true_iff in H
               | rewrite N.leb_le in H | rewrite N.eqb_eq in H ].
  repeat first [ rewrite orb_true_iff in W | rewrite andb_true_iff in W
               | rewrite N.leb_le in W | rewrite N.eqb_eq in W ].
  lia.
Qed.
Lemma isWordChar_not_backtick c : isWordChar c = true -> c <> 96%N.
Proof. intros H ->. discriminate H. Qed.

Lemma trimEnd_word language :
  forallb isWordChar language = true -> trimEnd language = language.
Proof.
  intros H. apply trimEnd_fixed.
  destruct (rev language) as [|c r] eqn:E; [exact I|].
  apply isWordChar_not_space.
  rewrite forallb_forall in H. apply H, in_rev. rewrite E. left. reflexivity.
Qed.

Lemma endsWith_fence_last y c :
  c <> 96%N -> endsWith (y ++ [c]) (lit "```") = false.
Proof.
  intros H. destruct (endsWith (y ++ [c]) (lit "```")) eqn:E; [|reflexivity].
  exfalso. apply endsWith_true in E as [p E].
  change (lit "```") with ([96; 96] ++ [96])%N in E.
  rewrite app_assoc in E. apply app_inj_tail in E as [_ E]. exact (H E).
Qed.

Lemma endsWith_fence_no_backtick z :
  z <> [] -> ~ In 96%N z -> endsWith z (lit "```") = false.
Proof.
  intros Hz H. destruct (exists_last Hz) as [y [c E]]. subst z.
  apply endsWith_fence_last. intros ->. apply H, in_or_app. right. left.
  reflexivity.
Qed.

Lemma trimEnd_In x s : In x (trimEnd s) -> In x s.
Proof.
  destruct (trimEnd_split s) as [b [E _]]. intros H. rewrite E.
  apply in_or_app. left. exact H.
Qed.

Lemma trimEnd_after_fence x :
  trimEnd (lit "```" ++ x) = lit "```" ++ trimEnd x.
Proof.
  rewrite trimEnd_app. destruct (forallb isWhiteSpace x) eqn:E.
  - rewrite (trimEnd_nil_of_blank x E). reflexivity.
  - reflexivity.
Qed.
(** What [ensureCompleteCodeBlock] makes of a block whose closing fence is
    missing. *)
Lemma ensureCompleteCodeBlock_unterminated language code :
  forallb isWordChar language = true ->
  ~ In 96%N code ->
  language <> [] \/ trim code <> [] ->
  exists code',
    ensureCompleteCodeBlock (lit "```" ++ language ++ LF ++ code)
    = lit "```" ++ language ++ LF ++ code' ++ lit "```" ++ []
    /\ ~ In 96%N code' /\ trim code' = trim code.
Proof.
  intros Hl Hc Hne. unfold ensureCompleteCodeBlock. cbv zeta.
  assert (Et : trim (lit "```" ++ language ++ LF ++ code)
               = lit "```" ++ trimEnd (language ++ LF ++ code)).
  { unfold trim. change (trimStart (lit "```" ++ ?x)) with (lit "```" ++ x).
    apply trimEnd_after_fence. }
  rewrite Et, startsWith_app. cbn [andb].
  rewrite trimEnd_app.
  change (forallb isWhiteSpace (LF ++ code))
    with (forallb isWhiteSpace code).
  destruct (forallb isWhiteSpace code) eqn:Eb.
  - (* blank code: the language ends the trimmed text *)
    assert (Hlang : language <> []).
    { destruct Hne as [H | H]; [exact H|].
      exfalso. apply H, trim_nil_of_blank, Eb. }
    rewrite (trimEnd_word language Hl).
    destruct (exists_last Hlang) as [y [c E]].
    assert (Hc96 : c <> 96%N).
    { apply isWordChar_not_backtick. rewrite forallb_forall in Hl.
      apply Hl. rewrite E. apply in_or_app. right. left. reflexivity. }
    assert (Ee : endsWith (lit "```" ++ language) (lit "```") = false).
    { rewrite E, app_assoc. apply endsWith_fence_last, Hc96. }
    rewrite Ee. cbn [negb]. exists []. split; [|split].
    + rewrite <- !app_assoc. reflexivity.
    + intros K. exact K.
    + symmetry. apply trim_nil_of_blank, Eb.
  - (* code that is not blank: it keeps its line *)
    rewrite trimEnd_app, Eb.
    assert (Hn : trimEnd code <> []).
    { intros K. destruct (trimEnd_split code) as [b [E Hb]].
      rewrite K in E. cbn in E. subst b. congruence. }
    assert (Ee : endsWith (lit "```" ++ language ++ LF ++ trimEnd code)
                   (lit "```") = false).
    { destruct (exists_last Hn) as [y [c E]]. rewrite E.
      rewrite !app_assoc. apply endsWith_fence_last.
      intros ->. apply Hc, trimEnd_In. rewrite E. apply in_or_app.
      right. left. reflexivity. }
    rewrite Ee. cbn [negb]. exists (trimEnd code ++ LF). split; [|split].
    + rewrite <- !app_assoc. reflexivity.
    + intros K. apply in_app_or in K as [K | K].
      * apply Hc, trimEnd_In, K.
      * cbn in K. destruct K as [K | []]. discriminate K.
    + rewrite trim_app_blank by reflexivity. apply trim_trimEnd.
Qed.
(** X26.  A response cut off inside its code block.  When the output is a
    fence, a language of word characters, a line feed and code without
    backticks, with no closing fence, and the language or the code is not
    blank, what is shown once the generation is over is one code block
    with that language and the trimmed code. *)
Theorem unterminated_block_is_shown_as_code (language code : JsString) :
  forallb isWordChar language = true ->
  ~ In 96%N code ->
  language <> [] \/ trim code <> [] ->
  renderOutput_blocks (lit "```" ++ language ++ LF ++ code)
  = [CodeBlock language (trim code)].
Proof.
  intros Hl Hc Hne. unfold renderOutput_blocks.
  destruct (ensureCompleteCodeBlock_unterminated language code Hl Hc Hne)
    as [code' [E [Hc' Ht]]].
  rewrite E, parseContent_eq.
  pose proof (exec_after_text [] _ (language, code', []) (fun K => K)
                (matchCodeBlock_fenced language code' [] Hl Hc')) as Ex.
  cbn [Datatypes.app] in Ex. cbn [Datatypes.app]. rewrite Ex.
  rewrite (parseContent_eq []), Ht. reflexivity.
Qed.

Lemma unterminated_block_is_shown_as_code_witness :
  renderOutput_blocks (lit "```" ++ lit "py" ++ LF ++ lit "print(1)")
  = [CodeBlock (lit "py") (trim (lit "print(1)"))].
Proof.
  refine (unterminated_block_is_shown_as_code (lit "py") (lit "print(1)")
            _ _ _).
  - reflexivity.
  - vm_compute. intuition discriminate.
  - left. discriminate.
Defined.
Lemma ensureCompleteCodeBlock_no_backtick s :
  ~ In 96%N s -> ensureCompleteCodeBlock s = trim s.
Proof.
  intros H. unfold ensureCompleteCodeBlock. cbv zeta.
  rewrite (no_backtick_no_fence s H), andb_comm. cbn [negb andb].
  destruct (startsWith (trim s) (lit "```")) eqn:E; [|reflexivity].
  exfalso. apply H, trim_In. apply startsWith_true in E as [r ->].
  left. reflexivity.
Qed.

Lemma textBlock_trim s : textBlock (trim s) = textBlock s.
Proof. unfold textBlock. rewrite trim_idempotent. reflexivity. Qed.

(** X27.  Output without code.  Output that has no backtick and is not
    blank is shown, once the generation is over, as a single text block
    holding the trimmed output. *)
Theorem plain_text_is_shown_as_text (content : JsString) :
  ~ In 96%N content ->
  trim content <> [] ->
  renderOutput_blocks content = [TextBlock (trim content)].
Proof.
  intros H Hne. unfold renderOutput_blocks.
  rewrite (ensureCompleteCodeBlock_no_backtick content H), parseContent_eq.
  rewrite exec_no_backtick by (intros K; apply H, trim_In, K).
  rewrite textBlock_trim. unfold textBlock.
  destruct (trim content); [contradiction | reflexivity].
Qed.

Lemma plain_text_is_shown_as_text_witness :
  renderOutput_blocks (lit " Hello. ") = [TextBlock (trim (lit " Hello. "))].
Proof.
  refine (plain_text_is_shown_as_text (lit " Hello. ") _ _).
  - vm_compute. intuition discriminate.
  - vm_compute. discriminate.
Defined.

Lemma exec_app_no_backtick before s :
  ~ In 96%N before ->
  exec (before ++ s)
  = match exec s with
    | Some (b, m) => Some (before ++ b, m)
    | None => None
    end.
Proof.
  intros H. induction before as [|c before IH].
  - cbn [Datatypes.app]. destruct (exec s) as [[b m]|]; reflexivity.
  - cbn [Datatypes.app exec].
    rewrite matchCodeBlock_no_fence
      by (apply startsWith_fence_head; intros ->; apply H; left; reflexivity).
    rewrite IH by (intros K; apply H; right; exact K).
    destruct (exec s) as [[b m]|]; reflexivity.
Qed.

(** X28.  A stopped answer without code, shown again.  For a buffer that has
    no backtick and is not blank, the text that the stop sends is shown,
    by the rendering of finished output, as a single text block: the
    trimmed buffer followed by a line feed and the fence that the stop
    appended. *)
Theorem stopped_plain_text_shows_fence (buffer : JsString) :
  ~ In 96%N buffer ->
  trim buffer <> [] ->
  renderOutput_blocks (stopOutput buffer)
  = [TextBlock (trim buffer ++ LF ++ lit "```")].
Proof.
  intros H Hne.
  assert (Hb : truthy buffer = true).
  { destruct buffer; [contradiction Hne; reflexivity | reflexivity]. }
  assert (Es : stopOutput buffer = trim buffer ++ LF ++ lit "```").
  { unfold stopOutput. rewrite Hb, (no_backtick_no_fence buffer H).
    reflexivity. }
  assert (Hin : ~ In 96%N (trim buffer)) by (intros K; apply H, trim_In, K).
  pose proof (trim_with_fence (trim buffer) (trim_idempotent buffer) Hne)
    as Et.
  unfold renderOutput_blocks, ensureCompleteCodeBlock. cbv zeta.
  rewrite Es, Et, (startsWith_before_fence (trim buffer) Hne).
  assert (E0 : startsWith (trim buffer) (lit "```") = false).
  { destruct (trim buffer) as [|c t] eqn:E; [contradiction|].
    apply startsWith_fence_head. intros ->. apply Hin. left. reflexivity. }
  rewrite E0. cbn [andb].
  rewrite parseContent_eq, (exec_app_no_backtick _ _ Hin).
  change (exec (LF ++ lit "```")) with
    (@None (JsString * (JsString * JsString * JsString))).
  unfold textBlock. rewrite Et.
  destruct (trim buffer) as [|c t]; [contradiction|]. reflexivity.
Qed.

Lemma stopped_plain_text_shows_fence_witness :
  renderOutput_blocks (stopOutput (lit "Hello."))
  = [TextBlock (trim (lit "Hello.") ++ LF ++ lit "```")].
Proof.
  refine (stopped_plain_text_shows_fence (lit "Hello.") _ _).
  - vm_compute. intuition discriminate.
  - discriminate.
Defined.

(** ** Completion *)



(** ** Restoring a snapshot that names a record *)

(** X30.  Restoring a recent snapshot that holds an id is opening that
    record.  Whatever else the snapshot holds (buffer, prompt, count,
    generating flag), the restore does what a click on the history item
    of that id does, and whatever happens next the two sessions are the
    same: the buffer of the snapshot is not used. *)
Theorem restore_with_id_opens_the_record (w : World) (state : SavedState)
    (id : JsString) (events : list Event) :
  appState (localStorage (app w)) = Some (Saved state) ->
  st_generationId state = Some id ->
  truthy id = true ->
  clock (app w) - st_timestamp state < 24 * 60 * 60 * 1000 ->
  run (RestoreLast :: events) w = run (ClickHistoryItem id :: events) w.
Proof.
  intros Hs Hi Ht Hr. rewrite !run_cons. cbn [step].
  assert (E : loadLastGeneration (app w) = loadGeneration id (app w)).
  { unfold loadLastGeneration. rewrite Hs, Hi.
    apply Z.ltb_lt in Hr. rewrite Hr. cbn [truthy_opt andb default].
    rewrite Ht. reflexivity. }
  unfold handle. rewrite E. reflexivity.
Qed.

Lemma restore_with_id_opens_the_record_witness :
  let state :=
    {| st_generationId := Some (lit "g1"); st_prompt := lit "add";
       st_outputBuffer := lit "x = 1"; st_tokenCount := 3;
       st_isGenerating := true; st_timestamp := 0 |} in
  let w :=
    boot blankPage
      {| appState := Some (Saved state); selectedModel := None;
         lastGenerationId := None |} 1000 in
  run [RestoreLast; FetchSettled 0 (Response false 404)] w
  = run [ClickHistoryItem (lit "g1"); FetchSettled 0 (Response false 404)] w.
Proof.
  intros state w.
  refine (restore_with_id_opens_the_record w state (lit "g1")
            [FetchSettled 0 (Response false 404)] _ _ _ _);
    reflexivity.
Defined.
